(** * embdloader: the in-memory vector-store adapters

    A shallow embedding of
      src/embdloader/infrastructure/vector_stores/faiss_store.py
      src/embdloader/infrastructure/vector_stores/chroma_store.py
    together with the fragment of Python, pandas, numpy, faiss and chromadb
    that the two adapters call.

    Conventions.
    - A Python [dict] whose key order is observable (the column-type map, whose
      keys become the frame's column list) is an association list with
      update-in-place ([dict_set]); the three per-adapter registries
      (table name -> index / frame / schema) are [gmap string _].
    - A method is a function [Store -> Store * outcome A]: a raised exception
      leaves whatever was already written to [self] in place, so the store
      comes back in the error case as well.
    - A number in a cell is an integer.  The vectors that reach faiss pass
      through [.astype("float32")]: [np.float32] is a binary32 value whose
      finite magnitudes are integers, with round-to-nearest-even conversion
      and arithmetic, so that what the index holds and the distances it
      reports are the rounded ones. *)

From stdpp Require Import base strings list gmap fin_maps pretty sorting.
From Stdlib Require Import ZArith Lia SpecFloat.

Local Open Scope string_scope.
Local Open Scope Z_scope.
Local Open Scope list_scope.

(* ===================================================================== *)
(** ** Python values and ordered dictionaries *)
(* ===================================================================== *)

(** The cell values that occur in the frames handled by the adapters. *)
Inductive value :=
| VNaN                      (* missing: NaN / None *)
| VBool (b : bool)
| VNum (z : Z)              (* a number *)
| VStr (s : string)
| VVec (v : list Z).        (* an embedding vector / list of numbers *)

Global Instance value_eq_dec : EqDecision value.
Proof. solve_decision. Defined.

(** Elementwise [==] of pandas on object cells: a missing value equals
    nothing, [True == 1] and [False == 0] as in Python.  Key cells are
    scalars; a vector cell compares unequal to a scalar, and the comparison
    of two vector cells is not used by the adapters (modelled as unequal). *)
Definition py_eq (a b : value) : bool :=
  match a, b with
  | VBool x, VBool y => bool_decide (x = y)
  | VNum x, VNum y => bool_decide (x = y)
  | VStr x, VStr y => bool_decide (x = y)
  | VBool x, VNum y | VNum y, VBool x => bool_decide (Z.b2z x = y)
  | _, _ => false
  end.

(** Elementwise [!=]. *)
Definition py_ne (a b : value) : bool := negb (py_eq a b).

(** An insertion-ordered [dict] with string keys. *)
Definition dict (V : Type) : Type := list (string * V).

(** [d[k] = v]: overwrite in place when the key exists, else append. *)
Fixpoint dict_set {V} (k : string) (v : V) (d : dict V) : dict V :=
  match d with
  | [] => [(k, v)]
  | (k', v') :: d' =>
      if decide (k = k') then (k, v) :: d' else (k', v') :: dict_set k v d'
  end.

Fixpoint dict_get {V} (k : string) (d : dict V) : option V :=
  match d with
  | [] => None
  | (k', v') :: d' => if decide (k = k') then Some v' else dict_get k d'
  end.

(** [list(d.keys())]. *)
Definition dict_keys {V} (d : dict V) : list string := d.*1.

(** [{k: f(k) for k in ks}]. *)
Definition dict_comp {V} (f : string → V) (ks : list string) : dict V :=
  foldl (λ d k, dict_set k (f k) d) [] ks.

(* ===================================================================== *)
(** ** pandas *)
(* ===================================================================== *)

Module pd.

(** A row ([Series] indexed by column label). *)
Abbreviation Series := (gmap string value).

(** A frame: its column labels (distinct) and its rows, each with its
    index label. *)
Record DataFrame := mk {
  columns : list string;
  rows : list (Z * Series);
}.

(** [row[c]]; a label without a value reads as missing. *)
Definition cell (r : Series) (c : string) : value := default VNaN (r !! c).

(** [row.reindex(cols)]: exactly the labels [cols], missing ones NaN. *)
Definition reindex (cols : list string) (r : Series) : Series :=
  list_to_map ((λ c, (c, cell r c)) <$> cols).

(** [pd.DataFrame()] and [pd.DataFrame(columns=cols)]. *)
Definition empty (cols : list string) : DataFrame := mk cols [].

(** [pd.DataFrame([row])] for a row yielded by [df.iterrows()]. *)
Definition of_row (cols : list string) (lbl : Z) (row : Series) : DataFrame :=
  mk cols [(lbl, row)].

(** [len(df)] *)
Definition len (df : DataFrame) : nat := length (rows df).

(** [df.index] *)
Definition index (df : DataFrame) : list Z := (rows df).*1.

(** [df[c].tolist()] *)
Definition column (df : DataFrame) (c : string) : list value :=
  (λ lr, cell lr.2 c) <$> rows df.

(** [ignore_index=True]: relabel 0, 1, 2, ... *)
Definition range_index (rs : list (Z * Series)) : list (Z * Series) :=
  imap (λ i lr, (Z.of_nat i, lr.2)) rs.

(** [pd.concat([a, b], ignore_index=True)]: the columns of [a] followed by
    the new ones of [b], every row completed with NaN. *)
Definition concat (a b : DataFrame) : DataFrame :=
  let cols := columns a ++ filter (λ c, c ∉ columns a) (columns b) in
  mk cols (range_index (prod_map id (reindex cols) <$> (rows a ++ rows b))).

(** [df[mask(row)]]: the selected rows keep their labels. *)
Definition select (mask : Series → bool) (df : DataFrame) : DataFrame :=
  mk (columns df) (filter (λ lr, mask lr.2 = true) (rows df)).

(** [df[mask(row)].index] *)
Definition index_where (mask : Series → bool) (df : DataFrame) : list Z :=
  index (select mask df).

(** [df.loc[labels, :] = row] with a list of row labels and a [row] that
    is a Series labelled by column names (as [iterrows] yields it).  pandas
    aligns the Series on the selected row labels, [row.reindex(labels)],
    not on the columns.  The row labels are integers and no label of
    [row] is one, so the aligned values are all missing: every cell of
    every selected row is set to NaN, and the values of [row] are not
    used. *)
Definition loc_set_rows (labels : list Z) (row : Series) (df : DataFrame)
  : DataFrame :=
  mk (columns df)
     ((λ lr, if bool_decide (lr.1 ∈ labels)
             then (lr.1, reindex (columns df) ∅) else lr) <$> rows df).

(** [df.loc[mask(row), c] = v]; a new label [c] becomes a new column. *)
Definition loc_set_cell (mask : Series → bool) (c : string) (v : value)
    (df : DataFrame) : DataFrame :=
  mk (if bool_decide (c ∈ columns df) then columns df else columns df ++ [c])
     ((λ lr, if mask lr.2 then (lr.1, <[c := v]> lr.2)
             else if bool_decide (c ∈ columns df) then lr
             else (lr.1, <[c := VNaN]> lr.2)) <$> rows df).

(** [df[c] = None] *)
Definition set_column_none (c : string) (df : DataFrame) : DataFrame :=
  mk (if bool_decide (c ∈ columns df) then columns df else columns df ++ [c])
     ((λ lr, (lr.1, <[c := VNaN]> lr.2)) <$> rows df).

(** [s.isin(values)] on one cell: membership, where a missing value is a
    member of a list that contains a missing value. *)
Definition isin (v : value) (values : list value) : bool :=
  existsb (λ w, match v, w with VNaN, VNaN => true | _, _ => py_eq v w end)
          values.

(** [df.iloc[i]] with Python's negative positions; [None] is IndexError. *)
Definition iloc (df : DataFrame) (i : Z) : option Series :=
  let n := Z.of_nat (len df) in
  if bool_decide (0 ≤ i < n) then snd <$> rows df !! Z.to_nat i
  else if bool_decide (- n ≤ i < 0) then snd <$> rows df !! Z.to_nat (n + i)
  else None.

(** The frame as a list of records, for reading results. *)
Definition to_records (df : DataFrame) : list (list (string * value)) :=
  (λ lr, (λ c, (c, cell lr.2 c)) <$> columns df) <$> rows df.

End pd.

(* ===================================================================== *)
(** ** numpy, faiss, chromadb *)
(* ===================================================================== *)

Module np.

(** A [float32] as it arises from the integers of the frames: a finite
    value (always an integer here: conversions, differences, products and
    sums of integers round to integers), an infinity, or NaN. *)
Inductive float32 :=
| finite (z : Z)
| inf (negative : bool)
| nan.

Global Instance float32_eq_dec : EqDecision float32.
Proof. solve_decision. Defined.

(** Rounding of an exact integer result to binary32, to nearest and ties
    to even: 24 significant bits, overflow to infinity from [2^128] on.
    An integer below [2^24] in magnitude is not changed. *)
Definition round (z : Z) : float32 :=
  let a := Z.abs z in
  let e := Z.log2 a - 23 in
  if bool_decide (e ≤ 0) then finite z
  else
    let ulp := 2 ^ e in
    let q := a / ulp in
    let r := a mod ulp in
    let q := if bool_decide (2 * r < ulp) then q
             else if bool_decide (ulp < 2 * r) then q + 1
             else if Z.even q then q else q + 1 in
    if bool_decide (2 ^ 128 ≤ q * ulp) then inf (bool_decide (z < 0))
    else finite (Z.sgn z * (q * ulp)).

(** [x - y], [x * y] and [x + y] on float32. *)
Definition sub (x y : float32) : float32 :=
  match x, y with
  | finite a, finite b => round (a - b)
  | nan, _ | _, nan => nan
  | inf s, inf s' => if bool_decide (s = s') then nan else inf s
  | inf s, finite _ => inf s
  | finite _, inf s => inf (negb s)
  end.

Definition mul (x y : float32) : float32 :=
  match x, y with
  | finite a, finite b => round (a * b)
  | nan, _ | _, nan => nan
  | inf s, inf s' => inf (xorb s s')
  | inf s, finite b | finite b, inf s =>
      if bool_decide (b = 0) then nan else inf (xorb s (bool_decide (b < 0)))
  end.

Definition add (x y : float32) : float32 :=
  match x, y with
  | finite a, finite b => round (a + b)
  | nan, _ | _, nan => nan
  | inf s, inf s' => if bool_decide (s = s') then inf s else nan
  | inf s, finite _ | finite _, inf s => inf s
  end.

(** [np.array(v).astype("float32")] for one vector. *)
Definition astype_float32 (v : list Z) : list float32 := round <$> v.

(** [np.array(cells).astype("float32")] as the 2-D matrix that
    [index.add] needs: the list is non-empty and every cell is a vector of
    one common length.  Anything else ends in a ValueError, here or when
    faiss unpacks [x.shape]. *)
Definition array (cells : list value) : option (list (list float32)) :=
  match cells with
  | VVec v :: _ =>
      mapM (λ c, match c with
                 | VVec w => if bool_decide (length w = length v)
                             then Some (astype_float32 w) else None
                 | _ => None
                 end) cells
  | _ => None
  end.

End np.

Module faiss.

(** The largest float32, [(2^24 - 1) * 2^104]: the threshold that a
    distance must stay below to become a hit, and the distance that faiss
    reports for a padding entry. *)
Definition FLT_MAX : Z := 340282346638528859811704183484516925440.

(** [faiss.IndexFlatL2(d)]: the stored float32 vectors in order of
    addition; the position of a vector is its label. *)
Record IndexFlatL2 := mk {
  d : nat;
  xb : list (list np.float32);
}.

Definition ntotal (index : IndexFlatL2) : nat := length (xb index).

(** [index.add(x)]: appends the rows of [x]; the width of [x] must be
    [d] (an assertion in the binding). *)
Definition add (index : IndexFlatL2) (x : list (list np.float32))
  : option IndexFlatL2 :=
  if forallb (λ v, bool_decide (length v = d index)) x
  then Some (mk (d index) (xb index ++ x)) else None.

(** The squared Euclidean distance as faiss computes it, in float32:
    [res = 0; for i: tmp = x[i] - y[i]; res += tmp * tmp], every operation
    rounded. *)
Definition l2 (x y : list np.float32) : np.float32 :=
  foldl (λ res tmp, np.add res (np.mul tmp tmp)) (np.finite 0)
        (zip_with np.sub x y).

(** The hit [(distance, label)] that the stored vector [v] at position
    [i] makes for the query [q].  A result heap starts out filled with
    [FLT_MAX] and takes a vector only when its distance is below what it
    holds: a distance that is infinite, NaN or [FLT_MAX] makes no hit. *)
Definition hit (q : list np.float32) (i : nat) (v : list np.float32)
  : option (Z * Z) :=
  match l2 q v with
  | np.finite dis =>
      if bool_decide (dis < FLT_MAX) then Some (dis, Z.of_nat i) else None
  | _ => None
  end.

(** Insertion of a hit [(distance, label)] in a list sorted by distance. *)
Fixpoint insert_hit (h : Z * Z) (l : list (Z * Z)) : list (Z * Z) :=
  match l with
  | [] => [h]
  | h' :: l' =>
      if bool_decide (h.1 ≤ h'.1) then h :: l else h' :: insert_hit h l'
  end.

Definition sort_hits (l : list (Z * Z)) : list (Z * Z) :=
  foldr insert_hit [] l.

(** The hits of all stored vectors, and [index.search(query, k)] for one
    query vector: the [k] nearest of the hits by increasing distance; when there are fewer than [k] hits the
    result is padded to length [k] with label [-1] and distance
    [FLT_MAX].  [k] must be positive and the query of width [d].
    The result is [zip(distances[0], indices[0])]. *)
Definition hits (index : IndexFlatL2) (q : list np.float32) : list (Z * Z) :=
  omap id (imap (hit q) (xb index)).

Definition search (index : IndexFlatL2) (q : list np.float32) (k : Z)
  : option (list (Z * Z)) :=
  if bool_decide (0 < k) && bool_decide (length q = d index) then
    let hits := sort_hits (hits index q) in
    let k := Z.to_nat k in
    Some (take k hits ++ replicate (k - length hits)%nat (FLT_MAX, -1))
  else None.

End faiss.

Module chromadb.

(** A collection: its name and its records in order of addition, as the
    parallel lists of their ids, embeddings and documents. *)
Record Collection := mk {
  name : string;
  ids : list string;
  embeddings : list (list np.float32);
  documents : list value;
}.

(** The dimension of a collection is that of its first record. *)
Definition dimension (c : Collection) : option nat :=
  length <$> head (embeddings c).

(** [chromadb.Client()], as far as [create_collection] depends on it: the
    naming rule of the installed release, and the names of the
    collections that the client holds. *)
Record Client := mkClient {
  valid_name : string → bool;
  collections : list string;
}.

(** [client.create_collection(name=name)]: a new, empty collection.  The
    call raises when the name breaks the naming rule or when the client
    holds a collection of that name ([None]). *)
Definition create_collection (client : Client) (name : string)
  : option Collection :=
  if valid_name client name && bool_decide (name ∉ collections client)
  then Some (mk name [] [] []) else None.

(** The embeddings of one [add]: every entry must be a list of numbers. *)
Definition vectors (embs : list value) : option (list (list Z)) :=
  mapM (λ c, match c with VVec w => Some w | _ => None end) embs.

(** The checks of [collection.add] on one batch: there is at least one
    record; ids, embeddings and documents are of one length; no id occurs
    twice in the batch; every document is a string; the vectors are not
    empty and of one dimension, which is the dimension of the collection
    when it has records. *)
Definition valid_batch (c : Collection) (vs : list (list Z))
    (docs : list value) (new_ids : list string) : bool :=
  bool_decide (vs ≠ [])
  && bool_decide (length new_ids = length vs ∧ length docs = length vs)
  && bool_decide (NoDup new_ids)
  && forallb (λ doc, match doc with VStr _ => true | _ => false end) docs
  && match vs with
     | [] => true
     | v :: _ =>
         bool_decide (length v ≠ 0%nat)
         && forallb (λ w, bool_decide (length w = length v)) vs
         && match dimension c with
            | Some n => bool_decide (n = length v)
            | None => true
            end
     end.

(** [collection.add(embeddings=.., documents=.., ids=..)]: raises when a
    check fails ([None]); otherwise the records whose id the collection
    does not hold yet are appended, in the order given, and a record whose
    id it holds already is ignored. *)
Definition add (c : Collection) (embs docs : list value) (new_ids : list string)
  : option Collection :=
  match vectors embs with
  | None => None
  | Some vs =>
      if valid_batch c vs docs new_ids then
        let new := filter (λ r, r.1.1 ∉ ids c) (zip (zip new_ids vs) docs) in
        Some (mk (name c) (ids c ++ new.*1.*1)
                (embeddings c ++ (np.astype_float32 <$> new.*1.*2))
                (documents c ++ new.*2))
      else None
  end.

End chromadb.

(* ===================================================================== *)
(** ** Domain entities *)
(* ===================================================================== *)

(** The exceptions of [src.embdloader.domain.entities] that the adapters
    raise, and the built-in ones that their library calls can end in. *)
Inductive error :=
| DBOperationError (table_name : string)          (* "Table .. not found" *)
| DataValidationError (pk_columns : list string)  (* "Primary keys .. missing" *)
| KeyError (key : string)
| IndexError
| ValueError
| AssertionError
| ChromaError.    (* an exception raised inside chromadb *)

Inductive outcome (A : Type) :=
| Return (a : A)
| Raise (e : error).
Arguments Return {A} a.
Arguments Raise {A} e.

(** Modelled from the spec: the [TableSchema] entity
    (src/embdloader/domain/entities.py is not among the sources), "a mapping
    from column name to a declared type tag" and "a parallel mapping from
    column name to nullability".  The adapters build it with the keyword
    arguments [columns=] and [nullables=]. *)
Record TableSchema := mkTableSchema {
  columns : dict string;
  nullables : dict bool;
}.

(** The invariant the spec states for a schema: both maps have the same
    keys. *)
Definition schema_keys_agree (sch : TableSchema) : Prop :=
  ∀ k, k ∈ dict_keys (columns sch) ↔ k ∈ dict_keys (nullables sch).

(* ===================================================================== *)
(** ** The adapters *)
(* ===================================================================== *)

(** The instance state of an adapter: [self.indexes] (called
    [self.collections] in the Chroma adapter), [self.data] and
    [self.schemas], each keyed by table name.  [I] is the backend-native
    index: [faiss.IndexFlatL2] or a Chroma collection. *)
Record Store (I : Type) := mkStore {
  indexes : gmap string I;
  data : gmap string pd.DataFrame;
  schemas : gmap string TableSchema;
}.
Arguments mkStore {I} _ _ _.
Arguments indexes {I} _.
Arguments data {I} _.
Arguments schemas {I} _.

(** [__init__] *)
Definition init {I} : Store I := mkStore ∅ ∅ ∅.

Definition set_data {I} (s : Store I) (t : string) (df : pd.DataFrame) : Store I :=
  mkStore (indexes s) (<[t := df]> (data s)) (schemas s).

Definition set_index {I} (s : Store I) (t : string) (i : I) : Store I :=
  mkStore (<[t := i]> (indexes s)) (data s) (schemas s).

Definition set_schema {I} (s : Store I) (t : string) (sch : TableSchema) : Store I :=
  mkStore (indexes s) (data s) (<[t := sch]> (schemas s)).

(** The methods whose text is the same in both adapters. *)
Section VectorStore.

(** [src.embdloader.config.DEFAULT_DIMENTION] (the config module is not
    among the sources). *)
Variable DEFAULT_DIMENTION : nat.

(** The backend-native index and how [create_table] makes a new one:
    [faiss.IndexFlatL2(DEFAULT_DIMENTION)] or
    [self.client.create_collection(name=table_name)]. *)
Context {I : Type}.
Variable new_index : string → I.

(** [f"vector({DEFAULT_DIMENTION})"] *)
Definition vector_type : string :=
  "vector(" +:+ pretty DEFAULT_DIMENTION +:+ ")".

(** The local [column_types] of [create_table] at the point where it is
    stored and returned (faiss_store.py 38-48, chroma_store.py 32-42). *)
Definition column_types (df : pd.DataFrame) (embed_type : string)
    (embed_columns_names : list string) : dict string :=
  let column_types := dict_comp (λ _, "text") (pd.columns df) in
  let column_types := dict_set "embed_columns_names" "text[]" column_types in
  let column_types :=
    if bool_decide (embed_type = "combined") then
      let column_types := dict_set "embed_columns_value" "text" column_types in
      dict_set "embeddings" vector_type column_types
    else
      foldl (λ column_types col, dict_set (col +:+ "_enc") vector_type column_types)
            column_types embed_columns_names in
  dict_set "is_active" "boolean" column_types.

Definition create_table (s : Store I) (table_name : string) (df : pd.DataFrame)
    (pk_columns : list string) (embed_type : string)
    (embed_columns_names : list string) : Store I * outcome (dict string) :=
  if bool_decide (table_name ∈ dom (indexes s)) then
    match schemas s !! table_name with
    | Some sch => (s, Return (columns sch))
    | None => (s, Raise (KeyError table_name))
    end
  else
    let column_types := column_types df embed_type embed_columns_names in
    let s := set_schema s table_name
               (mkTableSchema column_types
                  (dict_comp (λ _, true) (dict_keys column_types))) in
    let s := set_data s table_name (pd.empty (dict_keys column_types)) in
    let s := set_index s table_name (new_index table_name) in
    (s, Return column_types).

Definition add_column (s : Store I) (table_name column_name column_type : string)
  : Store I * outcome () :=
  match schemas s !! table_name with
  | None => (s, Raise (DBOperationError table_name))
  | Some sch =>
      let s := set_schema s table_name
                 (mkTableSchema (dict_set column_name column_type (columns sch))
                                (nullables sch)) in
      match data s !! table_name with
      | None => (s, Raise (KeyError table_name))
      | Some df =>
          (set_data s table_name (pd.set_column_none column_name df), Return ())
      end
  end.

Definition get_active_data (s : Store I) (table_name : string) : pd.DataFrame :=
  match data s !! table_name with
  | None => pd.empty []
  | Some df =>
      if bool_decide ("is_active" ∈ pd.columns df) then
        pd.select (λ r, py_ne (pd.cell r "is_active") (VBool false)) df
      else df
  end.

Definition set_inactive (s : Store I) (table_name : string)
    (pk_values : list value) : Store I * outcome () :=
  match data s !! table_name, pk_values with
  | None, _ | _, [] => (s, Return ())
  | Some df, _ =>
      match pd.columns df with
      | [] => (s, Raise IndexError)
      | pk_col :: _ =>     (* assume first column is PK *)
          (set_data s table_name
             (pd.loc_set_cell (λ r, pd.isin (pd.cell r pk_col) pk_values)
                              "is_active" (VBool false) df),
           Return ())
      end
  end.

(** The inner loop of [update_data], [for _, row in df.iterrows()], for
    one key column [pk]; [batch] is what is left of [df]'s rows. *)
Fixpoint update_rows (pk : string) (df_columns : list string)
    (batch : list (Z * pd.Series)) (existing : pd.DataFrame) : pd.DataFrame :=
  match batch with
  | [] => existing
  | (lbl, row) :: batch =>
      let existing_idx :=
        pd.index_where (λ r, py_eq (pd.cell r pk) (pd.cell row pk)) existing in
      let existing :=
        match existing_idx with
        | _ :: _ => pd.loc_set_rows existing_idx row existing
        | [] => pd.concat existing (pd.of_row df_columns lbl row)
        end in
      update_rows pk df_columns batch existing
  end.

(** The outer loop, [for pk in pk_columns]. *)
Fixpoint update_keys (pk_columns : list string) (df : pd.DataFrame)
    (existing : pd.DataFrame) : pd.DataFrame :=
  match pk_columns with
  | [] => existing
  | pk :: pk_columns =>
      if bool_decide (pk ∉ pd.columns df) || bool_decide (pk ∉ pd.columns existing)
      then update_keys pk_columns df existing
      else update_keys pk_columns df
             (update_rows pk (pd.columns df) (pd.rows df) existing)
  end.

Definition update_data (s : Store I) (table_name : string) (df : pd.DataFrame)
    (pk_columns : list string) : Store I * outcome () :=
  match data s !! table_name with
  | None => (s, Raise (DBOperationError table_name))
  | Some existing =>
      (set_data s table_name (update_keys pk_columns df existing), Return ())
  end.

End VectorStore.

Module FaissVectorStore.

Abbreviation Store := (Store faiss.IndexFlatL2).

Section Faiss.

Variable DEFAULT_DIMENTION : nat.

Definition new_index (_ : string) : faiss.IndexFlatL2 :=
  faiss.mk DEFAULT_DIMENTION [].

Definition create_table := create_table DEFAULT_DIMENTION new_index.

Definition insert_data (s : Store) (table_name : string) (df : pd.DataFrame)
    (pk_columns : list string) : Store * outcome () :=
  match data s !! table_name with
  | None => (s, Raise (DBOperationError table_name))
  | Some old =>
      if negb (forallb (λ col, bool_decide (col ∈ pd.columns df)) pk_columns)
      then (s, Raise (DataValidationError pk_columns))
      else
        let s := set_data s table_name (pd.concat old df) in
        if bool_decide ("embeddings" ∈ pd.columns df) then
          match np.array (pd.column df "embeddings") with
          | None => (s, Raise ValueError)
          | Some embeddings =>
              match indexes s !! table_name with
              | None => (s, Raise (KeyError table_name))
              | Some index =>
                  match faiss.add index embeddings with
                  | None => (s, Raise AssertionError)
                  | Some index => (set_index s table_name index, Return ())
                  end
              end
          end
        else (s, Return ())
  end.

(** The result loop of [search] over [zip(indices[0], distances[0])];
    a hit is [(dist, idx)]. *)
Fixpoint collect (df : pd.DataFrame) (hits : list (Z * Z))
  : outcome (list pd.Series) :=
  match hits with
  | [] => Return []
  | (dist, idx) :: hits =>
      if bool_decide (idx < Z.of_nat (pd.len df)) then
        match pd.iloc df idx with
        | None => Raise IndexError
        | Some row =>
            match collect df hits with
            | Return results => Return (<["distance" := VNum dist]> row :: results)
            | Raise e => Raise e
            end
        end
      else collect df hits
  end.

Definition search (s : Store) (table_name : string) (query_embedding : list Z)
    (top_k : Z) : outcome (list pd.Series) :=
  match indexes s !! table_name with
  | None => Raise (DBOperationError table_name)
  | Some index =>
      let query := np.astype_float32 query_embedding in
      match faiss.search index query top_k with
      | None => Raise AssertionError
      | Some [] => Return []
      | Some hits =>
          match data s !! table_name with
          | None => Raise (KeyError table_name)
          | Some df => collect df hits
          end
      end
  end.

End Faiss.
End FaissVectorStore.

Module ChromaVectorStore.

  Abbreviation Store := (Store chromadb.Collection).

Section Chroma.

Variable DEFAULT_DIMENTION : nat.

(** [chromadb.Client()] as [__init__] finds it: the naming rule, and the
    collections that the in-process database holds already. *)
Variable client : chromadb.Client.

(** [self.client] later on: it also holds the collections that the
    adapter has made, those of [self.collections]. *)
Definition self_client (s : Store) : chromadb.Client :=
  chromadb.mkClient (chromadb.valid_name client)
    (chromadb.collections client
     ++ (chromadb.name <$> (map_to_list (indexes s)).*2)).

(** [create_table] (chroma_store.py 21-51): the text of the faiss
    adapter, except that the last step, [create_collection], can raise,
    after the schema and the empty frame have been stored. *)
Definition create_table (s : Store) (table_name : string) (df : pd.DataFrame)
    (pk_columns : list string) (embed_type : string)
    (embed_columns_names : list string) : Store * outcome (dict string) :=
  if bool_decide (table_name ∈ dom (indexes s)) then
    match schemas s !! table_name with
    | Some sch => (s, Return (columns sch))
    | None => (s, Raise (KeyError table_name))
    end
  else
    let column_types :=
      column_types DEFAULT_DIMENTION df embed_type embed_columns_names in
    let s := set_schema s table_name
               (mkTableSchema column_types
                  (dict_comp (λ _, true) (dict_keys column_types))) in
    let s := set_data s table_name (pd.empty (dict_keys column_types)) in
    match chromadb.create_collection (self_client s) table_name with
    | None => (s, Raise ChromaError)
    | Some collection =>
        (set_index s table_name collection, Return column_types)
    end.

(** [df.get("embed_columns_value", pd.Series([""]*len(df))).tolist()] *)
Definition documents_of (df : pd.DataFrame) : list value :=
  if bool_decide ("embed_columns_value" ∈ pd.columns df)
  then pd.column df "embed_columns_value"
  else replicate (pd.len df) (VStr "").

Definition insert_data (s : Store) (table_name : string) (df : pd.DataFrame)
    (pk_columns : list string) : Store * outcome () :=
  match indexes s !! table_name with
  | None => (s, Raise (DBOperationError table_name))
  | Some collection =>
      if negb (forallb (λ col, bool_decide (col ∈ pd.columns df)) pk_columns)
      then (s, Raise (DataValidationError pk_columns))
      else
        match data s !! table_name with
        | None => (s, Raise (KeyError table_name))
        | Some old =>
            let s := set_data s table_name (pd.concat old df) in
            if bool_decide ("embeddings" ∈ pd.columns df) then
              match chromadb.add collection (pd.column df "embeddings")
                      (documents_of df) (pretty <$> pd.index df) with
              | None => (s, Raise ChromaError)
              | Some collection =>
                  (set_index s table_name collection, Return ())
              end
            else (s, Return ())
        end
  end.

End Chroma.
End ChromaVectorStore.

(* ===================================================================== *)
(** ** Notions used in the statements *)
(* ===================================================================== *)

(** The three registries of an adapter have the same table names. *)
Definition store_wf {I} (s : Store I) : Prop :=
  ∀ t, (is_Some (indexes s !! t) ↔ is_Some (data s !! t))
     ∧ (is_Some (data s !! t) ↔ is_Some (schemas s !! t)).

(** Whether [create_table] has registered the table. *)
Definition known {I} (s : Store I) (t : string) : Prop := is_Some (indexes s !! t).

(** What is left of [store_wf] when [create_table] can raise in its last
    step: a registered table has its frame, and the frames and the schemas
    have the same table names. *)
Definition registered_stored {I} (s : Store I) : Prop :=
  ∀ t, (is_Some (indexes s !! t) → is_Some (data s !! t))
     ∧ (is_Some (data s !! t) ↔ is_Some (schemas s !! t)).

(** The state of the Chroma adapter when [create_table] calls
    [create_collection]: the schema and the empty frame are stored. *)
Definition chroma_prepared (dim : nat) (s : ChromaVectorStore.Store)
    (t : string) (df : pd.DataFrame) (mode : string) (cols : list string)
  : ChromaVectorStore.Store :=
  mkStore (indexes s)
    (<[t := pd.empty (dict_keys (column_types dim df mode cols))]> (data s))
    (<[t := mkTableSchema (column_types dim df mode cols)
              (dict_comp (λ _, true)
                 (dict_keys (column_types dim df mode cols)))]> (schemas s)).

(** Idempotence of a [create_table] at the state [s] and the given inputs:
    a second call with the same inputs gives the result of the first and
    leaves the state as the first left it; on a registered table the first
    call already changes nothing and returns the stored column-type map;
    and when the first call returned, later calls for the table return the
    same map, which is that of the stored schema, whatever their other
    inputs. *)
Definition idempotent_at {I}
    (create_table : Store I → string → pd.DataFrame → list string → string
                    → list string → Store I * outcome (dict string))
    (s : Store I) (t : string) (df : pd.DataFrame) (pks : list string)
    (mode : string) (cols : list string) : Prop :=
  let first := create_table s t df pks mode cols in
  create_table first.1 t df pks mode cols = first
  ∧ (known s t →
     ∃ sch, schemas s !! t = Some sch ∧ first = (s, Return (columns sch)))
  ∧ (∀ column_types, first.2 = Return column_types →
       (∃ sch, schemas first.1 !! t = Some sch ∧ columns sch = column_types)
       ∧ ∀ df' pks' mode' cols',
           create_table first.1 t df' pks' mode' cols'
           = (first.1, Return column_types)).

(** The values that [==] finds equal to [False]: [False] itself and the
    number 0. *)
Definition equal_to_False (v : value) : bool :=
  match v with
  | VBool false | VNum 0 => true
  | _ => false
  end.

(** The value of a binary32 of the Standard Library ([SpecFloat] with 24
    bits of precision and maximal exponent 128) that is an integer, an
    infinity or NaN. *)
Definition binary32_value (f : spec_float) : np.float32 :=
  match f with
  | S754_zero _ => np.finite 0
  | S754_infinity s => np.inf s
  | S754_nan => np.nan
  | S754_finite s m e =>
      np.finite ((if s then -1 else 1) * Z.shiftl (Z.pos m) e)
  end.

(** Integers on which [np.round] is compared with the Standard Library's
    conversion to binary32: small ones, the neighbourhoods of [2^24],
    [2^25] and of the overflow threshold, and some of every size in
    between. *)
Definition round_samples : list Z :=
  let around (c : Z) := (λ i, c - 20 + Z.of_nat i) <$> seq 0 41 in
  let sized := (λ i, (Z.of_nat i + 3) ^ 17 + 12345) <$> seq 0 200 in
  let l := around 0 ++ around (2 ^ 24) ++ around (2 ^ 25) ++ around (2 ^ 64)
           ++ around (faiss.FLT_MAX + 2 ^ 103) ++ around (2 ^ 128) ++ sized in
  l ++ (Z.opp <$> l).

(** The squared Euclidean distance of two integer vectors, exactly. *)
Definition squared_distance (x y : list Z) : Z :=
  foldl (λ res tmp, res + tmp * tmp) 0 (zip_with Z.sub x y).

(** Every component of the vector is at most [B] in magnitude. *)
Definition bounded (B : Z) (v : list Z) : Prop := Forall (λ x, Z.abs x ≤ B) v.

(** The names that [create_table] gives a type of their own. *)
Definition synthesized_names (mode : string) (cols : list string) : list string :=
  ["embed_columns_names"; "is_active"]
  ++ (if bool_decide (mode = "combined")
      then ["embed_columns_value"; "embeddings"]
      else (λ col, col +:+ "_enc") <$> cols).

(** The index holds, position by position, the float32 conversion of the
    [embeddings] cell of the stored rows. *)
Definition aligned (index : faiss.IndexFlatL2) (df : pd.DataFrame) : Prop :=
  ∃ embs, pd.column df "embeddings" = VVec <$> embs
          ∧ faiss.xb index = np.astype_float32 <$> embs.

(** Every stored frame has the [is_active] column that [create_table]
    gave it. *)
Definition frames_flagged {I} (s : Store I) : Prop :=
  ∀ t df, data s !! t = Some df → "is_active" ∈ pd.columns df.

(** The embedding vector that a row carries in column [c], if the cell is
    populated. *)
Definition embedding_of (c : string) (r : pd.Series) : option (list Z) :=
  match pd.cell r c with VVec v => Some v | _ => None end.

(** Every row of the batch [df] that carries a vector in column [c] has
    been appended to the index, in the order of the batch. *)
Definition batch_indexed (c : string) (before after : faiss.IndexFlatL2)
    (df : pd.DataFrame) : Prop :=
  faiss.xb after
  = faiss.xb before
    ++ (np.astype_float32 <$> omap (embedding_of c) (pd.rows df).*2).

(** Every input column of [df] is a text column of the schema. *)
Definition input_columns_text (df : pd.DataFrame) (sch : TableSchema) : Prop :=
  ∀ c, c ∈ pd.columns df → dict_get c (columns sch) = Some "text".

(** The row that the result loop of [search] builds for a hit
    [(dist, idx)] whose position exists. *)
Definition row_of (df : pd.DataFrame) (h : Z * Z) : pd.Series :=
  <["distance" := VNum h.1]> (default ∅ (pd.iloc df h.2)).

(** Hits in order of non-decreasing distance. *)
Definition by_distance (h h' : Z * Z) : Prop := h.1 ≤ h'.1.

(** [pd.DataFrame(records, columns=cols)] with the default index. *)
Definition from_records (cols : list string) (records : list (list value))
  : pd.DataFrame :=
  pd.mk cols (imap (λ i vs, (Z.of_nat i, list_to_map (zip cols vs))) records).

(** The cells of the columns [cols], row by row. *)
Definition values (cols : list string) (df : pd.DataFrame) : list (list value) :=
  (λ lr, pd.cell lr.2 <$> cols) <$> pd.rows df.

(** The rows that a call returned, read on the columns [cols]; [None] when
    the call raised. *)
Definition result_values (cols : list string) (o : outcome (list pd.Series))
  : option (list (list value)) :=
  match o with
  | Return results => Some ((λ r, pd.cell r <$> cols) <$> results)
  | Raise _ => None
  end.

(** The stored rows of table [t], read on the columns [cols]. *)
Definition table_values {I} (cols : list string) (s : Store I) (t : string)
  : option (list (list value)) :=
  values cols <$> data s !! t.

(** The single-key upsert in the words of the spec, to compare the code
    with: a stored row matches the input row when their cells in the key
    column compare equal; the input row replaces every matching row in
    place, and is appended as a new row when there is none. *)
Definition matches (pk : string) (row r : pd.Series) : bool :=
  py_eq (pd.cell r pk) (pd.cell row pk).

Definition upsert (pk : string) (df_columns : list string)
    (existing : pd.DataFrame) (labelled_row : Z * pd.Series) : pd.DataFrame :=
  if existsb (λ lr, matches pk labelled_row.2 lr.2) (pd.rows existing) then
    pd.mk (pd.columns existing)
      ((λ lr, if matches pk labelled_row.2 lr.2
              then (lr.1, pd.reindex (pd.columns existing) labelled_row.2)
              else lr) <$> pd.rows existing)
  else pd.concat existing (pd.of_row df_columns labelled_row.1 labelled_row.2).

(** One turn of the row loop of [update_data] as the code performs it on a
    frame with distinct labels: every stored row that matches the input row
    loses all its cells, and the input row is appended when no stored row
    matches. *)
Definition blank_or_append (pk : string) (df_columns : list string)
    (existing : pd.DataFrame) (labelled_row : Z * pd.Series) : pd.DataFrame :=
  if existsb (λ lr, matches pk labelled_row.2 lr.2) (pd.rows existing) then
    pd.mk (pd.columns existing)
      ((λ lr, if matches pk labelled_row.2 lr.2
              then (lr.1, pd.reindex (pd.columns existing) ∅)
              else lr) <$> pd.rows existing)
  else pd.concat existing (pd.of_row df_columns labelled_row.1 labelled_row.2).

(* ===================================================================== *)
(** ** Concrete tables *)
(* ===================================================================== *)

Module Examples.

(** The embedding dimension of the small tables below. *)
Definition dim : nat := 2.

(** A table keyed by the pair of columns [a], [b], holding two rows. *)
Definition ab_rows : pd.DataFrame :=
  from_records ["a"; "b"; "v"]
    [[VNum 1; VNum 1; VStr "x"]; [VNum 2; VNum 2; VStr "y"]].

Definition ab_store : FaissVectorStore.Store :=
  let s := (FaissVectorStore.create_table dim init "t" ab_rows
              ["a"; "b"] "combined" []).1 in
  (FaissVectorStore.insert_data s "t" ab_rows ["a"; "b"]).1.

(** A batch whose row agrees with the first stored row on [a] only and
    with the second on [b] only. *)
Definition ab_batch : pd.DataFrame :=
  from_records ["a"; "b"; "v"] [[VNum 1; VNum 2; VStr "z"]].

(** A table keyed by [id], holding the row [{id: 1, name: "a"}]. *)
Definition id_rows : pd.DataFrame :=
  from_records ["id"; "name"] [[VNum 1; VStr "a"]].

Definition id_created : FaissVectorStore.Store :=
  (FaissVectorStore.create_table dim init "t" id_rows ["id"] "combined" []).1.

Definition id_store : FaissVectorStore.Store :=
  (FaissVectorStore.insert_data id_created "t" id_rows ["id"]).1.

(** The stored frame of [id_store]. *)
Definition id_frame : pd.DataFrame :=
  pd.concat
    (pd.empty ["id"; "name"; "embed_columns_names"; "embed_columns_value";
               "embeddings"; "is_active"])
    id_rows.

Definition id_batch : pd.DataFrame :=
  from_records ["id"; "name"] [[VNum 1; VStr "b"]].

(** A batch without the key column [id]. *)
Definition name_batch : pd.DataFrame :=
  from_records ["name"] [[VStr "b"]].

(** A combined-mode batch of three rows with their embeddings. *)
Definition abc_batch : pd.DataFrame :=
  from_records ["id"; "name"; "embeddings"]
    [[VNum 1; VStr "a"; VVec [1; 0]];
     [VNum 2; VStr "b"; VVec [0; 1]];
     [VNum 3; VStr "c"; VVec [5; 5]]].

Definition abc_store : FaissVectorStore.Store :=
  (FaissVectorStore.insert_data id_created "t" abc_batch ["id"]).1.

(** The naming rule that chromadb documents: 3 to 512 characters out of
    [a-zA-Z0-9._-], the first and the last of them a letter or a digit. *)
Definition alphanumeric (a : Ascii.ascii) : bool :=
  let n := Ascii.nat_of_ascii a in
  (bool_decide (48 ≤ n ≤ 57) || bool_decide (65 ≤ n ≤ 90)
   || bool_decide (97 ≤ n ≤ 122))%nat.

Definition documented_name (name : string) : bool :=
  let l := String.list_ascii_of_string name in
  bool_decide (3 ≤ length l ≤ 512)%nat
  && forallb (λ a, alphanumeric a || bool_decide (a ∈ String.list_ascii_of_string "._-")) l
  && from_option alphanumeric false (head l)
  && from_option alphanumeric false (last l).

(** A client that holds no collection yet. *)
Definition client : chromadb.Client := chromadb.mkClient documented_name [].

(** The Chroma table [items] after [create_table], and after the first
    [insert_data]. *)
Definition abc_chroma : ChromaVectorStore.Store :=
  (ChromaVectorStore.create_table dim client init "items" id_rows ["id"]
     "combined" []).1.

Definition abc_chroma_store : ChromaVectorStore.Store :=
  (ChromaVectorStore.insert_data abc_chroma "items" abc_batch ["id"]).1.

(** A separated-mode table with embedding-source column [name], and a
    batch that carries the vector of [name] in [name_enc]. *)
Definition sep_store : FaissVectorStore.Store :=
  (FaissVectorStore.create_table dim init "t" id_rows ["id"] "separated"
     ["name"]).1.

Definition sep_batch : pd.DataFrame :=
  from_records ["id"; "name"; "name_enc"] [[VNum 1; VStr "a"; VVec [1; 0]]].

(** The stored frame of [abc_store] and its index. *)
Definition id_columns : list string :=
  ["id"; "name"; "embed_columns_names"; "embed_columns_value"; "embeddings";
   "is_active"].

Definition abc_frame : pd.DataFrame := pd.concat (pd.empty id_columns) abc_batch.

Definition abc_index : faiss.IndexFlatL2 :=
  faiss.mk dim (np.astype_float32 <$> [[1; 0]; [0; 1]; [5; 5]]).

(** [abc_store] after [set_inactive("t", [2])], and its stored frame. *)
Definition inactive_store : FaissVectorStore.Store :=
  (set_inactive abc_store "t" [VNum 2]).1.

Definition inactive_frame : pd.DataFrame :=
  pd.loc_set_cell (λ r, pd.isin (pd.cell r "id") [VNum 2]) "is_active"
    (VBool false) abc_frame.

(** The collection of [abc_chroma_store]. *)
Definition abc_collection : chromadb.Collection :=
  chromadb.mk "items" ["0"; "1"; "2"]
    (np.astype_float32 <$> [[1; 0]; [0; 1]; [5; 5]])
    [VStr ""; VStr ""; VStr ""].

(** A batch whose row has the number 0 in [is_active], and the table that
    holds it. *)
Definition zero_batch : pd.DataFrame :=
  from_records ["id"; "name"; "is_active"] [[VNum 7; VStr "g"; VNum 0]].

Definition zero_store : FaissVectorStore.Store :=
  (FaissVectorStore.insert_data id_created "t" zero_batch ["id"]).1.

Definition zero_frame : pd.DataFrame :=
  pd.concat
    (pd.empty ["id"; "name"; "embed_columns_names"; "embed_columns_value";
               "embeddings"; "is_active"])
    zero_batch.

(** An input frame that already has a column [is_active]. *)
Definition flagged_rows : pd.DataFrame :=
  from_records ["id"; "is_active"] [[VNum 1; VBool true]].

End Examples.

(* ===================================================================== *)
(** ** The remaining methods of the adapters *)
(* ===================================================================== *)

(** [s.startswith(sub)] *)
Fixpoint str_startswith (sub s : string) : bool :=
  match sub, s with
  | EmptyString, _ => true
  | String a sub', String b s' => bool_decide (a = b) && str_startswith sub' s'
  | String _ _, EmptyString => false
  end.

(** [sub in s] on Python strings: [sub] occurs in [s] as a substring. *)
Fixpoint str_contains (sub s : string) : bool :=
  str_startswith sub s
  || match s with
     | EmptyString => false
     | String _ s' => str_contains sub s'
     end.

(** [get_data_columns] (faiss_store.py 112-115, chroma_store.py 104-107). *)
Definition get_data_columns {I} (s : Store I) (table_name : string) : list string :=
  match schemas s !! table_name with
  | Some sch => dict_keys (columns sch)
  | None => []
  end.

(** [get_embed_columns_names] (faiss_store.py 117-124,
    chroma_store.py 109-112). *)
Definition get_embed_columns_names {I} (s : Store I) (table_name : string)
  : list string :=
  match schemas s !! table_name with
  | None => []
  | Some sch =>
      filter (λ c, str_contains "_enc" c || bool_decide (c = "embeddings") = true)
             (dict_keys (columns sch))
  end.

Module ChromaSearch.

(** What [collection.query] returns, as far as [search] reads it: the
    entries ["ids"], ["documents"] and ["distances"], each a list with one
    inner list per query embedding. *)
Record QueryResult := mkQueryResult {
  ids : list (list string);
  documents : list (list value);
  distances : list (list Z);
}.

(** One record of the output of [search]: the keys ["id"], ["document"]
    and ["distance"]. *)
Record Hit := mkHit {
  id : list string;
  document : list value;
  distance : list Z;
}.

Section Search.

(** [collection.query(query_embeddings=.., n_results=..)] of chromadb,
    which the adapter only calls. *)
Variable query : chromadb.Collection → list (list Z) → Z → QueryResult.

(** [ChromaVectorStore.search] (chroma_store.py 70-86). *)
Definition search (s : ChromaVectorStore.Store) (table_name : string)
    (query_embedding : list Z) (top_k : Z) : outcome (list Hit) :=
  match indexes s !! table_name with
  | None => Raise (DBOperationError table_name)
  | Some collection =>
      let results := query collection [query_embedding] top_k in
      Return (zip_with (λ ids_docs dists, mkHit ids_docs.1 ids_docs.2 dists)
                (zip (ids results) (documents results)) (distances results))
  end.

End Search.
End ChromaSearch.

(** A state-changing call on an adapter. *)
Inductive call :=
| CreateTable (table_name : string) (df : pd.DataFrame) (pk_columns : list string)
    (embed_type : string) (embed_columns_names : list string)
| InsertData (table_name : string) (df : pd.DataFrame) (pk_columns : list string)
| UpdateData (table_name : string) (df : pd.DataFrame) (pk_columns : list string)
| SetInactive (table_name : string) (pk_values : list value)
| AddColumn (table_name column_name column_type : string).

(** The adapter state after a call, whether the call returned or raised. *)
Definition faiss_call (dim : nat) (s : FaissVectorStore.Store) (c : call)
  : FaissVectorStore.Store :=
  match c with
  | CreateTable t df pks mode cols =>
      (FaissVectorStore.create_table dim s t df pks mode cols).1
  | InsertData t df pks => (FaissVectorStore.insert_data s t df pks).1
  | UpdateData t df pks => (update_data s t df pks).1
  | SetInactive t pk_values => (set_inactive s t pk_values).1
  | AddColumn t c ty => (add_column s t c ty).1
  end.

Definition chroma_call (dim : nat) (client : chromadb.Client)
    (s : ChromaVectorStore.Store) (c : call) : ChromaVectorStore.Store :=
  match c with
  | CreateTable t df pks mode cols =>
      (ChromaVectorStore.create_table dim client s t df pks mode cols).1
  | InsertData t df pks => (ChromaVectorStore.insert_data s t df pks).1
  | UpdateData t df pks => (update_data s t df pks).1
  | SetInactive t pk_values => (set_inactive s t pk_values).1
  | AddColumn t c ty => (add_column s t c ty).1
  end.

(** The state of a new adapter after a sequence of calls. *)
Definition faiss_run (dim : nat) (cs : list call) : FaissVectorStore.Store :=
  foldl (faiss_call dim) init cs.

Definition chroma_run (dim : nat) (client : chromadb.Client) (cs : list call)
  : ChromaVectorStore.Store :=
  foldl (chroma_call dim client) init cs.

(** Every column of a table's schema is a column of its stored frame. *)
Definition schema_columns_stored {I} (s : Store I) : Prop :=
  ∀ t sch df, schemas s !! t = Some sch → data s !! t = Some df →
              ∀ c, c ∈ dict_keys (columns sch) → c ∈ pd.columns df.

(** The index labels of every stored frame are distinct. *)
Definition frames_labelled {I} (s : Store I) : Prop :=
  ∀ t df, data s !! t = Some df → NoDup (pd.index df).

(** No two of the values compare equal. *)
Definition distinct_keys (l : list value) : Prop :=
  ∀ i j a b, l !! i = Some a → l !! j = Some b → i ≠ j → py_eq a b = false.

(** No two rows of the frame have equal cells in the key column. *)
Definition key_unique (pk : string) (df : pd.DataFrame) : Prop :=
  distinct_keys (pd.column df pk).

(** The row is active: its [is_active] cell does not compare equal to
    [False]. *)
Definition active (r : pd.Series) : bool :=
  py_ne (pd.cell r "is_active") (VBool false).

(** The state [s'] keeps what [s] has: every table of [s] is a table of
    [s'], with at least the schema columns, the frame columns and the number
    of rows it has in [s]. *)
Definition extends {I} (s s' : Store I) : Prop :=
  ∀ t,
    (known s t → known s' t)
    ∧ (∀ c, c ∈ get_data_columns s t → c ∈ get_data_columns s' t)
    ∧ (∀ df, data s !! t = Some df →
             ∃ df', data s' !! t = Some df'
                    ∧ (∀ c, c ∈ pd.columns df → c ∈ pd.columns df')
                    ∧ (pd.len df ≤ pd.len df')%nat).


(** The row has no cell. *)
Definition blank (r : pd.Series) : Prop := ∀ c, pd.cell r c = VNaN.

(* ===================================================================== *)
(** ** Further concrete inputs *)
(* ===================================================================== *)

Module MoreExamples.

(** A batch whose embedding has three components, for an index of
    dimension [Examples.dim]. *)
Definition wide_batch : pd.DataFrame :=
  from_records ["id"; "embeddings"] [[VNum 9; VVec [1; 2; 3]]].

(** A [collection.query] that answers every query with the whole
    collection, at distance 0. *)
Definition whole_collection (c : chromadb.Collection) (_ : list (list Z))
    (_ : Z) : ChromaSearch.QueryResult :=
  ChromaSearch.mkQueryResult [chromadb.ids c] [chromadb.documents c]
    [(λ _, 0) <$> chromadb.ids c].

(** A second batch, with the default labels 0, 1, 2 like [abc_batch]. *)
Definition xyz_batch : pd.DataFrame :=
  from_records ["id"; "name"; "embeddings"]
    [[VNum 4; VStr "x"; VVec [7; 7]];
     [VNum 5; VStr "y"; VVec [8; 8]];
     [VNum 6; VStr "z"; VVec [9; 9]]].

(** The Chroma adapter after [create_table] for the name [t], which the
    client refuses, and after an [update_data] on that table. *)
Definition refused : ChromaVectorStore.Store :=
  (ChromaVectorStore.create_table Examples.dim Examples.client init "t"
     Examples.id_rows ["id"] "combined" []).1.

Definition refused_updated : ChromaVectorStore.Store :=
  (update_data refused "t" Examples.id_batch ["id"]).1.

End MoreExamples.

(* ===================================================================== *)
(** ** Facts about ordered dictionaries *)
(* ===================================================================== *)

Section Dict.
Context {V : Type}.
Implicit Types (d : dict V) (k : string) (v : V).

Lemma dict_get_set k k' v d :
  dict_get k (dict_set k' v d) = if decide (k = k') then Some v else dict_get k d.
Proof.
  induction d as [|[k0 v0] d IH]; simpl.
  - by destruct (decide (k = k')).
  - destruct (decide (k' = k0)) as [->|Hne]; simpl.
    + by destruct (decide (k = k0)).
    + destruct (decide (k = k0)) as [->|]; [|done].
      by rewrite decide_False by congruence.
Qed.

Lemma dict_keys_set k k' v d :
  k ∈ dict_keys (dict_set k' v d) ↔ k = k' ∨ k ∈ dict_keys d.
Proof.
  unfold dict_keys. induction d as [|[k0 v0] d IH]; simpl.
  - rewrite list_elem_of_singleton. set_solver.
  - destruct (decide (k' = k0)) as [->|Hne]; simpl; set_solver.
Qed.

Lemma dict_get_is_Some k d : is_Some (dict_get k d) ↔ k ∈ dict_keys d.
Proof.
  unfold dict_keys. induction d as [|[k0 v0] d IH]; simpl.
  - rewrite is_Some_alt. set_solver.
  - destruct (decide (k = k0)) as [->|Hne].
    + split; [set_solver | eauto].
    + rewrite IH. set_solver.
Qed.

Lemma dict_get_None k d : dict_get k d = None ↔ k ∉ dict_keys d.
Proof. rewrite <-dict_get_is_Some, eq_None_not_Some. done. Qed.

(** Folding assignments [d[g c] = f c] over a list: the last write to a
    key wins, and the other keys keep their value. *)
Lemma dict_get_foldl_set (g : string → string) (v : V) (l : list string) k d :
  dict_get k (foldl (λ d c, dict_set (g c) v d) d l)
  = if decide (k ∈ g <$> l) then Some v else dict_get k d.
Proof.
  revert d. induction l as [|c l IH]; intros d.
  - done.
  - cbn [foldl]. rewrite IH, dict_get_set, fmap_cons.
    repeat case_decide; try done; set_solver.
Qed.

Lemma dict_keys_foldl_set (g : string → string) (f : string → V) (l : list string) k d :
  k ∈ dict_keys (foldl (λ d c, dict_set (g c) (f c) d) d l)
  ↔ k ∈ g <$> l ∨ k ∈ dict_keys d.
Proof.
  revert d. induction l as [|c l IH]; intros d; simpl.
  - set_solver.
  - rewrite IH, dict_keys_set. set_solver.
Qed.

Lemma dict_keys_comp (f : string → V) (ks : list string) k :
  k ∈ dict_keys (dict_comp f ks) ↔ k ∈ ks.
Proof.
  unfold dict_comp. rewrite (dict_keys_foldl_set id f).
  rewrite list_fmap_id. unfold dict_keys. set_solver.
Qed.

Lemma dict_get_comp_const (v : V) (ks : list string) k :
  dict_get k (dict_comp (λ _, v) ks) = if decide (k ∈ ks) then Some v else None.
Proof.
  unfold dict_comp. rewrite (dict_get_foldl_set id v). by rewrite list_fmap_id.
Qed.
End Dict.

(* ===================================================================== *)
(** ** The registries of an adapter *)
(* ===================================================================== *)

Lemma store_eta {I} (s : Store I) : mkStore (indexes s) (data s) (schemas s) = s.
Proof. by destruct s. Qed.


Lemma init_wf {I} : store_wf (@init I).
Proof. intros t. simpl. rewrite !lookup_empty. split; split; by intros [? ?]. Qed.

Section StoreFacts.
Context {I : Type} (dim : nat) (new_index : string → I).
Implicit Types (s : Store I) (t : string).

Lemma create_table_existing s t df pks mode cols sch :
  is_Some (indexes s !! t) → schemas s !! t = Some sch →
  create_table dim new_index s t df pks mode cols = (s, Return (columns sch)).
Proof.
  intros Hi Hs. unfold create_table.
  rewrite bool_decide_eq_true_2 by (by apply elem_of_dom). by rewrite Hs.
Qed.

Lemma create_table_fresh s t df pks mode cols :
  indexes s !! t = None →
  create_table dim new_index s t df pks mode cols
  = (mkStore (<[t := new_index t]> (indexes s))
             (<[t := pd.empty (dict_keys (column_types dim df mode cols))]> (data s))
             (<[t := mkTableSchema (column_types dim df mode cols)
                       (dict_comp (λ _, true)
                          (dict_keys (column_types dim df mode cols)))]> (schemas s)),
     Return (column_types dim df mode cols)).
Proof.
  intros Hi. unfold create_table.
  rewrite bool_decide_eq_false_2; [done|]. by rewrite not_elem_of_dom.
Qed.

Lemma create_table_wf s t df pks mode cols :
  store_wf s → store_wf (create_table dim new_index s t df pks mode cols).1.
Proof.
  intros Hwf. destruct (indexes s !! t) as [i|] eqn:Hi.
  - destruct (proj1 (proj2 (Hwf t)) (proj1 (proj1 (Hwf t)) (mk_is_Some _ _ Hi)))
      as [sch Hs].
    by erewrite create_table_existing.
  - rewrite create_table_fresh by done. intros t'; simpl.
    destruct (decide (t = t')) as [->|Hne].
    + rewrite !lookup_insert_eq. split; split; eauto.
    + rewrite !lookup_insert_ne by done. apply Hwf.
Qed.

End StoreFacts.

(* ===================================================================== *)
(** ** create_table of the Chroma adapter *)
(* ===================================================================== *)

Lemma store_wf_registered_stored {I} (s : Store I) :
  store_wf s → registered_stored s.
Proof. intros Hwf t. split; [apply (Hwf t)|apply (Hwf t)]. Qed.

Section ChromaCreate.
Context (dim : nat) (client : chromadb.Client).
Implicit Types (s : ChromaVectorStore.Store) (t : string).

Lemma chroma_create_table_existing s t df pks mode cols sch :
  is_Some (indexes s !! t) → schemas s !! t = Some sch →
  ChromaVectorStore.create_table dim client s t df pks mode cols
  = (s, Return (columns sch)).
Proof.
  intros Hi Hs. unfold ChromaVectorStore.create_table.
  rewrite bool_decide_eq_true_2 by (by apply elem_of_dom). by rewrite Hs.
Qed.

Lemma chroma_create_table_fresh s t df pks mode cols :
  indexes s !! t = None →
  ChromaVectorStore.create_table dim client s t df pks mode cols
  = match chromadb.create_collection
            (ChromaVectorStore.self_client client s) t with
    | None => (chroma_prepared dim s t df mode cols, Raise ChromaError)
    | Some collection =>
        (set_index (chroma_prepared dim s t df mode cols) t collection,
         Return (column_types dim df mode cols))
    end.
Proof.
  intros Hi. unfold ChromaVectorStore.create_table.
  rewrite bool_decide_eq_false_2; [done|]. by rewrite not_elem_of_dom.
Qed.

(** When [create_collection] returns, the call is the [create_table] of
    the common text with the collection as the new index. *)
Lemma chroma_create_table_accepted s t df pks mode cols collection :
  indexes s !! t = None →
  chromadb.create_collection (ChromaVectorStore.self_client client s) t
  = Some collection →
  ChromaVectorStore.create_table dim client s t df pks mode cols
  = create_table dim (λ _, collection) s t df pks mode cols.
Proof.
  intros Hi Hc. rewrite chroma_create_table_fresh, Hc by done.
  by rewrite create_table_fresh.
Qed.

(** Returning or raising, the call on a table that is not registered
    stores the schema and the empty frame of the common text. *)
Lemma chroma_create_table_stores s t df pks mode cols :
  indexes s !! t = None →
  let s' := (ChromaVectorStore.create_table dim client s t df pks mode cols).1 in
  data s' = data (chroma_prepared dim s t df mode cols)
  ∧ schemas s' = schemas (chroma_prepared dim s t df mode cols)
  ∧ ∀ t', t' ≠ t → indexes s' !! t' = indexes s !! t'.
Proof.
  intros Hi. rewrite chroma_create_table_fresh by done.
  destruct (chromadb.create_collection _ _); cbn; split_and!; try done.
  intros t' Hne. by rewrite lookup_insert_ne.
Qed.

Lemma chroma_create_table_registered_stored s t df pks mode cols :
  registered_stored s →
  registered_stored
    (ChromaVectorStore.create_table dim client s t df pks mode cols).1.
Proof.
  intros Hwf. destruct (indexes s !! t) as [i|] eqn:Hi.
  - destruct (proj1 (proj2 (Hwf t)) (proj1 (Hwf t) (mk_is_Some _ _ Hi)))
      as [sch Hs].
    by erewrite chroma_create_table_existing.
  - rewrite chroma_create_table_fresh by done.
    destruct (chromadb.create_collection _ _); intros t'; cbn;
      (destruct (decide (t = t')) as [->|Hne];
       [rewrite ?lookup_insert_eq; split; [|split]; eauto
       |rewrite ?lookup_insert_ne by done; apply Hwf]).
Qed.

End ChromaCreate.

(* ===================================================================== *)
(** ** create_table is idempotent *)
(* ===================================================================== *)

Lemma create_table_idempotent_at {I} dim (new_index : string → I) s t df pks
    mode cols :
  registered_stored s →
  idempotent_at (create_table dim new_index) s t df pks mode cols
  ∧ ∃ column_types,
      (create_table dim new_index s t df pks mode cols).2 = Return column_types.
Proof.
  intros Hwf. unfold idempotent_at.
  destruct (indexes s !! t) as [i|] eqn:Hi.
  - destruct (proj1 (proj2 (Hwf t)) (proj1 (Hwf t) (mk_is_Some _ _ Hi)))
      as [sch Hs].
    rewrite (create_table_existing dim new_index s t df pks mode cols sch
               (mk_is_Some _ _ Hi) Hs).
    cbn [fst snd].
    split; [split_and!|by eexists].
    + apply create_table_existing; eauto.
    + intros _. by exists sch.
    + intros ct [= <-]. split; [by exists sch|].
      intros. apply create_table_existing; eauto.
  - rewrite (create_table_fresh dim new_index s t df pks mode cols Hi).
    cbn [fst snd]. split; [split_and!|by eexists].
    + eapply (create_table_existing _ _ _ _ _ _ _ _ (mkTableSchema _ _));
        cbn; by rewrite lookup_insert_eq.
    + intros [? Hk]. unfold known in *. congruence.
    + intros ct [= <-]. split.
      * eexists. split; [apply lookup_insert_eq|done].
      * intros.
        eapply (create_table_existing _ _ _ _ _ _ _ _ (mkTableSchema _ _));
          cbn; by rewrite lookup_insert_eq.
Qed.

Lemma chroma_create_table_idempotent_at dim client s t df pks mode cols :
  registered_stored s →
  idempotent_at (ChromaVectorStore.create_table dim client) s t df pks mode cols.
Proof.
  intros Hwf. unfold idempotent_at.
  destruct (indexes s !! t) as [i|] eqn:Hi.
  - destruct (proj1 (proj2 (Hwf t)) (proj1 (Hwf t) (mk_is_Some _ _ Hi)))
      as [sch Hs].
    rewrite (chroma_create_table_existing dim client s t df pks mode cols sch
               (mk_is_Some _ _ Hi) Hs).
    cbn [fst snd]. split_and!.
    + apply chroma_create_table_existing; eauto.
    + intros _. by exists sch.
    + intros ct [= <-]. split; [by exists sch|].
      intros. apply chroma_create_table_existing; eauto.
  - rewrite (chroma_create_table_fresh dim client s t df pks mode cols Hi).
    destruct (chromadb.create_collection _ _) as [collection|] eqn:Hc;
      cbn [fst snd]; split_and!.
    + eapply (chroma_create_table_existing _ _ _ _ _ _ _ _ (mkTableSchema _ _));
        cbn; by rewrite lookup_insert_eq.
    + intros [? Hk]. unfold known in *. congruence.
    + intros ct [= <-]. split.
      * eexists. split; [apply lookup_insert_eq|done].
      * intros.
        eapply (chroma_create_table_existing _ _ _ _ _ _ _ _ (mkTableSchema _ _));
          cbn; by rewrite lookup_insert_eq.
    + rewrite chroma_create_table_fresh by done.
      change (ChromaVectorStore.self_client client (chroma_prepared dim s t df mode cols))
        with (ChromaVectorStore.self_client client s).
      rewrite Hc. unfold chroma_prepared. cbn [indexes data schemas].
      by rewrite !insert_insert_eq.
    + intros [? Hk]. unfold known in *. congruence.
    + intros ct [=].
Qed.

(** C3. In both adapters, on a state in which every registered table has
    its frame and its schema, [create_table] is idempotent: a second call
    with the same inputs gives the result of the first call and leaves the
    adapter -- schema, rows and index of every table -- as the first call
    left it; when the table is registered already, the first call itself
    changes nothing and returns the column-type map of the stored schema;
    and once a call has returned, every later call for that table returns
    the same map, whatever its other inputs.  The faiss adapter always
    returns; the Chroma adapter raises when [create_collection] refuses the
    name, and then the second call raises likewise. *)
Theorem create_table_idempotent (dim : nat) (t : string) (df : pd.DataFrame)
    (pks : list string) (mode : string) (cols : list string) :
  (∀ s : FaissVectorStore.Store, registered_stored s →
     idempotent_at (FaissVectorStore.create_table dim) s t df pks mode cols
     ∧ ∃ column_types,
         (FaissVectorStore.create_table dim s t df pks mode cols).2
         = Return column_types)
  ∧ (∀ client (s : ChromaVectorStore.Store), registered_stored s →
     idempotent_at (ChromaVectorStore.create_table dim client) s t df pks
       mode cols).
Proof.
  split.
  - intros s Hwf. by apply create_table_idempotent_at.
  - intros client s Hwf. by apply chroma_create_table_idempotent_at.
Qed.

(* ===================================================================== *)
(** ** insert_data: the error contract *)
(* ===================================================================== *)

Lemma forallb_columns_false (pks cols : list string) pk :
  pk ∈ pks → pk ∉ cols →
  forallb (λ col, bool_decide (col ∈ cols)) pks = false.
Proof.
  intros Hin Hnot. apply not_true_is_false. intros Hall.
  rewrite forallb_forall in Hall.
  apply Hnot. eapply bool_decide_eq_true_1, Hall. by apply list_elem_of_In.
Qed.

Lemma faiss_insert_unknown_table (s : FaissVectorStore.Store) t df pks :
  data s !! t = None →
  FaissVectorStore.insert_data s t df pks = (s, Raise (DBOperationError t)).
Proof. intros H. unfold FaissVectorStore.insert_data. by rewrite H. Qed.

Lemma faiss_insert_missing_pk (s : FaissVectorStore.Store) t df pks old pk :
  data s !! t = Some old → pk ∈ pks → pk ∉ pd.columns df →
  FaissVectorStore.insert_data s t df pks = (s, Raise (DataValidationError pks)).
Proof.
  intros H Hin Hnot. unfold FaissVectorStore.insert_data. rewrite H.
  by rewrite (forallb_columns_false _ _ pk).
Qed.

Lemma chroma_insert_unknown_table (s : ChromaVectorStore.Store) t df pks :
  indexes s !! t = None →
  ChromaVectorStore.insert_data s t df pks = (s, Raise (DBOperationError t)).
Proof. intros H. unfold ChromaVectorStore.insert_data. by rewrite H. Qed.

Lemma chroma_insert_missing_pk (s : ChromaVectorStore.Store) t df pks c pk :
  indexes s !! t = Some c → pk ∈ pks → pk ∉ pd.columns df →
  ChromaVectorStore.insert_data s t df pks = (s, Raise (DataValidationError pks)).
Proof.
  intros H Hin Hnot. unfold ChromaVectorStore.insert_data. rewrite H.
  by rewrite (forallb_columns_false _ _ pk).
Qed.

(** C5. In both adapters, [insert_data] on a table that was never created
    raises [DBOperationError], and on an existing table with a declared
    primary-key column that is not a column of the input frame raises
    [DataValidationError]; in both cases the adapter state comes back
    unchanged. *)
Theorem insert_data_error_contract (t : string) (df : pd.DataFrame)
    (pks : list string) :
  (∀ s : FaissVectorStore.Store, store_wf s →
     (¬ known s t →
        FaissVectorStore.insert_data s t df pks = (s, Raise (DBOperationError t)))
     ∧ (known s t → ∀ pk, pk ∈ pks → pk ∉ pd.columns df →
        FaissVectorStore.insert_data s t df pks
        = (s, Raise (DataValidationError pks))))
  ∧ (∀ s : ChromaVectorStore.Store, store_wf s →
     (¬ known s t →
        ChromaVectorStore.insert_data s t df pks = (s, Raise (DBOperationError t)))
     ∧ (known s t → ∀ pk, pk ∈ pks → pk ∉ pd.columns df →
        ChromaVectorStore.insert_data s t df pks
        = (s, Raise (DataValidationError pks)))).
Proof.
  unfold known. split; intros s Hwf; split.
  - intros Hk. apply faiss_insert_unknown_table.
    apply eq_None_not_Some. intros Hd. apply Hk. by apply (Hwf t).
  - intros Hk pk Hin Hnot. apply (Hwf t) in Hk as [old Hold].
    by eapply faiss_insert_missing_pk.
  - intros Hk. apply chroma_insert_unknown_table. by apply eq_None_not_Some.
  - intros [c Hc] pk Hin Hnot. by eapply chroma_insert_missing_pk.
Qed.

(* ===================================================================== *)
(** ** update_data does not validate the key columns *)
(* ===================================================================== *)





(* ===================================================================== *)
(** ** get_active_data *)
(* ===================================================================== *)

(** A missing [is_active] is not equal to [False]. *)
Lemma py_ne_missing (w : value) : py_ne VNaN w = true.
Proof. done. Qed.

Lemma py_eq_False (v : value) :
  py_eq v (VBool false) = true ↔ v = VBool false ∨ v = VNum 0.
Proof.
  destruct v as [|[]|z| |]; simpl; split; intros H; try done;
    try (destruct H; done); try (by left).
  - apply bool_decide_eq_true_1 in H. simpl in H. right. by subst.
  - destruct H as [H|H]; [done|]. by inversion H.
Qed.

Lemma py_ne_False (v : value) :
  py_ne v (VBool false) = negb (equal_to_False v).
Proof. by destruct v as [|[]|[| |]| |]. Qed.

(** C8 (amended).  [get_active_data] returns an empty frame for an unknown
    table and the whole stored frame when it has no [is_active] column.
    Otherwise it returns, in order and unchanged, exactly the rows whose
    [is_active] cell is neither [False] nor the number 0 (which [==] finds
    equal to [False]): a row whose cell is missing or [True] is returned, a
    row whose cell is [False] or 0 is not. *)
Theorem get_active_data_spec {I} (s : Store I) (t : string) :
  (data s !! t = None → get_active_data s t = pd.empty [])
  ∧ ∀ df, data s !! t = Some df →
      pd.columns (get_active_data s t) = pd.columns df
      ∧ ("is_active" ∉ pd.columns df → get_active_data s t = df)
      ∧ ("is_active" ∈ pd.columns df →
         pd.rows (get_active_data s t)
         = filter (λ lr, equal_to_False (pd.cell lr.2 "is_active") = false)
                  (pd.rows df)
         ∧ ∀ lr, lr ∈ pd.rows df →
             (lr.2 !! "is_active" = None ∨ lr.2 !! "is_active" = Some VNaN
              ∨ lr.2 !! "is_active" = Some (VBool true) →
              lr ∈ pd.rows (get_active_data s t))
             ∧ (lr.2 !! "is_active" = Some (VBool false)
                ∨ lr.2 !! "is_active" = Some (VNum 0) →
                lr ∉ pd.rows (get_active_data s t))).
Proof.
  unfold get_active_data. split; [by intros ->|]. intros df ->.
  case_bool_decide as Hc; cbn [pd.select pd.columns pd.rows].
  - split; [done|]. split; [done|]. intros _.
    assert (∀ lr : Z * pd.Series,
              py_ne (pd.cell lr.2 "is_active") (VBool false) = true
              ↔ equal_to_False (pd.cell lr.2 "is_active") = false) as Hiff.
    { intros lr. rewrite py_ne_False. by destruct (equal_to_False _). }
    split; [by apply list_filter_iff|].
    intros lr Hin. rewrite list_elem_of_filter, Hiff. unfold pd.cell.
    split.
    + intros [-> | [-> | ->] ]; by split.
    + intros [-> | ->] [Hkeep _]; done.
  - split; [done|]. split; [by destruct df|]. done.
Qed.

(* ===================================================================== *)
(** ** set_inactive *)
(* ===================================================================== *)

(** C7. [set_inactive] returns without touching the adapter when the table
    is unknown or the list of key values is empty.  Otherwise, the stored
    frame having its [is_active] column, it rewrites only the frame of that
    table: a row whose cell in the first column is among the given values
    gets [is_active = False] and keeps its label and every other cell, every
    other row is unchanged, and so are the columns, the index, the schemas
    and the other tables. *)
Theorem set_inactive_spec {I} (s : Store I) (t : string) (pk_values : list value) :
  (data s !! t = None ∨ pk_values = [] → set_inactive s t pk_values = (s, Return ()))
  ∧ (∀ df,
       data s !! t = Some df → pk_values ≠ [] → "is_active" ∈ pd.columns df →
       ∃ pk_col cols,
         pd.columns df = pk_col :: cols
         ∧ set_inactive s t pk_values
           = (mkStore (indexes s)
                (<[t := pd.mk (pd.columns df)
                          ((λ lr, if pd.isin (pd.cell lr.2 pk_col) pk_values
                                  then (lr.1, <["is_active" := VBool false]> lr.2)
                                  else lr) <$> pd.rows df)]> (data s))
                (schemas s),
              Return ())).
Proof.
  unfold set_inactive. split.
  - intros [H|H]; [by rewrite H | subst pk_values].
    by destruct (data s !! t).
  - intros df Hd Hne Hact. rewrite Hd.
    destruct (pd.columns df) as [|pk_col cols] eqn:Hcols;
      [by apply elem_of_nil in Hact|].
    exists pk_col, cols. split; [done|].
    destruct pk_values as [|v vs]; [done|].
    unfold set_data, pd.loc_set_cell. rewrite Hcols.
    rewrite <-Hcols in Hact |- *. rewrite (bool_decide_eq_true_2 _ Hact).
    do 3 f_equal.
Qed.

(* ===================================================================== *)
(** ** The schema invariant *)
(* ===================================================================== *)

(** The schema that [create_table] stores for a new table has the same keys
    in both maps. *)
Lemma create_table_schema_keys_agree {I} dim (new_index : string → I) s t df pks mode cols :
  indexes s !! t = None →
  ∃ sch, schemas (create_table dim new_index s t df pks mode cols).1 !! t = Some sch
         ∧ schema_keys_agree sch.
Proof.
  intros Hi. rewrite create_table_fresh by done. simpl.
  eexists. split; [apply lookup_insert_eq|].
  intros k. simpl. by rewrite dict_keys_comp.
Qed.

(** [add_column] with a column name that the schema does not have yet
    writes the name into the column-type map only: afterwards the name is a
    key of [columns] and not of [nullables], so the two key sets differ. *)
Lemma add_column_breaks_schema_keys {I} (s : Store I) (t : string)
    (sch : TableSchema) (column_name column_type : string) :
  schemas s !! t = Some sch → schema_keys_agree sch →
  column_name ∉ dict_keys (columns sch) →
  ∃ sch', schemas (add_column s t column_name column_type).1 !! t = Some sch'
          ∧ column_name ∈ dict_keys (columns sch')
          ∧ column_name ∉ dict_keys (nullables sch')
          ∧ ¬ schema_keys_agree sch'.
Proof.
  intros Hs Hagree Hnew. unfold add_column. rewrite Hs.
  exists (mkTableSchema (dict_set column_name column_type (columns sch)) (nullables sch)).
  assert (Hnull : column_name ∉ dict_keys (nullables sch)) by (intros Hin; by apply Hnew, Hagree).
  split; [|split; [|split]].
  - simpl. destruct (data s !! t); simpl; by rewrite lookup_insert_eq.
  - simpl. apply dict_keys_set. by left.
  - done.
  - intros Hbad. apply Hnull. simpl in Hbad. apply Hbad, dict_keys_set. by left.
Qed.

(* ===================================================================== *)
(** ** The synthesized schema *)
(* ===================================================================== *)

Lemma dict_keys_NoDup_set {V} k (v : V) (d : dict V) :
  NoDup (dict_keys d) → NoDup (dict_keys (dict_set k v d)).
Proof.
  unfold dict_keys. induction d as [|[k0 v0] d IH]; simpl; intros Hnd.
  - apply NoDup_singleton.
  - apply NoDup_cons in Hnd as [Hk0 Hnd].
    destruct (decide (k = k0)) as [->|Hne]; simpl.
    + by apply NoDup_cons.
    + apply NoDup_cons. split; [|by apply IH].
      intros Hin. apply (dict_keys_set k0 k v d) in Hin as [?|?]; [congruence|done].
Qed.

Lemma dict_keys_NoDup_foldl {V} (g : string → string) (f : string → V) l (d : dict V) :
  NoDup (dict_keys d) →
  NoDup (dict_keys (foldl (λ d c, dict_set (g c) (f c) d) d l)).
Proof.
  revert d. induction l as [|c l IH]; intros d Hnd; [done|].
  simpl. by apply IH, dict_keys_NoDup_set.
Qed.

Lemma column_types_NoDup dim df mode cols :
  NoDup (dict_keys (column_types dim df mode cols)).
Proof.
  unfold column_types. apply dict_keys_NoDup_set.
  assert (NoDup (dict_keys (dict_set "embed_columns_names" "text[]"
                  (dict_comp (λ _, "text") (pd.columns df))))) as Hbase.
  { apply dict_keys_NoDup_set. unfold dict_comp.
    apply (dict_keys_NoDup_foldl id). apply NoDup_nil_2. }
  case_bool_decide.
  - by do 2 apply dict_keys_NoDup_set.
  - by apply (dict_keys_NoDup_foldl (λ col, col +:+ "_enc")).
Qed.

(** A vector column name [<col>_enc] is never [embed_columns_names]. *)
Lemma enc_name_not_names (col : string) : col +:+ "_enc" ≠ "embed_columns_names".
Proof.
  intros H. do 19 (destruct col as [|? col]; simplify_eq/=). by destruct col.
Qed.

(** The column-type map as a lookup table. *)
Lemma column_types_lookup dim df mode cols c :
  dict_get c (column_types dim df mode cols)
  = if decide (c = "is_active") then Some "boolean"
    else if bool_decide (mode = "combined") then
      if decide (c = "embeddings") then Some (vector_type dim)
      else if decide (c = "embed_columns_value") then Some "text"
      else if decide (c = "embed_columns_names") then Some "text[]"
      else if decide (c ∈ pd.columns df) then Some "text" else None
    else
      if decide (c ∈ (λ col, col +:+ "_enc") <$> cols) then Some (vector_type dim)
      else if decide (c = "embed_columns_names") then Some "text[]"
      else if decide (c ∈ pd.columns df) then Some "text" else None.
Proof.
  unfold column_types. rewrite dict_get_set.
  destruct (decide (c = "is_active")); [done|].
  case_bool_decide.
  - by rewrite !dict_get_set, dict_get_comp_const.
  - by rewrite (dict_get_foldl_set (λ col, col +:+ "_enc")), dict_get_set,
         dict_get_comp_const.
Qed.

Lemma column_types_keys dim df mode cols c :
  c ∈ dict_keys (column_types dim df mode cols)
  ↔ c ∈ pd.columns df ∨ c = "embed_columns_names" ∨ c = "is_active"
    ∨ (if bool_decide (mode = "combined")
       then c = "embed_columns_value" ∨ c = "embeddings"
       else c ∈ (λ col, col +:+ "_enc") <$> cols).
Proof.
  rewrite <-dict_get_is_Some, column_types_lookup.
  repeat (case_decide || case_bool_decide); subst;
    (split; [intros Hsome; try (by destruct Hsome as [? [=]])
            | intros Hrhs; try (by eauto); exfalso]);
    naive_solver.
Qed.

(** C4 (amended).  The schema that [create_table] stores and returns for a
    new table: every input column whose name is not one of the synthesized
    names is text; [embed_columns_names] is text[] and [is_active] boolean;
    every column is nullable and listed once.  In mode [combined],
    [embed_columns_value] is text and [embeddings] is a vector of the
    configured dimension, and there is no further column beyond the input
    columns.  In any other mode ([separated]) every [<col>_enc] of an
    embedding-source column is a vector of the configured dimension, and
    there is no further column beyond the input columns. *)
Theorem create_table_schema {I} (dim : nat) (new_index : string → I)
    (s : Store I) (t : string) (df : pd.DataFrame) (pks : list string)
    (mode : string) (cols : list string) :
  indexes s !! t = None →
  ∃ sch,
    (create_table dim new_index s t df pks mode cols).2 = Return (columns sch)
    ∧ schemas (create_table dim new_index s t df pks mode cols).1 !! t = Some sch
    ∧ (∀ c, c ∈ pd.columns df → c ∉ synthesized_names mode cols →
            dict_get c (columns sch) = Some "text")
    ∧ dict_get "embed_columns_names" (columns sch) = Some "text[]"
    ∧ dict_get "is_active" (columns sch) = Some "boolean"
    ∧ NoDup (dict_keys (columns sch))
    ∧ (∀ c, c ∈ dict_keys (columns sch) → dict_get c (nullables sch) = Some true)
    ∧ (∀ c, c ∈ dict_keys (columns sch)
            ↔ c ∈ pd.columns df ∨ c ∈ synthesized_names mode cols)
    ∧ (mode = "combined" →
         dict_get "embed_columns_value" (columns sch) = Some "text"
         ∧ dict_get "embeddings" (columns sch) = Some (vector_type dim))
    ∧ (mode ≠ "combined" →
         ∀ col, col ∈ cols →
                dict_get (col +:+ "_enc") (columns sch) = Some (vector_type dim)).
Proof.
  intros Hi. rewrite create_table_fresh by done. simpl.
  exists (mkTableSchema (column_types dim df mode cols)
            (dict_comp (λ _, true) (dict_keys (column_types dim df mode cols)))).
  split; [done|]. split; [apply lookup_insert_eq|]. simpl.
  unfold synthesized_names. split_and!.
  - intros c Hin Hnot. rewrite column_types_lookup.
    destruct (decide (c = "is_active")) as [->|]; [set_solver|].
    case_bool_decide.
    + repeat (case_decide; [set_solver|]). done.
    + case_decide; [set_solver|]. case_decide; [set_solver|]. by case_decide.
  - rewrite column_types_lookup. simpl. case_bool_decide; [done|].
    case_decide as Hin; [|done].
    apply list_elem_of_fmap in Hin as (col & Heq & _).
    by destruct (enc_name_not_names col).
  - by rewrite column_types_lookup.
  - apply column_types_NoDup.
  - intros c Hin. rewrite dict_get_comp_const. by rewrite decide_True.
  - intros c. rewrite column_types_keys. case_bool_decide; set_solver.
  - intros Hmode. by rewrite !column_types_lookup, bool_decide_eq_true_2.
  - intros Hmode col Hin. rewrite column_types_lookup.
    destruct (decide (_ = "is_active")) as [Heq|_].
    { exfalso. revert Heq. clear.
      intros H. do 9 (destruct col as [|? col]; simplify_eq/=). by destruct col. }
    rewrite bool_decide_eq_false_2 by done.
    rewrite decide_True; [done|]. apply list_elem_of_fmap. by exists col.
Qed.

(* ===================================================================== *)
(** ** Facts about frames *)
(* ===================================================================== *)

Lemma reindex_lookup cols (r : pd.Series) c :
  pd.reindex cols r !! c = if decide (c ∈ cols) then Some (pd.cell r c) else None.
Proof.
  unfold pd.reindex. induction cols as [|c0 cols IH].
  - done.
  - rewrite fmap_cons, list_to_map_cons. cbn [fst snd].
    destruct (decide (c0 = c)) as [->|Hne].
    + rewrite lookup_insert_eq. rewrite decide_True; [done|set_solver].
    + rewrite lookup_insert_ne by done. rewrite IH.
      repeat case_decide; try done; set_solver.
Qed.

Lemma reindex_cell cols (r : pd.Series) c :
  c ∈ cols → pd.cell (pd.reindex cols r) c = pd.cell r c.
Proof.
  intros Hin. unfold pd.cell at 1. rewrite reindex_lookup. by rewrite decide_True.
Qed.

Lemma range_index_snd (rs : list (Z * pd.Series)) : (pd.range_index rs).*2 = rs.*2.
Proof.
  unfold pd.range_index. rewrite fmap_imap.
  change (λ n : nat, snd ∘ (λ lr : Z * pd.Series, (Z.of_nat n, lr.2)))
    with (λ _ : nat, @snd Z pd.Series).
  apply imap_const.
Qed.

Lemma range_index_length (rs : list (Z * pd.Series)) :
  length (pd.range_index rs) = length rs.
Proof. apply length_imap. Qed.

Lemma concat_columns a b c :
  c ∈ pd.columns (pd.concat a b) ↔ c ∈ pd.columns a ∨ c ∈ pd.columns b.
Proof.
  simpl. rewrite elem_of_app, list_elem_of_filter.
  destruct (decide (c ∈ pd.columns a)); naive_solver.
Qed.

Lemma concat_len a b : pd.len (pd.concat a b) = (pd.len a + pd.len b)%nat.
Proof.
  unfold pd.len. simpl. by rewrite range_index_length, length_fmap, length_app.
Qed.

Lemma column_alt df c : pd.column df c = (λ r, pd.cell r c) <$> (pd.rows df).*2.
Proof. unfold pd.column. by rewrite <-list_fmap_compose. Qed.

(** The cells of a column that one of the two frames has: those of the
    first frame's rows, then those of the second's. *)
Lemma concat_column a b c :
  c ∈ pd.columns a ∨ c ∈ pd.columns b →
  pd.column (pd.concat a b) c = pd.column a c ++ pd.column b c.
Proof.
  intros Hc. apply concat_columns in Hc.
  rewrite column_alt. unfold pd.column.
  cbn [pd.concat pd.rows pd.columns] in *. rewrite range_index_snd.
  rewrite <-!list_fmap_compose, fmap_app.
  f_equal; apply list_fmap_ext; intros i [l r] _; simpl; by apply reindex_cell.
Qed.

(** [np.array] succeeds exactly on a non-empty list of vectors of one
    length, and returns their float32 conversions in order. *)
Lemma mapM_vectors_inv (n : nat) cells x :
  mapM (λ c, match c with
             | VVec w => if bool_decide (length w = n)
                         then Some (np.astype_float32 w) else None
             | _ => None
             end) cells = Some x →
  ∃ embs, cells = VVec <$> embs ∧ x = np.astype_float32 <$> embs.
Proof.
  intros H%mapM_Some_1.
  induction H as [|c y cells x Hc _ (embs & -> & ->)]; [by exists []|].
  destruct c as [| | | |w]; try done. case_bool_decide; [|done].
  injection Hc as <-. by exists (w :: embs).
Qed.

Lemma np_array_Some cells x :
  np.array cells = Some x →
  ∃ embs, cells = VVec <$> embs ∧ embs ≠ [] ∧ x = np.astype_float32 <$> embs.
Proof.
  unfold np.array. destruct cells as [|[| | | |v] cells]; try done.
  intros (embs & Heq & ->)%mapM_vectors_inv.
  exists embs. split_and!; [done| |done]. by intros ->.
Qed.

Lemma np_array_vectors (embs : list (list Z)) (n : nat) :
  embs ≠ [] → Forall (λ v, length v = n) embs →
  np.array (VVec <$> embs) = Some (np.astype_float32 <$> embs).
Proof.
  intros Hne Hall.
  assert (∀ m l, m = n → Forall (λ v, length v = n) l →
            mapM (λ c, match c with
                       | VVec w => if bool_decide (length w = m)
                                   then Some (np.astype_float32 w) else None
                       | _ => None
                       end) (VVec <$> l) = Some (np.astype_float32 <$> l)) as Hgen.
  { intros m l -> Hl. induction Hl as [|w l Hw Hl IH]; [done|].
    rewrite !fmap_cons. cbn [mapM]. rewrite bool_decide_eq_true_2 by done.
    simpl. by rewrite IH. }
  destruct embs as [|v embs]; [done|].
  unfold np.array. rewrite fmap_cons. rewrite <-fmap_cons.
  apply Hgen; [|done]. by inversion Hall.
Qed.

Lemma astype_float32_length v : length (np.astype_float32 v) = length v.
Proof. apply length_fmap. Qed.

Lemma faiss_add_Some index x :
  Forall (λ v, length v = faiss.d index) x →
  faiss.add index x = Some (faiss.mk (faiss.d index) (faiss.xb index ++ x)).
Proof.
  intros Hall. unfold faiss.add.
  replace (forallb _ x) with true; [done|]. symmetry.
  apply forallb_forall. intros v Hin. apply bool_decide_eq_true_2.
  rewrite Forall_forall in Hall. by apply Hall, list_elem_of_In.
Qed.

Lemma faiss_add_float32 index (embs : list (list Z)) :
  Forall (λ v, length v = faiss.d index) embs →
  faiss.add index (np.astype_float32 <$> embs)
  = Some (faiss.mk (faiss.d index)
            (faiss.xb index ++ (np.astype_float32 <$> embs))).
Proof.
  intros Hall. apply faiss_add_Some, Forall_fmap.
  eapply Forall_impl; [done|]. intros v Hv. cbn.
  by rewrite astype_float32_length.
Qed.

Lemma forallb_columns_true (pks cols : list string) :
  (∀ col, col ∈ pks → col ∈ cols) →
  forallb (λ col, bool_decide (col ∈ cols)) pks = true.
Proof.
  intros H. apply forallb_forall. intros col Hin.
  by apply bool_decide_eq_true_2, H, list_elem_of_In.
Qed.

(** The vectors that the rows carry in a column of vectors. *)
Lemma omap_embedding_of df c embs :
  pd.column df c = VVec <$> embs →
  omap (embedding_of c) (pd.rows df).*2 = embs.
Proof.
  rewrite column_alt. generalize ((pd.rows df).*2) as rs.
  intros rs. revert embs. induction rs as [|r rs IH]; intros [|v embs] H;
    try done.
  rewrite !fmap_cons in H. injection H as Hr Hrs.
  cbn [omap list_omap]. unfold embedding_of at 1. rewrite Hr.
  f_equal. by apply IH.
Qed.

(* ===================================================================== *)
(** ** collection.add *)
(* ===================================================================== *)

Lemma filter_all {A} (P : A → Prop) `{∀ x, Decision (P x)} (l : list A) :
  (∀ x, x ∈ l → P x) → filter P l = l.
Proof.
  induction l as [|x l IH]; intros Hall; [done|].
  rewrite filter_cons_True by (apply Hall; left).
  f_equal. apply IH. intros y Hy. apply Hall. by right.
Qed.

Lemma filter_none {A} (P : A → Prop) `{∀ x, Decision (P x)} (l : list A) :
  (∀ x, x ∈ l → ¬ P x) → filter P l = [].
Proof.
  induction l as [|x l IH]; intros Hall; [done|].
  rewrite filter_cons_False by (apply Hall; left).
  apply IH. intros y Hy. apply Hall. by right.
Qed.

Lemma chromadb_vectors_Some (vs : list (list Z)) :
  chromadb.vectors (VVec <$> vs) = Some vs.
Proof. unfold chromadb.vectors. by apply mapM_fmap_Some. Qed.

(** The checks of [add] pass on a non-empty batch of distinct ids, string
    documents and non-empty vectors of the dimension of the collection. *)
Lemma chromadb_valid_batch c (vs : list (list Z)) (strs : list string)
    new_ids n :
  vs ≠ [] → length new_ids = length vs → length strs = length vs →
  NoDup new_ids → n ≠ 0%nat → Forall (λ v, length v = n) vs →
  chromadb.dimension c = None ∨ chromadb.dimension c = Some n →
  chromadb.valid_batch c vs (VStr <$> strs) new_ids = true.
Proof.
  intros Hne Hids Hstrs Hnd Hn Hall Hdim. unfold chromadb.valid_batch.
  rewrite !bool_decide_eq_true_2; [|done|by rewrite length_fmap|done].
  cbn [andb].
  replace (forallb _ (VStr <$> strs)) with true; last first.
  { symmetry. apply forallb_forall. intros doc Hin.
    apply list_elem_of_In, list_elem_of_fmap in Hin as (? & -> & _). done. }
  cbn [andb]. destruct vs as [|v vs]; [done|].
  apply Forall_cons in Hall as Hv. destruct Hv as [Hv _].
  rewrite bool_decide_eq_true_2 by congruence. cbn [andb].
  replace (forallb _ (v :: vs)) with true; last first.
  { symmetry. apply forallb_forall. intros w Hin.
    apply bool_decide_eq_true_2. rewrite Forall_forall in Hall.
    rewrite Hv. by apply Hall, list_elem_of_In. }
  cbn [andb]. destruct Hdim as [-> | ->]; [done|].
  by apply bool_decide_eq_true_2.
Qed.

(** [add] of records none of whose ids the collection holds: all are
    appended, in order. *)
Lemma chromadb_add_fresh c (vs : list (list Z)) (strs : list string)
    new_ids n :
  vs ≠ [] → length new_ids = length vs → length strs = length vs →
  NoDup new_ids → n ≠ 0%nat → Forall (λ v, length v = n) vs →
  chromadb.dimension c = None ∨ chromadb.dimension c = Some n →
  (∀ i, i ∈ new_ids → i ∉ chromadb.ids c) →
  chromadb.add c (VVec <$> vs) (VStr <$> strs) new_ids
  = Some (chromadb.mk (chromadb.name c) (chromadb.ids c ++ new_ids)
            (chromadb.embeddings c ++ (np.astype_float32 <$> vs))
            (chromadb.documents c ++ (VStr <$> strs))).
Proof.
  intros Hne Hids Hstrs Hnd Hn Hall Hdim Hfresh. unfold chromadb.add.
  rewrite chromadb_vectors_Some, (chromadb_valid_batch _ _ _ _ n) by done.
  rewrite filter_all.
  - rewrite (fst_zip (zip new_ids vs)), (snd_zip (zip new_ids vs)),
      (fst_zip new_ids), (snd_zip new_ids);
      rewrite ?length_zip, ?length_fmap; [done|lia..].
  - intros [[i v] doc] Hin. cbn. apply Hfresh.
    apply elem_of_zip_l, elem_of_zip_l in Hin. done.
Qed.

(** [add] of records all of whose ids the collection holds, the checks
    passing: the collection is left as it is. *)
Lemma chromadb_add_held c (vs : list (list Z)) (strs : list string)
    new_ids n :
  vs ≠ [] → length new_ids = length vs → length strs = length vs →
  NoDup new_ids → n ≠ 0%nat → Forall (λ v, length v = n) vs →
  chromadb.dimension c = None ∨ chromadb.dimension c = Some n →
  (∀ i, i ∈ new_ids → i ∈ chromadb.ids c) →
  chromadb.add c (VVec <$> vs) (VStr <$> strs) new_ids = Some c.
Proof.
  intros Hne Hids Hstrs Hnd Hn Hall Hdim Hheld. unfold chromadb.add.
  rewrite chromadb_vectors_Some, (chromadb_valid_batch _ _ _ _ n) by done.
  rewrite filter_none.
  - cbn. rewrite !app_nil_r. by destruct c.
  - intros [[i v] doc] Hin. cbn. intros Hnot. apply Hnot, Hheld.
    apply elem_of_zip_l, elem_of_zip_l in Hin. done.
Qed.

Lemma documents_of_length df :
  length (ChromaVectorStore.documents_of df) = pd.len df.
Proof.
  unfold ChromaVectorStore.documents_of. case_bool_decide.
  - apply length_fmap.
  - apply length_replicate.
Qed.

(* ===================================================================== *)
(** ** insert_data and the backend index *)
(* ===================================================================== *)

(** C2 (amended).  [insert_data] on an existing table, with every declared
    key column present in the batch, appends the batch to the stored rows.
    When the batch has no column [embeddings] (the vectors of separated mode
    are in columns [<col>_enc]), the backend index is left as it was.  When
    it has one (combined mode), the call hands that column to the backend
    index, in the order of the batch.  faiss: the batch being non-empty with
    one vector of the index dimension per row, the index is extended by the
    float32 conversions of exactly these vectors, so that an index aligned
    with the stored rows stays aligned.  Chroma: the batch being non-empty
    with one non-empty vector of the dimension of the collection per row,
    string documents, distinct index labels and no label that is an id of
    the collection already, the collection is extended by one record per
    row, with the label as id. *)
Theorem insert_data_indexes_embeddings_column (t : string) (df : pd.DataFrame)
    (pks : list string) :
  (∀ col, col ∈ pks → col ∈ pd.columns df) →
  (∀ (s : FaissVectorStore.Store) old index,
     data s !! t = Some old → indexes s !! t = Some index →
     ("embeddings" ∉ pd.columns df →
        FaissVectorStore.insert_data s t df pks
        = (set_data s t (pd.concat old df), Return ()))
     ∧ (∀ embs,
          "embeddings" ∈ pd.columns df →
          pd.column df "embeddings" = VVec <$> embs → embs ≠ [] →
          Forall (λ v, length v = faiss.d index) embs →
          let index' :=
            faiss.mk (faiss.d index)
              (faiss.xb index ++ (np.astype_float32 <$> embs)) in
          FaissVectorStore.insert_data s t df pks
          = (set_index (set_data s t (pd.concat old df)) t index', Return ())
          ∧ batch_indexed "embeddings" index index' df
          ∧ (aligned index old → aligned index' (pd.concat old df))))
  ∧ (∀ (s : ChromaVectorStore.Store) old collection,
     data s !! t = Some old → indexes s !! t = Some collection →
     ("embeddings" ∉ pd.columns df →
        ChromaVectorStore.insert_data s t df pks
        = (set_data s t (pd.concat old df), Return ()))
     ∧ (∀ embs docs n,
          "embeddings" ∈ pd.columns df →
          pd.column df "embeddings" = VVec <$> embs → embs ≠ [] →
          n ≠ 0%nat → Forall (λ v, length v = n) embs →
          chromadb.dimension collection = None
          ∨ chromadb.dimension collection = Some n →
          ChromaVectorStore.documents_of df = VStr <$> docs →
          NoDup (pd.index df) →
          (∀ l, l ∈ pd.index df → pretty l ∉ chromadb.ids collection) →
          ChromaVectorStore.insert_data s t df pks
          = (set_index (set_data s t (pd.concat old df)) t
               (chromadb.mk (chromadb.name collection)
                  (chromadb.ids collection ++ (pretty <$> pd.index df))
                  (chromadb.embeddings collection
                   ++ (np.astype_float32 <$> embs))
                  (chromadb.documents collection
                   ++ ChromaVectorStore.documents_of df)),
             Return ()))).
Proof.
  intros Hpk. pose proof (forallb_columns_true _ _ Hpk) as Hall. split.
  - intros s old index Hd Hi. unfold FaissVectorStore.insert_data.
    rewrite Hd, Hall. cbn [negb]. split.
    + intros Hno. by rewrite bool_decide_eq_false_2.
    + intros embs Hcol Hvec Hne Hdim.
      rewrite bool_decide_eq_true_2 by done.
      rewrite Hvec, (np_array_vectors _ _ Hne Hdim). cbn [set_data indexes].
      rewrite Hi, (faiss_add_float32 _ _ Hdim). split_and!; [done| |].
      * unfold batch_indexed. cbn [faiss.xb].
        by rewrite (omap_embedding_of _ _ _ Hvec).
      * unfold aligned. intros (olds & Hold & Hxb).
        exists (olds ++ embs). rewrite concat_column by (by right).
        cbn [faiss.xb]. by rewrite !fmap_app, Hold, Hvec, Hxb.
  - intros s old collection Hd Hi. unfold ChromaVectorStore.insert_data.
    rewrite Hi, Hall, Hd. cbn [negb]. split.
    + intros Hno. by rewrite bool_decide_eq_false_2.
    + intros embs docs n Hcol Hvec Hne Hn Hdim Hcdim Hdocs Hnd Hfresh.
      rewrite bool_decide_eq_true_2 by done.
      assert (length embs = pd.len df) as Hlen.
      { rewrite <-(length_fmap VVec embs), <-Hvec. apply length_fmap. }
      assert (length docs = pd.len df) as Hdlen.
      { rewrite <-(length_fmap VStr docs), <-Hdocs. apply documents_of_length. }
      rewrite Hvec, Hdocs.
      rewrite (chromadb_add_fresh collection embs docs _ n); try done.
      * rewrite length_fmap. unfold pd.index. rewrite length_fmap.
        by rewrite Hlen.
      * congruence.
      * by apply (NoDup_fmap_2 _).
      * intros i Hin. apply list_elem_of_fmap in Hin as (l & -> & Hl).
        by apply Hfresh.
Qed.

(* ===================================================================== *)
(** ** search on the flat index *)
(* ===================================================================== *)

Lemma Forall_insert_hit (P : Z * Z → Prop) h l :
  Forall P (faiss.insert_hit h l) ↔ P h ∧ Forall P l.
Proof.
  induction l as [|h' l IH]; simpl.
  - rewrite !Forall_cons, Forall_nil. tauto.
  - case_bool_decide; rewrite !Forall_cons; [tauto|]. rewrite IH. tauto.
Qed.

Lemma Forall_sort_hits (P : Z * Z → Prop) l :
  Forall P (faiss.sort_hits l) ↔ Forall P l.
Proof.
  unfold faiss.sort_hits. induction l as [|h l IH]; simpl; [done|].
  by rewrite Forall_insert_hit, Forall_cons, IH.
Qed.

Lemma insert_hit_length h l : length (faiss.insert_hit h l) = S (length l).
Proof.
  induction l as [|h' l IH]; simpl; [done|]. case_bool_decide; simpl; by rewrite ?IH.
Qed.

Lemma sort_hits_length l : length (faiss.sort_hits l) = length l.
Proof.
  unfold faiss.sort_hits. induction l as [|h l IH]; simpl; [done|].
  by rewrite insert_hit_length, IH.
Qed.

Lemma insert_hit_sorted h l :
  StronglySorted by_distance l → StronglySorted by_distance (faiss.insert_hit h l).
Proof.
  induction 1 as [|h' l Hs IH Hall]; simpl.
  - repeat constructor.
  - case_bool_decide as Hle.
    + constructor; [by constructor|]. constructor; [done|].
      eapply Forall_impl; [exact Hall|]. unfold by_distance. intros; lia.
    + constructor; [done|]. apply Forall_insert_hit. split; [|done].
      unfold by_distance. lia.
Qed.

Lemma sort_hits_sorted l : StronglySorted by_distance (faiss.sort_hits l).
Proof.
  unfold faiss.sort_hits. induction l as [|h l IH]; simpl; [constructor|].
  by apply insert_hit_sorted.
Qed.

Lemma StronglySorted_take {A} (R : A → A → Prop) n l :
  StronglySorted R l → StronglySorted R (take n l).
Proof.
  intros Hs. revert n. induction Hs as [|x l Hs IH Hall]; intros [|n]; simpl;
    try constructor; [apply IH|].
  apply Forall_take. done.
Qed.

Lemma insert_hit_perm h l : faiss.insert_hit h l ≡ₚ h :: l.
Proof.
  induction l as [|h' l IH]; simpl; [done|].
  case_bool_decide; [done|]. rewrite IH. apply Permutation_swap.
Qed.

Lemma sort_hits_perm l : faiss.sort_hits l ≡ₚ l.
Proof.
  unfold faiss.sort_hits. induction l as [|h l IH]; simpl; [done|].
  by rewrite insert_hit_perm, IH.
Qed.

(** A hit comes from a stored vector, carries its position as label, and a
    distance below [FLT_MAX]. *)
Lemma elem_of_hits index q h :
  h ∈ faiss.hits index q
  ↔ ∃ i v, faiss.xb index !! i = Some v ∧ faiss.hit q i v = Some h.
Proof.
  unfold faiss.hits. rewrite list_elem_of_omap. split.
  - intros (o & Ho & Hh). apply list_elem_of_lookup in Ho as [i Hi].
    rewrite list_lookup_imap in Hi.
    destruct (faiss.xb index !! i) as [v|] eqn:Hv; [|done].
    injection Hi as <-. by exists i, v.
  - intros (i & v & Hv & Hh). exists (Some h). split; [|done].
    apply list_elem_of_lookup. exists i. by rewrite list_lookup_imap, Hv, <-Hh.
Qed.

Lemma hit_Some q i v h :
  faiss.hit q i v = Some h →
  faiss.l2 q v = np.finite h.1 ∧ h.1 < faiss.FLT_MAX ∧ h.2 = Z.of_nat i.
Proof.
  unfold faiss.hit. destruct (faiss.l2 q v) as [dis| |]; try done.
  case_bool_decide; [|done]. by intros [= <-].
Qed.

Lemma hits_length index q : (length (faiss.hits index q) ≤ faiss.ntotal index)%nat.
Proof.
  unfold faiss.hits, faiss.ntotal. rewrite <-(length_imap (faiss.hit q)).
  generalize (imap (faiss.hit q) (faiss.xb index)) as l.
  induction l as [|[h|] l IH]; cbn in *; lia.
Qed.

(** When every stored vector makes a hit, there are as many hits as
    vectors. *)
Lemma hits_length_all index q :
  (∀ i v, faiss.xb index !! i = Some v → is_Some (faiss.hit q i v)) →
  length (faiss.hits index q) = faiss.ntotal index.
Proof.
  unfold faiss.hits, faiss.ntotal. intros Hall.
  rewrite <-(length_imap (faiss.hit q) (faiss.xb index)).
  assert (Forall is_Some (imap (faiss.hit q) (faiss.xb index))) as HF.
  { apply Forall_lookup. intros i o Hi. rewrite list_lookup_imap in Hi.
    destruct (faiss.xb index !! i) as [v|] eqn:Hv; [|done].
    injection Hi as <-. by eapply Hall. }
  induction HF as [|o l [h ->] _ IH]; cbn in *; [done|]. by rewrite IH.
Qed.

(** What [index.search] returns: [k] entries, the hits nearest first, then
    the padding. *)
Lemma faiss_search_Some index q k :
  0 < k → length q = faiss.d index →
  ∃ hits,
    faiss.search index q k
    = Some (hits ++ replicate (Z.to_nat k - length hits) (faiss.FLT_MAX, -1))
    ∧ length hits = Nat.min (Z.to_nat k) (length (faiss.hits index q))
    ∧ StronglySorted by_distance hits
    ∧ Forall (λ h, 0 ≤ h.2 < Z.of_nat (faiss.ntotal index)) hits
    ∧ hits = take (Z.to_nat k) (faiss.sort_hits (faiss.hits index q)).
Proof.
  intros Hk Hq. unfold faiss.search.
  rewrite !bool_decide_eq_true_2 by done. cbn [andb].
  set (all := faiss.sort_hits _).
  assert (length all = length (faiss.hits index q)) as Hlen.
  { unfold all. by rewrite sort_hits_length. }
  exists (take (Z.to_nat k) all). split_and!.
  - do 2 f_equal. rewrite length_take. f_equal. lia.
  - by rewrite length_take, Hlen.
  - apply StronglySorted_take, sort_hits_sorted.
  - apply Forall_take. unfold all. apply Forall_sort_hits.
    apply Forall_forall. intros h (i & v & Hv & Hh)%elem_of_hits.
    apply hit_Some in Hh as (_ & _ & ->). apply lookup_lt_Some in Hv.
    unfold faiss.ntotal. lia.
  - done.
Qed.

Lemma iloc_is_Some df i :
  - Z.of_nat (pd.len df) ≤ i < Z.of_nat (pd.len df) → is_Some (pd.iloc df i).
Proof.
  intros Hi. unfold pd.iloc. cbn zeta.
  case_bool_decide as H1; [|rewrite bool_decide_eq_true_2 by lia];
    apply fmap_is_Some, lookup_lt_is_Some; unfold pd.len in *; lia.
Qed.

Lemma iloc_last df l (r : pd.Series) rows' :
  pd.rows df = rows' ++ [(l, r)] → pd.iloc df (-1) = Some r.
Proof.
  intros Hrows. unfold pd.iloc, pd.len. rewrite Hrows, length_app.
  cbn [length]. cbn zeta.
  rewrite bool_decide_eq_false_2 by lia. rewrite bool_decide_eq_true_2 by lia.
  replace (Z.to_nat _) with (length rows') by lia.
  by rewrite list_lookup_middle.
Qed.

(** The result loop keeps every hit whose label is below [len(df)]. *)
Lemma collect_valid df hits :
  Forall (λ h, - Z.of_nat (pd.len df) ≤ h.2 < Z.of_nat (pd.len df)) hits →
  FaissVectorStore.collect df hits = Return (row_of df <$> hits).
Proof.
  induction 1 as [|[dist idx] hits Hh Hall IH]; [done|]. simpl in Hh.
  cbn [FaissVectorStore.collect]. rewrite bool_decide_eq_true_2 by lia.
  destruct (iloc_is_Some df idx Hh) as [row Hrow].
  rewrite IH. unfold row_of at 2. simpl. by rewrite Hrow.
Qed.

(** On a table whose frame has at least as many rows as its index has
    vectors, and at least one, [search] returns [top_k] rows whatever the
    number of indexed vectors: the hits on stored vectors, nearest first,
    followed for each padding entry by a copy of the last row of the frame
    with distance [FLT_MAX]. *)
Lemma search_returns_top_k_rows (s : FaissVectorStore.Store) t index df q top_k :
  indexes s !! t = Some index → data s !! t = Some df →
  (faiss.ntotal index ≤ pd.len df)%nat → (0 < pd.len df)%nat →
  0 < top_k → length q = faiss.d index →
  ∃ hits,
    FaissVectorStore.search s t q top_k
    = Return ((row_of df <$> hits)
              ++ replicate (Z.to_nat top_k - length hits)
                   (row_of df (faiss.FLT_MAX, -1)))
    ∧ length hits
      = Nat.min (Z.to_nat top_k)
          (length (faiss.hits index (np.astype_float32 q)))
    ∧ StronglySorted by_distance hits
    ∧ Forall (λ h, 0 ≤ h.2 < Z.of_nat (faiss.ntotal index)) hits
    ∧ hits = take (Z.to_nat top_k)
               (faiss.sort_hits (faiss.hits index (np.astype_float32 q))).
Proof.
  intros Hi Hd Hn Hpos Hk Hq.
  destruct (faiss_search_Some index (np.astype_float32 q) top_k Hk)
    as (hits & Hs & Hlen & Hsort & Hlab & Htake).
  { by rewrite astype_float32_length. }
  exists hits. split_and!; try done.
  unfold FaissVectorStore.search. rewrite Hi. cbn zeta. rewrite Hs, Hd.
  assert (FaissVectorStore.collect df
            (hits ++ replicate (Z.to_nat top_k - length hits) (faiss.FLT_MAX, -1))
          = Return ((row_of df <$> hits)
              ++ replicate (Z.to_nat top_k - length hits)
                   (row_of df (faiss.FLT_MAX, -1)))) as Hc.
  { rewrite collect_valid; [by rewrite fmap_app, fmap_replicate|].
    apply Forall_app. split.
    - eapply Forall_impl; [exact Hlab|]. simpl. intros; lia.
    - apply Forall_replicate. simpl. lia. }
  rewrite <-Hc. by destruct (hits ++ _).
Qed.

Lemma search_returns_top_k_rows_length (s : FaissVectorStore.Store) t index df q top_k results :
  indexes s !! t = Some index → data s !! t = Some df →
  (faiss.ntotal index ≤ pd.len df)%nat → (0 < pd.len df)%nat →
  0 < top_k → length q = faiss.d index →
  FaissVectorStore.search s t q top_k = Return results →
  length results = Z.to_nat top_k.
Proof.
  intros Hi Hd Hn Hpos Hk Hq Hr.
  destruct (search_returns_top_k_rows s t index df q top_k) as (hits & Hs & Hlen & _);
    try done.
  rewrite Hs in Hr. injection Hr as <-.
  rewrite length_app, length_fmap, length_replicate, Hlen. lia.
Qed.

Lemma row_of_distance df h : pd.cell (row_of df h) "distance" = VNum h.1.
Proof. unfold row_of, pd.cell. by rewrite lookup_insert_eq. Qed.

(** With [top_k] at most the number of hits there is no padding: [search]
    returns exactly [top_k] rows, each a stored row at the position of its
    hit, in order of non-decreasing distance. *)
Lemma search_within_indexed_rows (s : FaissVectorStore.Store) t index df q top_k :
  indexes s !! t = Some index → data s !! t = Some df →
  (faiss.ntotal index ≤ pd.len df)%nat →
  0 < top_k ≤ Z.of_nat (length (faiss.hits index (np.astype_float32 q))) →
  length q = faiss.d index →
  ∃ hits,
    FaissVectorStore.search s t q top_k = Return (row_of df <$> hits)
    ∧ length hits = Z.to_nat top_k
    ∧ StronglySorted by_distance hits
    ∧ Forall (λ h, 0 ≤ h.2 < Z.of_nat (faiss.ntotal index)) hits
    ∧ hits = take (Z.to_nat top_k)
               (faiss.sort_hits (faiss.hits index (np.astype_float32 q))).
Proof.
  intros Hi Hd Hn Hk Hq.
  pose proof (hits_length index (np.astype_float32 q)) as Hle.
  destruct (search_returns_top_k_rows s t index df q top_k)
    as (hits & Hs & Hlen & Hsort & Hlab & Htake); try done; try lia.
  exists hits. split_and!; try done; [|lia].
  rewrite Hs. replace (Z.to_nat top_k - length hits)%nat with 0%nat by lia.
  by rewrite app_nil_r.
Qed.

(* ===================================================================== *)
(** ** float32 on small integers *)
(* ===================================================================== *)

(** On the sample integers, [np.round] is the conversion to binary32 of
    the Standard Library. *)
Lemma round_binary32_samples :
  Forall (λ z, binary32_value (binary_normalize 24 128 z 0 false) = np.round z)
         round_samples.
Proof.
  match goal with |- ?P => apply (bool_decide_unpack P) end.
  vm_compute. exact I.
Qed.

(** An integer below [2^24] in magnitude is a float32. *)
Lemma round_small z : Z.abs z < 2 ^ 24 → np.round z = np.finite z.
Proof.
  intros Hz. unfold np.round. cbn zeta.
  rewrite bool_decide_eq_true_2; [done|].
  destruct (decide (Z.abs z = 0)) as [->|Hne]; [done|].
  assert (Z.log2 (Z.abs z) < 24); [|lia].
  apply Z.log2_lt_pow2; lia.
Qed.

Lemma astype_float32_bounded B v :
  B < 2 ^ 24 → bounded B v → np.astype_float32 v = np.finite <$> v.
Proof.
  intros HB Hv. unfold np.astype_float32. apply list_fmap_ext.
  intros i x Hx. apply round_small.
  eapply Forall_lookup_1 in Hv; [|done]. cbn in Hv. lia.
Qed.

(** On vectors of integers small enough for every intermediate result to
    stay below [2^24], the float32 distance is the exact squared
    distance. *)
Lemma l2_exact B (x y : list Z) :
  bounded B x → bounded B y →
  4 * B * B * Z.of_nat (length x) < 2 ^ 24 →
  faiss.l2 (np.astype_float32 x) (np.astype_float32 y)
  = np.finite (squared_distance x y)
  ∧ 0 ≤ squared_distance x y < 2 ^ 24.
Proof.
  intros Hx Hy Hsum. unfold faiss.l2, squared_distance.
  assert (∀ acc, 0 ≤ acc → acc + 4 * B * B * Z.of_nat (length x) < 2 ^ 24 →
            foldl (λ res tmp, np.add res (np.mul tmp tmp)) (np.finite acc)
              (zip_with np.sub (np.astype_float32 x) (np.astype_float32 y))
            = np.finite (foldl (λ res tmp, res + tmp * tmp) acc
                           (zip_with Z.sub x y))
            ∧ 0 ≤ foldl (λ res tmp, res + tmp * tmp) acc (zip_with Z.sub x y)
              < 2 ^ 24) as Hgen; [|by apply Hgen].
  clear Hsum. revert y Hy.
  induction Hx as [|a x Ha Hx IH]; intros y Hy acc Hacc Hsum.
  { cbn. split; [done|]. cbn in Hsum. lia. }
  destruct Hy as [|b y Hb Hy]; [cbn; split; [done|cbn in Hsum; nia]|].
  cbn [length] in Hsum. cbn in Ha, Hb.
  assert (0 ≤ B) by lia.
  assert (B * B < 2 ^ 22) as HBB by nia.
  assert (B < 2 ^ 12) as HB12 by nia.
  assert ((a - b) * (a - b) ≤ 4 * B * B) as Hsq by nia.
  assert (0 ≤ (a - b) * (a - b)) as Hsq0 by apply Z.square_nonneg.
  unfold np.astype_float32. rewrite !fmap_cons. cbn [zip_with foldl].
  rewrite (round_small a), (round_small b) by lia. cbn [np.sub].
  rewrite (round_small (a - b)) by lia. cbn [np.mul].
  rewrite (round_small ((a - b) * (a - b))) by lia. cbn [np.add].
  rewrite (round_small (acc + (a - b) * (a - b))) by lia.
  apply (IH y Hy); nia.
Qed.

(** Such a vector makes a hit, at its exact distance. *)
Lemma hit_exact B (q v : list Z) i :
  bounded B q → bounded B v →
  4 * B * B * Z.of_nat (length q) < 2 ^ 24 →
  faiss.hit (np.astype_float32 q) i (np.astype_float32 v)
  = Some (squared_distance q v, Z.of_nat i).
Proof.
  intros Hq Hv Hsum. unfold faiss.hit.
  destruct (l2_exact B q v Hq Hv Hsum) as [-> Hrange].
  rewrite bool_decide_eq_true_2; [done|]. unfold faiss.FLT_MAX. lia.
Qed.

(* ===================================================================== *)
(** ** The registries stay in step *)
(* ===================================================================== *)

Lemma set_data_wf {I} (s : Store I) t df :
  is_Some (data s !! t) → store_wf s → store_wf (set_data s t df).
Proof.
  intros Hd Hwf t'. simpl. destruct (decide (t = t')) as [<-|Hne].
  - rewrite lookup_insert_eq. destruct (Hwf t) as [H1 H2]. split; split; eauto.
    + intros _. by apply H1.
    + intros _. by apply H2.
  - rewrite lookup_insert_ne by done. apply Hwf.
Qed.

Lemma set_index_wf {I} (s : Store I) t i :
  is_Some (indexes s !! t) → store_wf s → store_wf (set_index s t i).
Proof.
  intros Hi Hwf t'. simpl. destruct (decide (t = t')) as [<-|Hne].
  - rewrite lookup_insert_eq. destruct (Hwf t) as [H1 H2]. split; [|done].
    split; eauto. intros _. by apply H1.
  - rewrite lookup_insert_ne by done. apply Hwf.
Qed.

Lemma set_schema_wf {I} (s : Store I) t sch :
  is_Some (schemas s !! t) → store_wf s → store_wf (set_schema s t sch).
Proof.
  intros Hs Hwf t'. simpl. destruct (decide (t = t')) as [<-|Hne].
  - rewrite lookup_insert_eq. destruct (Hwf t) as [H1 H2]. split; [done|].
    split; eauto. intros _. by apply H2.
  - rewrite lookup_insert_ne by done. apply Hwf.
Qed.

Lemma update_data_wf {I} (s : Store I) t df pks :
  store_wf s → store_wf (update_data s t df pks).1.
Proof.
  intros Hwf. unfold update_data. destruct (data s !! t) eqn:Hd; [|done].
  simpl. apply set_data_wf; eauto.
Qed.

Lemma set_inactive_wf {I} (s : Store I) t pk_values :
  store_wf s → store_wf (set_inactive s t pk_values).1.
Proof.
  intros Hwf. unfold set_inactive.
  destruct (data s !! t) as [df|] eqn:Hd; [|done].
  destruct pk_values; [done|]. destruct (pd.columns df); [done|].
  simpl. apply set_data_wf; eauto.
Qed.

Lemma add_column_wf {I} (s : Store I) t c ty :
  store_wf s → store_wf (add_column s t c ty).1.
Proof.
  intros Hwf. unfold add_column.
  destruct (schemas s !! t) as [sch|] eqn:Hs; [|done].
  assert (store_wf (set_schema s t
            (mkTableSchema (dict_set c ty (columns sch)) (nullables sch)))) as Hwf'
    by (apply set_schema_wf; eauto).
  cbn [set_schema data]. destruct (data s !! t) as [df|] eqn:Hd; [|done].
  simpl. apply (set_data_wf (set_schema s t _)); [|done]. simpl. eauto.
Qed.

Lemma faiss_insert_data_wf (s : FaissVectorStore.Store) t df pks :
  store_wf s → store_wf (FaissVectorStore.insert_data s t df pks).1.
Proof.
  intros Hwf. unfold FaissVectorStore.insert_data.
  destruct (data s !! t) as [old|] eqn:Hd; [|done].
  destruct (negb _); [done|].
  assert (store_wf (set_data s t (pd.concat old df))) as Hwf'
    by (apply set_data_wf; eauto).
  case_bool_decide; [|done].
  destruct (np.array _); [|done]. cbn [set_data indexes].
  destruct (indexes s !! t) as [index|] eqn:Hi; [|done].
  destruct (faiss.add index _); [|done].
  simpl. apply (set_index_wf (set_data s t _)); [|done]. simpl. eauto.
Qed.

Lemma chroma_insert_data_wf (s : ChromaVectorStore.Store) t df pks :
  store_wf s → store_wf (ChromaVectorStore.insert_data s t df pks).1.
Proof.
  intros Hwf. unfold ChromaVectorStore.insert_data.
  destruct (indexes s !! t) as [c|] eqn:Hi; [|done].
  destruct (negb _); [done|].
  destruct (data s !! t) as [old|] eqn:Hd; [|done].
  assert (store_wf (set_data s t (pd.concat old df))) as Hwf'
    by (apply set_data_wf; eauto).
  case_bool_decide; [|done].
  destruct (chromadb.add _ _ _ _); [|done].
  simpl. apply (set_index_wf (set_data s t _)); [|done]. simpl. eauto.
Qed.

(** The same for the weaker agreement that the Chroma adapter keeps. *)
Lemma set_data_registered_stored {I} (s : Store I) t df :
  is_Some (data s !! t) → registered_stored s →
  registered_stored (set_data s t df).
Proof.
  intros Hd Hwf t'. simpl. destruct (decide (t = t')) as [<-|Hne].
  - rewrite lookup_insert_eq. destruct (Hwf t) as [H1 H2]. split; [eauto|].
    split; eauto. intros _. by apply H2.
  - rewrite lookup_insert_ne by done. apply Hwf.
Qed.

Lemma set_index_registered_stored {I} (s : Store I) t i :
  is_Some (data s !! t) → registered_stored s →
  registered_stored (set_index s t i).
Proof.
  intros Hd Hwf t'. simpl. destruct (decide (t = t')) as [<-|Hne].
  - rewrite lookup_insert_eq. destruct (Hwf t) as [H1 H2]. by split.
  - rewrite lookup_insert_ne by done. apply Hwf.
Qed.

Lemma set_schema_registered_stored {I} (s : Store I) t sch :
  is_Some (schemas s !! t) → registered_stored s →
  registered_stored (set_schema s t sch).
Proof.
  intros Hs Hwf t'. simpl. destruct (decide (t = t')) as [<-|Hne].
  - rewrite lookup_insert_eq. destruct (Hwf t) as [H1 H2]. split; [done|].
    split; eauto. intros _. by apply H2.
  - rewrite lookup_insert_ne by done. apply Hwf.
Qed.

Lemma update_data_registered_stored {I} (s : Store I) t df pks :
  registered_stored s → registered_stored (update_data s t df pks).1.
Proof.
  intros Hwf. unfold update_data. destruct (data s !! t) eqn:Hd; [|done].
  simpl. apply set_data_registered_stored; eauto.
Qed.

Lemma set_inactive_registered_stored {I} (s : Store I) t pk_values :
  registered_stored s → registered_stored (set_inactive s t pk_values).1.
Proof.
  intros Hwf. unfold set_inactive.
  destruct (data s !! t) as [df|] eqn:Hd; [|done].
  destruct pk_values; [done|]. destruct (pd.columns df); [done|].
  simpl. apply set_data_registered_stored; eauto.
Qed.

Lemma add_column_registered_stored {I} (s : Store I) t c ty :
  registered_stored s → registered_stored (add_column s t c ty).1.
Proof.
  intros Hwf. unfold add_column.
  destruct (schemas s !! t) as [sch|] eqn:Hs; [|done].
  assert (registered_stored (set_schema s t
            (mkTableSchema (dict_set c ty (columns sch)) (nullables sch))))
    as Hwf' by (apply set_schema_registered_stored; eauto).
  cbn [set_schema data]. destruct (data s !! t) as [df|] eqn:Hd; [|done].
  simpl. apply (set_data_registered_stored (set_schema s t _)); [|done].
  simpl. eauto.
Qed.

Lemma chroma_insert_data_registered_stored (s : ChromaVectorStore.Store) t df pks :
  registered_stored s →
  registered_stored (ChromaVectorStore.insert_data s t df pks).1.
Proof.
  intros Hwf. unfold ChromaVectorStore.insert_data.
  destruct (indexes s !! t) as [c|] eqn:Hi; [|done].
  destruct (negb _); [done|].
  destruct (data s !! t) as [old|] eqn:Hd; [|done].
  assert (registered_stored (set_data s t (pd.concat old df))) as Hwf'
    by (apply set_data_registered_stored; eauto).
  case_bool_decide; [|done].
  destruct (chromadb.add _ _ _ _); [|done].
  simpl. apply (set_index_registered_stored (set_data s t _)); [|done].
  simpl. rewrite lookup_insert_eq. eauto.
Qed.

(* ===================================================================== *)
(** ** update_data with one key column *)
(* ===================================================================== *)

Lemma range_index_fst (rs : list (Z * pd.Series)) :
  (pd.range_index rs).*1 = Z.of_nat <$> seq 0 (length rs).
Proof.
  unfold pd.range_index. rewrite fmap_imap.
  change (λ n : nat, fst ∘ (λ lr : Z * pd.Series, (Z.of_nat n, lr.2)))
    with (λ (n : nat) (_ : Z * pd.Series), Z.of_nat n).
  apply imap_seq_0.
Qed.

Lemma concat_index_NoDup a b : NoDup (pd.index (pd.concat a b)).
Proof.
  unfold pd.index. cbn [pd.concat pd.rows]. rewrite range_index_fst.
  apply NoDup_fmap_2; [apply _|apply NoDup_seq].
Qed.

Lemma NoDup_fst_unique {A B} (l : list (A * B)) x y1 y2 :
  NoDup (l.*1) → (x, y1) ∈ l → (x, y2) ∈ l → y1 = y2.
Proof.
  induction l as [|[x0 y0] l IH]; simpl; intros Hnd H1 H2.
  - by apply elem_of_nil in H1.
  - apply NoDup_cons in Hnd as [Hx0 Hnd].
    apply elem_of_cons in H1 as [H1|H1], H2 as [H2|H2]; simplify_eq; try done.
    + destruct Hx0. apply list_elem_of_fmap. by exists (x0, y2).
    + destruct Hx0. apply list_elem_of_fmap. by exists (x0, y1).
    + by apply IH.
Qed.

Lemma index_where_elem (mask : pd.Series → bool) df lr :
  NoDup (pd.index df) → lr ∈ pd.rows df →
  lr.1 ∈ pd.index_where mask df ↔ mask lr.2 = true.
Proof.
  intros Hnd Hin. unfold pd.index_where, pd.index, pd.select. cbn [pd.rows].
  rewrite list_elem_of_fmap. split.
  - intros ([l r] & Heq & Hf). apply list_elem_of_filter in Hf as [Hm Hin'].
    destruct lr as [l' r']. simpl in *. subst l'.
    by rewrite (NoDup_fst_unique _ l r' r Hnd Hin Hin').
  - intros Hm. exists lr. split; [done|]. by apply list_elem_of_filter.
Qed.

Lemma index_where_nil (mask : pd.Series → bool) df :
  pd.index_where mask df = [] ↔ existsb (λ lr, mask lr.2) (pd.rows df) = false.
Proof.
  unfold pd.index_where, pd.index, pd.select. cbn [pd.rows].
  induction (pd.rows df) as [|lr rows IH]; [done|].
  simpl. destruct (mask lr.2) eqn:Hm.
  - rewrite filter_cons_True by done. done.
  - rewrite filter_cons_False by (by rewrite Hm). done.
Qed.

(** One turn of the row loop blanks the matching rows or appends the input
    row, when the labels of the stored frame are distinct. *)
Lemma update_rows_step pk df_columns lbl row batch existing :
  NoDup (pd.index existing) →
  update_rows pk df_columns ((lbl, row) :: batch) existing
  = update_rows pk df_columns batch
      (blank_or_append pk df_columns existing (lbl, row)).
Proof.
  intros Hnd. cbn [update_rows]. f_equal. unfold blank_or_append. cbn [fst snd].
  fold (matches pk row).
  destruct (pd.index_where (matches pk row) existing) as [|l ls] eqn:Hidx.
  - apply index_where_nil in Hidx. by rewrite Hidx.
  - replace (existsb _ _) with true.
    2:{ symmetry. apply not_false_is_true. intros Hf.
        apply index_where_nil in Hf. by rewrite Hf in Hidx. }
    rewrite <-Hidx. unfold pd.loc_set_rows. f_equal.
    apply list_fmap_ext. intros i lr Hi.
    apply list_elem_of_lookup_2 in Hi.
    pose proof (index_where_elem (matches pk row) existing lr Hnd Hi) as Hiff.
    destruct (matches pk row lr.2).
    + rewrite bool_decide_eq_true_2; [done|]. by apply Hiff.
    + rewrite bool_decide_eq_false_2; [done|]. intros Hin. by apply Hiff in Hin.
Qed.

Lemma blank_or_append_index_NoDup pk df_columns existing lr :
  NoDup (pd.index existing) →
  NoDup (pd.index (blank_or_append pk df_columns existing lr)).
Proof.
  intros Hnd. unfold blank_or_append.
  destruct (existsb _ _); [|apply concat_index_NoDup].
  unfold pd.index in *. cbn [pd.rows]. rewrite <-list_fmap_compose.
  erewrite list_fmap_ext; [exact Hnd|]. intros i x _. simpl. by destruct (matches _ _ _).
Qed.

Lemma update_rows_blank_or_append pk df_columns batch existing :
  NoDup (pd.index existing) →
  update_rows pk df_columns batch existing
  = foldl (blank_or_append pk df_columns) existing batch.
Proof.
  revert existing. induction batch as [|[lbl row] batch IH]; intros existing Hnd;
    [done|].
  rewrite update_rows_step by done. cbn [foldl].
  apply IH. by apply blank_or_append_index_NoDup.
Qed.

(** With one declared key column that both frames have, [update_data] is
    this step for the batch rows, one after the other. *)
Lemma update_data_single_key {I} (s : Store I) t df pk existing :
  data s !! t = Some existing → NoDup (pd.index existing) →
  pk ∈ pd.columns df → pk ∈ pd.columns existing →
  update_data s t df [pk]
  = (set_data s t
       (foldl (blank_or_append pk (pd.columns df)) existing (pd.rows df)),
     Return ()).
Proof.
  intros Hd Hnd Hdf Hex. unfold update_data. rewrite Hd. cbn [update_keys].
  rewrite !bool_decide_eq_false_2 by (intros Hn; by apply Hn). cbn [orb].
  by rewrite update_rows_blank_or_append.
Qed.

(* ===================================================================== *)
(** ** Every stored frame keeps its is_active column *)
(* ===================================================================== *)

Lemma init_flagged {I} : frames_flagged (@init I).
Proof. intros t df H. simpl in H. by rewrite lookup_empty in H. Qed.

Lemma set_data_flagged {I} (s : Store I) t df :
  frames_flagged s → "is_active" ∈ pd.columns df →
  frames_flagged (set_data s t df).
Proof.
  intros Hs Hdf t' df' H. simpl in H.
  destruct (decide (t = t')) as [<-|Hne].
  - rewrite lookup_insert_eq in H. by injection H as <-.
  - rewrite lookup_insert_ne in H by done. by eapply Hs.
Qed.

Lemma create_table_flagged {I} dim (new_index : string → I) s t df pks mode cols :
  frames_flagged s →
  frames_flagged (create_table dim new_index s t df pks mode cols).1.
Proof.
  intros Hs. unfold create_table. case_bool_decide.
  - by destruct (schemas s !! t).
  - cbn [fst]. intros t' df' Hd. cbn [set_index set_data set_schema data] in Hd.
    destruct (decide (t = t')) as [<-|Hne].
    + rewrite lookup_insert_eq in Hd. injection Hd as <-. cbn [pd.empty pd.columns].
      apply column_types_keys. auto.
    + rewrite lookup_insert_ne in Hd by done. by eapply Hs.
Qed.

Lemma update_rows_columns pk df_columns batch existing c :
  c ∈ pd.columns existing →
  c ∈ pd.columns (update_rows pk df_columns batch existing).
Proof.
  revert existing. induction batch as [|[lbl row] batch IH]; intros existing Hc;
    [done|].
  cbn [update_rows]. apply IH.
  destruct (pd.index_where _ existing); [|done].
  apply concat_columns. by left.
Qed.

Lemma update_keys_columns pks df existing c :
  c ∈ pd.columns existing → c ∈ pd.columns (update_keys pks df existing).
Proof.
  revert existing. induction pks as [|pk pks IH]; intros existing Hc; [done|].
  cbn [update_keys]. destruct (_ || _); [by apply IH|].
  by apply IH, update_rows_columns.
Qed.

Lemma update_data_flagged {I} (s : Store I) t df pks :
  frames_flagged s → frames_flagged (update_data s t df pks).1.
Proof.
  intros Hs. unfold update_data. destruct (data s !! t) as [existing|] eqn:Hd;
    [|done].
  apply set_data_flagged; [done|]. apply update_keys_columns. by eapply Hs.
Qed.

Lemma set_inactive_flagged {I} (s : Store I) t pk_values :
  frames_flagged s → frames_flagged (set_inactive s t pk_values).1.
Proof.
  intros Hs. unfold set_inactive. destruct (data s !! t) as [df|] eqn:Hd; [|done].
  destruct pk_values; [done|]. destruct (pd.columns df) eqn:Hcols; [done|].
  apply set_data_flagged; [done|]. cbn [pd.loc_set_cell pd.columns].
  case_bool_decide; [done|]. set_solver.
Qed.

Lemma add_column_flagged {I} (s : Store I) t c ty :
  frames_flagged s → frames_flagged (add_column s t c ty).1.
Proof.
  intros Hs. unfold add_column. destruct (schemas s !! t); [|done].
  cbn [set_schema data]. destruct (data s !! t) as [df|] eqn:Hd; [|done].
  cbn [fst]. apply (set_data_flagged (set_schema s t _)); [done|].
  cbn [pd.set_column_none pd.columns]. pose proof (Hs t df Hd).
  case_bool_decide; set_solver.
Qed.

Lemma faiss_insert_data_flagged (s : FaissVectorStore.Store) t df pks :
  frames_flagged s → frames_flagged (FaissVectorStore.insert_data s t df pks).1.
Proof.
  intros Hs. unfold FaissVectorStore.insert_data.
  destruct (data s !! t) as [old|] eqn:Hd; [|done].
  destruct (negb _); [done|].
  assert (frames_flagged (set_data s t (pd.concat old df))) as Hs'.
  { apply set_data_flagged; [done|]. apply concat_columns. left. by eapply Hs. }
  case_bool_decide; [|done].
  destruct (np.array _); [|done]. cbn [set_data indexes].
  destruct (indexes s !! t) as [index|]; [|done].
  by destruct (faiss.add index _).
Qed.

Lemma chroma_insert_data_flagged (s : ChromaVectorStore.Store) t df pks :
  frames_flagged s → frames_flagged (ChromaVectorStore.insert_data s t df pks).1.
Proof.
  intros Hs. unfold ChromaVectorStore.insert_data.
  destruct (indexes s !! t); [|done]. destruct (negb _); [done|].
  destruct (data s !! t) as [old|] eqn:Hd; [|done].
  assert (frames_flagged (set_data s t (pd.concat old df))) as Hs'.
  { apply set_data_flagged; [done|]. apply concat_columns. left. by eapply Hs. }
  case_bool_decide; [|done]. by destruct (chromadb.add _ _ _ _).
Qed.

Lemma chroma_create_table_flagged dim client (s : ChromaVectorStore.Store) t df
    pks mode cols :
  frames_flagged s →
  frames_flagged (ChromaVectorStore.create_table dim client s t df pks mode cols).1.
Proof.
  intros Hs. destruct (indexes s !! t) as [i|] eqn:Hi.
  - unfold ChromaVectorStore.create_table.
    rewrite bool_decide_eq_true_2 by (by apply elem_of_dom).
    by destruct (schemas s !! t).
  - destruct (chroma_create_table_stores dim client s t df pks mode cols Hi)
      as (Hd & _ & _).
    intros t' df' Hd'. rewrite Hd in Hd'. cbn [chroma_prepared data] in Hd'.
    destruct (decide (t = t')) as [<-|Hne].
    + rewrite lookup_insert_eq in Hd'. injection Hd' as <-.
      cbn [pd.empty pd.columns]. apply column_types_keys. auto.
    + rewrite lookup_insert_ne in Hd' by done. by eapply Hs.
Qed.

(* ===================================================================== *)
(** ** The adapters on concrete tables *)
(* ===================================================================== *)

Section Concrete.
Import Examples.

Lemma id_created_wf : store_wf id_created.
Proof. apply create_table_wf, init_wf. Qed.

Lemma id_store_wf : store_wf id_store.
Proof. apply faiss_insert_data_wf, id_created_wf. Qed.

Lemma abc_store_data : data abc_store !! "t" = Some abc_frame.
Proof. vm_compute. reflexivity. Qed.

Lemma abc_store_index : indexes abc_store !! "t" = Some abc_index.
Proof. vm_compute. reflexivity. Qed.


(** The upsert of the spec on its own example: after inserting
    [{id: 1, name: "a"}], updating with [{id: 1, name: "b"}] under the key
    [id] leaves exactly one row, with [id = 1] and [name = "b"]. *)
Example upsert_example :
  values ["id"; "name"]
    (foldl (upsert "id" (pd.columns id_batch)) id_frame (pd.rows id_batch))
  = [[VNum 1; VStr "b"]].
Proof. vm_compute. reflexivity. Qed.

(** C1 (the code departs from the claim).  On the example of the claim --
    the table holds [{id: 1, name: "a"}] and is updated with
    [{id: 1, name: "b"}] under the key [id] -- [update_data] returns
    normally and leaves one row all of whose cells are missing: the stored
    row was matched, and the assignment [existing.loc[idx, :] = row] blanked
    it instead of writing the batch row into it.  No row has [id = 1] or
    [name = "b"] any more, and the blank row still counts as active.  With
    the key [a, b] on the rows (a=1, b=1, v=x), (a=2, b=2, v=y), the batch
    row (a=1, b=2, v=z), which equals neither of them on both key columns,
    is not appended: the key columns are matched one after the other, the
    first stored row is blanked for [a] and the second for [b]. *)
Theorem update_data_blanks_matched_rows :
  table_values ["id"; "name"] id_store "t" = Some [[VNum 1; VStr "a"]]
  ∧ values ["id"; "name"] id_batch = [[VNum 1; VStr "b"]]
  ∧ (update_data id_store "t" id_batch ["id"]).2 = Return ()
  ∧ table_values ["id"; "name"; "is_active"]
      (update_data id_store "t" id_batch ["id"]).1 "t"
    = Some [[VNaN; VNaN; VNaN]]
  ∧ values ["id"; "name"]
      (get_active_data (update_data id_store "t" id_batch ["id"]).1 "t")
    = [[VNaN; VNaN]]
  ∧ table_values ["a"; "b"; "v"] ab_store "t"
    = Some [[VNum 1; VNum 1; VStr "x"]; [VNum 2; VNum 2; VStr "y"]]
  ∧ values ["a"; "b"; "v"] ab_batch = [[VNum 1; VNum 2; VStr "z"]]
  ∧ (update_data ab_store "t" ab_batch ["a"; "b"]).2 = Return ()
  ∧ table_values ["a"; "b"; "v"]
      (update_data ab_store "t" ab_batch ["a"; "b"]).1 "t"
    = Some [[VNaN; VNaN; VNaN]; [VNaN; VNaN; VNaN]].
Proof. split_and!; vm_compute; reflexivity. Qed.

(** A search within the number of indexed rows: the 2 nearest of 3. *)
Example search_top_2_of_3 :
  result_values ["id"; "name"; "distance"]
    (FaissVectorStore.search abc_store "t" [0; 0] 2)
  = Some [[VNum 1; VStr "a"; VNum 1]; [VNum 2; VStr "b"; VNum 1]].
Proof. vm_compute. reflexivity. Qed.

(** C6 (the code departs from the claim).  On a table with 3 stored and 3
    indexed rows, [search] with [top_k = 5] returns 5 results, not 3: the two
    padding entries of the index (label -1) pass the test
    [idx < len(data)] and are read as position -1, the last row, which comes
    back twice more with the padding distance. *)
Theorem search_top_k_beyond_indexed_rows :
  faiss.ntotal <$> indexes abc_store !! "t" = Some 3%nat
  ∧ pd.len <$> data abc_store !! "t" = Some 3%nat
  ∧ result_values ["id"; "name"; "distance"]
      (FaissVectorStore.search abc_store "t" [0; 0] 5)
    = Some [[VNum 1; VStr "a"; VNum 1];
            [VNum 2; VStr "b"; VNum 1];
            [VNum 3; VStr "c"; VNum 50];
            [VNum 3; VStr "c"; VNum faiss.FLT_MAX];
            [VNum 3; VStr "c"; VNum faiss.FLT_MAX]].
Proof. split_and!; vm_compute; reflexivity. Qed.

(** C9 (the code departs from the claim).  After [create_table] on the
    columns [id], [name], the call [add_column("t", "extra", "text")] returns
    normally and leaves a schema whose column-type map has the key [extra]
    and whose nullability map does not. *)
Theorem add_column_leaves_nullables_behind :
  ∃ sch,
    schemas (add_column id_created "t" "extra" "text").1 !! "t" = Some sch
    ∧ (add_column id_created "t" "extra" "text").2 = Return ()
    ∧ dict_keys (columns sch) = id_columns ++ ["extra"]
    ∧ dict_keys (nullables sch) = id_columns
    ∧ ¬ schema_keys_agree sch.
Proof.
  exists (mkTableSchema
            (dict_set "extra" "text" (column_types dim id_rows "combined" []))
            (dict_comp (λ _, true)
               (dict_keys (column_types dim id_rows "combined" [])))).
  split_and!; try (vm_compute; reflexivity).
  intros Hagree. destruct (Hagree "extra") as [Hin _].
  assert ("extra" ∈ id_columns) as Hbad.
  { apply Hin. vm_compute. set_solver. }
  unfold id_columns in Hbad. set_solver.
Qed.

(** C2, counterexample.  In a separated-mode table the batch row carries
    its vector in [name_enc]; [insert_data] stores the row and adds nothing
    to the index. *)
Lemma insert_data_separated_not_indexed :
  (FaissVectorStore.insert_data sep_store "t" sep_batch ["id"]).2 = Return ()
  ∧ omap (embedding_of "name_enc") (pd.rows sep_batch).*2 = [[1; 0]]
  ∧ indexes sep_store !! "t" = Some (faiss.mk dim [])
  ∧ indexes (FaissVectorStore.insert_data sep_store "t" sep_batch ["id"]).1 !! "t"
    = Some (faiss.mk dim [])
  ∧ ¬ batch_indexed "name_enc" (faiss.mk dim []) (faiss.mk dim []) sep_batch.
Proof.
  split_and!; try (vm_compute; reflexivity).
  vm_compute. discriminate.
Qed.

(** C8, counterexample.  The stored row has the number 0 in [is_active],
    which is not [False]; [get_active_data] does not return it. *)
Lemma get_active_data_drops_zero :
  data zero_store !! "t" = Some zero_frame
  ∧ values ["id"; "name"; "is_active"] zero_frame
    = [[VNum 7; VStr "g"; VNum 0]]
  ∧ pd.rows (get_active_data zero_store "t") = []
  ∧ ¬ (∀ lr, lr ∈ pd.rows zero_frame →
             pd.cell lr.2 "is_active" ≠ VBool false →
             lr ∈ pd.rows (get_active_data zero_store "t")).
Proof.
  assert (pd.rows (get_active_data zero_store "t") = []) as Hnone
    by (vm_compute; reflexivity).
  split_and!; try (vm_compute; reflexivity).
  intros Hall. rewrite Hnone in Hall.
  eapply not_elem_of_nil,
    (Hall (default (0, ∅) (head (pd.rows zero_frame)))).
  - match goal with |- ?P => apply (bool_decide_unpack P) end.
    vm_compute. exact I.
  - vm_compute. discriminate.
Qed.

(** C4, counterexample.  An input frame with a column [is_active]: the
    schema types that input column boolean, not text. *)
Lemma create_table_input_column_not_text :
  ∃ sch,
    schemas (FaissVectorStore.create_table dim init "t" flagged_rows ["id"]
               "combined" []).1 !! "t" = Some sch
    ∧ dict_get "is_active" (columns sch) = Some "boolean"
    ∧ ¬ input_columns_text flagged_rows sch.
Proof.
  exists (mkTableSchema
            (column_types dim flagged_rows "combined" [])
            (dict_comp (λ _, true)
               (dict_keys (column_types dim flagged_rows "combined" [])))).
  split_and!; try (vm_compute; reflexivity).
  intros Htext. specialize (Htext "is_active").
  assert ("is_active" ∈ pd.columns flagged_rows) as Hin by (vm_compute; set_solver).
  apply Htext in Hin. vm_compute in Hin. discriminate Hin.
Qed.

End Concrete.

(* ===================================================================== *)
(** ** The general statements at concrete tables *)
(* ===================================================================== *)

Section Instances.
Import Examples.

(** Decide a closed decidable statement by evaluation. *)
Local Ltac by_evaluation :=
  match goal with |- ?P => apply (bool_decide_unpack P); vm_compute; exact I end.

Lemma abc_store_wf : store_wf abc_store.
Proof. apply faiss_insert_data_wf, id_created_wf. Qed.

Lemma abc_chroma_accepted :
  chromadb.create_collection (ChromaVectorStore.self_client client init) "items"
  = Some (chromadb.mk "items" [] [] []).
Proof. vm_compute. reflexivity. Qed.

Lemma abc_chroma_wf : store_wf abc_chroma.
Proof.
  unfold abc_chroma.
  rewrite (chroma_create_table_accepted dim client init "items" id_rows ["id"]
             "combined" [] _ eq_refl abc_chroma_accepted).
  apply create_table_wf, init_wf.
Qed.

Lemma abc_chroma_store_wf : store_wf abc_chroma_store.
Proof. apply chroma_insert_data_wf, abc_chroma_wf. Qed.

Lemma create_table_idempotent_witness :
  pd.len <$> data abc_store !! "t" = Some 3%nat
  ∧ FaissVectorStore.create_table dim abc_store "t" id_rows ["id"] "combined" []
    = (abc_store, Return (column_types dim id_rows "combined" []))
  ∧ FaissVectorStore.create_table dim id_created "t" ab_rows ["a"] "separated" ["v"]
    = (id_created, Return (column_types dim id_rows "combined" []))
  ∧ (ChromaVectorStore.create_table dim client abc_chroma_store "items" id_rows
       ["id"] "combined" []).1 = abc_chroma_store
  ∧ ChromaVectorStore.create_table dim client
      (ChromaVectorStore.create_table dim client init "t" id_rows ["id"]
         "combined" []).1 "t" id_rows ["id"] "combined" []
    = ChromaVectorStore.create_table dim client init "t" id_rows ["id"]
        "combined" [].
Proof.
  destruct (create_table_idempotent dim "t" id_rows ["id"] "combined" [])
    as [HF HC].
  destruct (create_table_idempotent dim "items" id_rows ["id"] "combined" [])
    as [_ HC'].
  split_and!.
  - vm_compute. reflexivity.
  - destruct (HF abc_store (store_wf_registered_stored _ abc_store_wf))
      as [(_ & Hnoop & _) _].
    destruct Hnoop as (sch & Hsch & ->).
    { exists abc_index. apply abc_store_index. }
    f_equal. f_equal.
    assert (schemas abc_store !! "t"
            = Some (mkTableSchema (column_types dim id_rows "combined" [])
                      (dict_comp (λ _, true)
                         (dict_keys (column_types dim id_rows "combined" [])))))
      as Hsch' by (vm_compute; reflexivity).
    rewrite Hsch in Hsch'. by injection Hsch' as ->.
  - destruct (HF init (store_wf_registered_stored _ init_wf))
      as [(_ & _ & Hlater) _].
    destruct (Hlater (column_types dim id_rows "combined" []) eq_refl)
      as [_ Hany].
    apply Hany.
  - destruct (HC' client abc_chroma_store
                (store_wf_registered_stored _ abc_chroma_store_wf))
      as (_ & Hnoop & _).
    destruct Hnoop as (sch & _ & ->); [|done].
    exists abc_collection. vm_compute. reflexivity.
  - destruct (HC client init (store_wf_registered_stored _ init_wf))
      as (Hagain & _).
    exact Hagain.
Defined.

Lemma create_table_schema_witness :
  ∃ sch,
    (create_table 768 (FaissVectorStore.new_index 768) init "t" id_rows ["id"]
       "separated" ["name"]).2 = Return (columns sch)
    ∧ dict_get "name_enc" (columns sch) = Some (vector_type 768)
    ∧ dict_get "embeddings" (columns sch) = None.
Proof.
  destruct (create_table_schema 768 (FaissVectorStore.new_index 768) init "t"
              id_rows ["id"] "separated" ["name"])
    as (sch & Hret & _ & _ & _ & _ & _ & _ & Hkeys & _ & Henc).
  { reflexivity. }
  exists sch. split; [exact Hret|]. split.
  - apply (Henc ltac:(discriminate) "name"). repeat constructor.
  - apply dict_get_None. intros Hin. apply Hkeys in Hin.
    unfold synthesized_names in Hin. simpl in Hin. set_solver.
Defined.

Lemma insert_data_error_contract_witness :
  FaissVectorStore.insert_data init "t" id_rows ["id"]
  = (init, Raise (DBOperationError "t"))
  ∧ FaissVectorStore.insert_data id_created "t" name_batch ["id"]
    = (id_created, Raise (DataValidationError ["id"]))
  ∧ ChromaVectorStore.insert_data init "items" id_rows ["id"]
    = (init, Raise (DBOperationError "items"))
  ∧ ChromaVectorStore.insert_data abc_chroma "items" name_batch ["id"]
    = (abc_chroma, Raise (DataValidationError ["id"])).
Proof.
  destruct (insert_data_error_contract "t" id_rows ["id"]) as [HF _].
  destruct (insert_data_error_contract "t" name_batch ["id"]) as [HF' _].
  destruct (insert_data_error_contract "items" id_rows ["id"]) as [_ HC].
  destruct (insert_data_error_contract "items" name_batch ["id"]) as [_ HC'].
  assert ("id" ∉ pd.columns name_batch) as Hno.
  { by_evaluation. }
  assert (∀ I t, ¬ known (@init I) t) as Hunknown.
  { intros I t [? Hk]. unfold init in Hk. simpl in Hk.
    rewrite lookup_empty in Hk. discriminate Hk. }
  split_and!.
  - apply (HF init init_wf), Hunknown.
  - apply (HF' id_created id_created_wf) with (pk := "id"); [|repeat constructor|done].
    exists (faiss.mk dim []). vm_compute. reflexivity.
  - apply (HC init init_wf), Hunknown.
  - apply (HC' abc_chroma abc_chroma_wf) with (pk := "id");
      [|repeat constructor|done].
    exists (chromadb.mk "items" [] [] []). vm_compute. reflexivity.
Defined.


Lemma inactive_store_data : data inactive_store !! "t" = Some inactive_frame.
Proof. vm_compute. reflexivity. Qed.

Lemma get_active_data_spec_witness :
  values ["id"; "is_active"] inactive_frame
  = [[VNum 1; VNaN]; [VNum 2; VBool false]; [VNum 3; VNaN]]
  ∧ pd.columns (get_active_data inactive_store "t") = pd.columns inactive_frame
  ∧ values ["id"] (get_active_data inactive_store "t") = [[VNum 1]; [VNum 3]].
Proof.
  destruct (get_active_data_spec inactive_store "t") as [_ H].
  destruct (H inactive_frame inactive_store_data) as (Hcols & _ & Hrows).
  destruct Hrows as [Hrows _]; [by_evaluation|].
  split_and!; [vm_compute; reflexivity|exact Hcols|].
  unfold values. rewrite Hrows. vm_compute. reflexivity.
Defined.

Lemma set_inactive_spec_witness :
  set_inactive abc_store "t" [] = (abc_store, Return ())
  ∧ (set_inactive abc_store "t" [VNum 2]).2 = Return ()
  ∧ table_values ["id"; "name"; "is_active"]
      (set_inactive abc_store "t" [VNum 2]).1 "t"
    = Some [[VNum 1; VStr "a"; VNaN];
            [VNum 2; VStr "b"; VBool false];
            [VNum 3; VStr "c"; VNaN]].
Proof.
  destruct (set_inactive_spec abc_store "t" []) as [Hnoop _].
  destruct (set_inactive_spec abc_store "t" [VNum 2]) as [_ Hset].
  split; [apply Hnoop; by right|].
  destruct (Hset abc_frame abc_store_data) as (pk_col & cols & Hcols & Hrun).
  { discriminate. }
  { by_evaluation. }
  injection Hcols as <- _. rewrite Hrun.
  split; [reflexivity|]. vm_compute. reflexivity.
Defined.

Lemma insert_data_indexes_embeddings_column_witness :
  FaissVectorStore.insert_data id_created "t" abc_batch ["id"]
  = (set_index (set_data id_created "t" abc_frame) "t" abc_index, Return ())
  ∧ aligned abc_index abc_frame
  ∧ ChromaVectorStore.insert_data abc_chroma "items" abc_batch ["id"]
    = (set_index (set_data abc_chroma "items" abc_frame) "items" abc_collection,
       Return ()).
Proof.
  destruct (insert_data_indexes_embeddings_column "t" abc_batch ["id"]) as [HF _].
  { intros col Hin. apply list_elem_of_singleton in Hin as ->. by_evaluation. }
  destruct (insert_data_indexes_embeddings_column "items" abc_batch ["id"])
    as [_ HC].
  { intros col Hin. apply list_elem_of_singleton in Hin as ->. by_evaluation. }
  destruct (HF id_created (pd.empty id_columns) (faiss.mk dim [])) as [_ Hadd];
    [vm_compute; reflexivity | vm_compute; reflexivity |].
  destruct (Hadd [[1; 0]; [0; 1]; [5; 5]]) as (Hins & _ & Hal).
  { by_evaluation. }
  { vm_compute. reflexivity. }
  { discriminate. }
  { repeat constructor. }
  destruct (HC abc_chroma (pd.empty id_columns) (chromadb.mk "items" [] [] []))
    as [_ Hchroma]; [vm_compute; reflexivity | vm_compute; reflexivity |].
  split_and!.
  - exact Hins.
  - apply Hal. by exists [].
  - rewrite (Hchroma [[1; 0]; [0; 1]; [5; 5]] [""; ""; ""] 2%nat).
    + reflexivity.
    + by_evaluation.
    + vm_compute. reflexivity.
    + discriminate.
    + discriminate.
    + repeat constructor.
    + by left.
    + vm_compute. reflexivity.
    + by_evaluation.
    + intros l _. cbn. apply not_elem_of_nil.
Defined.

End Instances.

(* ===================================================================== *)
(** ** Invariants of the adapter state *)
(* ===================================================================== *)

Lemma init_columns_stored {I} : schema_columns_stored (@init I).
Proof. intros t sch df H. simpl in H. by rewrite lookup_empty in H. Qed.

Lemma init_labelled {I} : frames_labelled (@init I).
Proof. intros t df H. simpl in H. by rewrite lookup_empty in H. Qed.

Lemma set_data_columns_stored {I} (s : Store I) t df :
  schema_columns_stored s →
  (∀ sch, schemas s !! t = Some sch →
          ∀ c, c ∈ dict_keys (columns sch) → c ∈ pd.columns df) →
  schema_columns_stored (set_data s t df).
Proof.
  intros Hs Hdf t' sch df' Hsch Hd. simpl in Hsch, Hd.
  destruct (decide (t = t')) as [<-|Hne].
  - rewrite lookup_insert_eq in Hd. injection Hd as <-. by apply Hdf.
  - rewrite lookup_insert_ne in Hd by done. by eapply Hs.
Qed.

Lemma set_index_columns_stored {I} (s : Store I) t i :
  schema_columns_stored s → schema_columns_stored (set_index s t i).
Proof. intros Hs t' sch df Hsch Hd. by eapply Hs. Qed.

(** A frame that replaces the stored one and has at least its columns. *)
Lemma set_data_grow_columns_stored {I} (s : Store I) t old df :
  schema_columns_stored s → data s !! t = Some old →
  (∀ c, c ∈ pd.columns old → c ∈ pd.columns df) →
  schema_columns_stored (set_data s t df).
Proof.
  intros Hs Hold Hgrow. apply set_data_columns_stored; [done|].
  intros sch Hsch c Hc. apply Hgrow. by eapply Hs.
Qed.

Lemma set_data_labelled {I} (s : Store I) t df :
  frames_labelled s → NoDup (pd.index df) → frames_labelled (set_data s t df).
Proof.
  intros Hs Hdf t' df' Hd. simpl in Hd.
  destruct (decide (t = t')) as [<-|Hne].
  - rewrite lookup_insert_eq in Hd. by injection Hd as <-.
  - rewrite lookup_insert_ne in Hd by done. by eapply Hs.
Qed.

Lemma update_keys_index_NoDup pks df existing :
  NoDup (pd.index existing) → NoDup (pd.index (update_keys pks df existing)).
Proof.
  revert existing. induction pks as [|pk pks IH]; intros existing Hnd; [done|].
  cbn [update_keys]. destruct (_ || _); [by apply IH|]. apply IH.
  rewrite update_rows_blank_or_append by done.
  clear IH. revert existing Hnd.
  induction (pd.rows df) as [|lr rows IH]; intros existing Hnd; [done|].
  cbn [foldl]. by apply IH, blank_or_append_index_NoDup.
Qed.

Lemma loc_set_cell_index mask c v df :
  pd.index (pd.loc_set_cell mask c v df) = pd.index df.
Proof.
  unfold pd.index. cbn [pd.loc_set_cell pd.rows]. rewrite <-list_fmap_compose.
  apply list_fmap_ext. intros i lr _. simpl.
  destruct (mask lr.2); [done|]. by case_bool_decide.
Qed.

Lemma set_column_none_index c df :
  pd.index (pd.set_column_none c df) = pd.index df.
Proof.
  unfold pd.index. cbn [pd.set_column_none pd.rows]. by rewrite <-list_fmap_compose.
Qed.

Section Preservation.
Context {I : Type}.
Implicit Types (s : Store I).

Lemma create_table_columns_stored dim (new_index : string → I) s t df pks mode cols :
  store_wf s → schema_columns_stored s →
  schema_columns_stored (create_table dim new_index s t df pks mode cols).1.
Proof.
  intros Hwf Hs. destruct (indexes s !! t) as [i|] eqn:Hi.
  - destruct (proj1 (proj2 (Hwf t)) (proj1 (proj1 (Hwf t)) (mk_is_Some _ _ Hi)))
      as [sch Hsch].
    by erewrite create_table_existing.
  - rewrite create_table_fresh by done. cbn [fst].
    intros t' sch df' Hsch Hd. simpl in Hsch, Hd.
    destruct (decide (t = t')) as [<-|Hne].
    + rewrite lookup_insert_eq in Hsch. rewrite lookup_insert_eq in Hd.
      injection Hsch as <-. by injection Hd as <-.
    + rewrite lookup_insert_ne in Hsch by done.
      rewrite lookup_insert_ne in Hd by done. by eapply Hs.
Qed.

Lemma create_table_labelled dim (new_index : string → I) s t df pks mode cols :
  frames_labelled s →
  frames_labelled (create_table dim new_index s t df pks mode cols).1.
Proof.
  intros Hs. unfold create_table. case_bool_decide.
  - by destruct (schemas s !! t).
  - cbn [fst]. intros t' df' Hd. cbn [set_index set_data set_schema data] in Hd.
    destruct (decide (t = t')) as [<-|Hne].
    + rewrite lookup_insert_eq in Hd. injection Hd as <-. apply NoDup_nil_2.
    + rewrite lookup_insert_ne in Hd by done. by eapply Hs.
Qed.

Lemma update_data_columns_stored s t df pks :
  schema_columns_stored s → schema_columns_stored (update_data s t df pks).1.
Proof.
  intros Hs. unfold update_data. destruct (data s !! t) as [existing|] eqn:Hd;
    [|done].
  cbn [fst]. eapply set_data_grow_columns_stored; [done..|].
  intros c. apply update_keys_columns.
Qed.

Lemma update_data_labelled s t df pks :
  frames_labelled s → frames_labelled (update_data s t df pks).1.
Proof.
  intros Hs. unfold update_data. destruct (data s !! t) as [existing|] eqn:Hd;
    [|done].
  cbn [fst]. apply set_data_labelled; [done|].
  apply update_keys_index_NoDup. by eapply Hs.
Qed.

Lemma set_inactive_columns_stored s t pk_values :
  schema_columns_stored s → schema_columns_stored (set_inactive s t pk_values).1.
Proof.
  intros Hs. unfold set_inactive. destruct (data s !! t) as [df|] eqn:Hd; [|done].
  destruct pk_values; [done|]. destruct (pd.columns df) eqn:Hcols; [done|].
  cbn [fst]. eapply set_data_grow_columns_stored; [done..|].
  intros c Hc. cbn [pd.loc_set_cell pd.columns]. rewrite Hcols in Hc |- *.
  case_bool_decide; [done|]. apply elem_of_app. by left.
Qed.

Lemma set_inactive_labelled s t pk_values :
  frames_labelled s → frames_labelled (set_inactive s t pk_values).1.
Proof.
  intros Hs. unfold set_inactive. destruct (data s !! t) as [df|] eqn:Hd; [|done].
  destruct pk_values; [done|]. destruct (pd.columns df) eqn:Hcols; [done|].
  cbn [fst]. apply set_data_labelled; [done|].
  rewrite loc_set_cell_index. by eapply Hs.
Qed.

Lemma add_column_columns_stored s t c ty :
  schema_columns_stored s → schema_columns_stored (add_column s t c ty).1.
Proof.
  intros Hs. unfold add_column. destruct (schemas s !! t) as [sch|] eqn:Hsch;
    [|done].
  cbn [set_schema data]. destruct (data s !! t) as [df|] eqn:Hd.
  - cbn [fst]. intros t' sch' df' Hsch' Hd'. simpl in Hsch', Hd'.
    destruct (decide (t = t')) as [<-|Hne].
    + rewrite lookup_insert_eq in Hsch'. rewrite lookup_insert_eq in Hd'.
      injection Hsch' as <-. injection Hd' as <-. cbn [columns]. intros k Hk.
      apply dict_keys_set in Hk. cbn [pd.set_column_none pd.columns].
      destruct Hk as [->|Hk].
      * case_bool_decide; [done|]. apply elem_of_app. right. by apply list_elem_of_singleton.
      * pose proof (Hs t sch df Hsch Hd k Hk).
        case_bool_decide; [done|]. apply elem_of_app. by left.
    + rewrite lookup_insert_ne in Hsch' by done.
      rewrite lookup_insert_ne in Hd' by done. by eapply Hs.
  - cbn [fst]. intros t' sch' df' Hsch' Hd'. simpl in Hsch', Hd'.
    destruct (decide (t = t')) as [<-|Hne]; [congruence|].
    rewrite lookup_insert_ne in Hsch' by done. by eapply Hs.
Qed.

Lemma add_column_labelled s t c ty :
  frames_labelled s → frames_labelled (add_column s t c ty).1.
Proof.
  intros Hs. unfold add_column. destruct (schemas s !! t); [|done].
  cbn [set_schema data]. destruct (data s !! t) as [df|] eqn:Hd; [|done].
  cbn [fst]. apply (set_data_labelled (set_schema s t _)); [done|].
  rewrite set_column_none_index. by eapply Hs.
Qed.

End Preservation.

Lemma faiss_insert_data_columns_stored (s : FaissVectorStore.Store) t df pks :
  schema_columns_stored s →
  schema_columns_stored (FaissVectorStore.insert_data s t df pks).1.
Proof.
  intros Hs. unfold FaissVectorStore.insert_data.
  destruct (data s !! t) as [old|] eqn:Hd; [|done].
  destruct (negb _); [done|].
  assert (schema_columns_stored (set_data s t (pd.concat old df))) as Hs'.
  { eapply set_data_grow_columns_stored; [done..|].
    intros c Hc. apply concat_columns. by left. }
  case_bool_decide; [|done].
  destruct (np.array _); [|done]. cbn [set_data indexes].
  destruct (indexes s !! t) as [index|]; [|done].
  by destruct (faiss.add index _).
Qed.

Lemma faiss_insert_data_labelled (s : FaissVectorStore.Store) t df pks :
  frames_labelled s → frames_labelled (FaissVectorStore.insert_data s t df pks).1.
Proof.
  intros Hs. unfold FaissVectorStore.insert_data.
  destruct (data s !! t) as [old|] eqn:Hd; [|done].
  destruct (negb _); [done|].
  assert (frames_labelled (set_data s t (pd.concat old df))) as Hs'.
  { apply set_data_labelled; [done|]. apply concat_index_NoDup. }
  case_bool_decide; [|done].
  destruct (np.array _); [|done]. cbn [set_data indexes].
  destruct (indexes s !! t) as [index|]; [|done].
  by destruct (faiss.add index _).
Qed.

Lemma chroma_insert_data_columns_stored (s : ChromaVectorStore.Store) t df pks :
  schema_columns_stored s →
  schema_columns_stored (ChromaVectorStore.insert_data s t df pks).1.
Proof.
  intros Hs. unfold ChromaVectorStore.insert_data.
  destruct (indexes s !! t) as [collection|]; [|done]. destruct (negb _); [done|].
  destruct (data s !! t) as [old|] eqn:Hd; [|done].
  assert (schema_columns_stored (set_data s t (pd.concat old df))) as Hs'.
  { eapply set_data_grow_columns_stored; [done..|].
    intros c Hc. apply concat_columns. by left. }
  case_bool_decide; [|done]. destruct (chromadb.add _ _ _ _); [|done].
  by apply set_index_columns_stored.
Qed.

Lemma chroma_create_table_columns_stored dim client
    (s : ChromaVectorStore.Store) t df pks mode cols :
  registered_stored s → schema_columns_stored s →
  schema_columns_stored
    (ChromaVectorStore.create_table dim client s t df pks mode cols).1.
Proof.
  intros Hwf Hs. destruct (indexes s !! t) as [i|] eqn:Hi.
  - destruct (proj1 (proj2 (Hwf t)) (proj1 (Hwf t) (mk_is_Some _ _ Hi)))
      as [sch Hsch].
    by erewrite chroma_create_table_existing.
  - destruct (chroma_create_table_stores dim client s t df pks mode cols Hi)
      as (Hd & Hsch & _).
    intros t' sch df' Hsch' Hd'. rewrite Hsch in Hsch'. rewrite Hd in Hd'.
    cbn [chroma_prepared data schemas] in Hsch', Hd'.
    destruct (decide (t = t')) as [<-|Hne].
    + rewrite lookup_insert_eq in Hsch'. rewrite lookup_insert_eq in Hd'.
      injection Hsch' as <-. by injection Hd' as <-.
    + rewrite lookup_insert_ne in Hsch' by done.
      rewrite lookup_insert_ne in Hd' by done. by eapply Hs.
Qed.

Lemma chroma_create_table_labelled dim client (s : ChromaVectorStore.Store) t
    df pks mode cols :
  frames_labelled s →
  frames_labelled
    (ChromaVectorStore.create_table dim client s t df pks mode cols).1.
Proof.
  intros Hs. destruct (indexes s !! t) as [i|] eqn:Hi.
  - unfold ChromaVectorStore.create_table.
    rewrite bool_decide_eq_true_2 by (by apply elem_of_dom).
    by destruct (schemas s !! t).
  - destruct (chroma_create_table_stores dim client s t df pks mode cols Hi)
      as (Hd & _ & _).
    intros t' df' Hd'. rewrite Hd in Hd'. cbn [chroma_prepared data] in Hd'.
    destruct (decide (t = t')) as [<-|Hne].
    + rewrite lookup_insert_eq in Hd'. injection Hd' as <-. apply NoDup_nil_2.
    + rewrite lookup_insert_ne in Hd' by done. by eapply Hs.
Qed.

Lemma chroma_insert_data_labelled (s : ChromaVectorStore.Store) t df pks :
  frames_labelled s → frames_labelled (ChromaVectorStore.insert_data s t df pks).1.
Proof.
  intros Hs. unfold ChromaVectorStore.insert_data.
  destruct (indexes s !! t) as [collection|]; [|done]. destruct (negb _); [done|].
  destruct (data s !! t) as [old|] eqn:Hd; [|done].
  assert (frames_labelled (set_data s t (pd.concat old df))) as Hs'.
  { apply set_data_labelled; [done|]. apply concat_index_NoDup. }
  case_bool_decide; [|done]. by destruct (chromadb.add _ _ _ _).
Qed.

(** X1. In every state that a new adapter reaches through any sequence of
    calls (returning or raising), every stored frame has an [is_active]
    column and distinct row labels, and every column of a table's schema is
    a column of its stored frame.  In the faiss adapter the three registries
    hold the same table names.  In the Chroma adapter, whatever the client
    accepts, the frames and the schemas hold the same table names and every
    table that has a collection has a frame. *)
Theorem reachable_state_invariants (dim : nat) (cs : list call) :
  (store_wf (faiss_run dim cs) ∧ frames_flagged (faiss_run dim cs)
   ∧ frames_labelled (faiss_run dim cs) ∧ schema_columns_stored (faiss_run dim cs))
  ∧ (∀ client,
       registered_stored (chroma_run dim client cs)
       ∧ frames_flagged (chroma_run dim client cs)
       ∧ frames_labelled (chroma_run dim client cs)
       ∧ schema_columns_stored (chroma_run dim client cs)).
Proof.
  unfold faiss_run, chroma_run. split.
  - cut (∀ s : FaissVectorStore.Store,
           store_wf s ∧ frames_flagged s ∧ frames_labelled s ∧ schema_columns_stored s →
           store_wf (foldl (faiss_call dim) s cs)
           ∧ frames_flagged (foldl (faiss_call dim) s cs)
           ∧ frames_labelled (foldl (faiss_call dim) s cs)
           ∧ schema_columns_stored (foldl (faiss_call dim) s cs)).
    { intros H. apply H. split_and!;
        [apply init_wf|apply init_flagged|apply init_labelled|apply init_columns_stored]. }
    induction cs as [|c cs IH]; intros s (Hwf & Hfl & Hlab & Hcol); [done|].
    cbn [foldl]. apply IH. destruct c; cbn [faiss_call]; split_and!.
    + by apply create_table_wf.
    + by apply create_table_flagged.
    + by apply create_table_labelled.
    + by apply create_table_columns_stored.
    + by apply faiss_insert_data_wf.
    + by apply faiss_insert_data_flagged.
    + by apply faiss_insert_data_labelled.
    + by apply faiss_insert_data_columns_stored.
    + by apply update_data_wf.
    + by apply update_data_flagged.
    + by apply update_data_labelled.
    + by apply update_data_columns_stored.
    + by apply set_inactive_wf.
    + by apply set_inactive_flagged.
    + by apply set_inactive_labelled.
    + by apply set_inactive_columns_stored.
    + by apply add_column_wf.
    + by apply add_column_flagged.
    + by apply add_column_labelled.
    + by apply add_column_columns_stored.
  - intros client.
    cut (∀ s : ChromaVectorStore.Store,
           registered_stored s ∧ frames_flagged s ∧ frames_labelled s
           ∧ schema_columns_stored s →
           registered_stored (foldl (chroma_call dim client) s cs)
           ∧ frames_flagged (foldl (chroma_call dim client) s cs)
           ∧ frames_labelled (foldl (chroma_call dim client) s cs)
           ∧ schema_columns_stored (foldl (chroma_call dim client) s cs)).
    { intros H. apply H. split_and!;
        [apply store_wf_registered_stored, init_wf|apply init_flagged
        |apply init_labelled|apply init_columns_stored]. }
    induction cs as [|c cs IH]; intros s (Hwf & Hfl & Hlab & Hcol); [done|].
    cbn [foldl]. apply IH. destruct c; cbn [chroma_call]; split_and!.
    + by apply chroma_create_table_registered_stored.
    + by apply chroma_create_table_flagged.
    + by apply chroma_create_table_labelled.
    + by apply chroma_create_table_columns_stored.
    + by apply chroma_insert_data_registered_stored.
    + by apply chroma_insert_data_flagged.
    + by apply chroma_insert_data_labelled.
    + by apply chroma_insert_data_columns_stored.
    + by apply update_data_registered_stored.
    + by apply update_data_flagged.
    + by apply update_data_labelled.
    + by apply update_data_columns_stored.
    + by apply set_inactive_registered_stored.
    + by apply set_inactive_flagged.
    + by apply set_inactive_labelled.
    + by apply set_inactive_columns_stored.
    + by apply add_column_registered_stored.
    + by apply add_column_flagged.
    + by apply add_column_labelled.
    + by apply add_column_columns_stored.
Qed.

(* ===================================================================== *)
(** ** Nothing is ever removed *)
(* ===================================================================== *)

Lemma extends_refl {I} (s : Store I) : extends s s.
Proof. intros t. split_and!; [done..|]. intros df Hd. exists df. eauto. Qed.

Lemma set_data_extends {I} (s : Store I) t old df :
  data s !! t = Some old →
  (∀ c, c ∈ pd.columns old → c ∈ pd.columns df) →
  (pd.len old ≤ pd.len df)%nat →
  extends s (set_data s t df).
Proof.
  intros Hold Hcols Hlen t'. split_and!; [done..|].
  intros df0 Hd. simpl. destruct (decide (t = t')) as [<-|Hne].
  - rewrite lookup_insert_eq. exists df. split; [done|].
    rewrite Hold in Hd. injection Hd as <-. done.
  - rewrite lookup_insert_ne by done. exists df0. eauto.
Qed.

Lemma set_index_extends {I} (s : Store I) t i : extends s (set_index s t i).
Proof.
  intros t'. split_and!.
  - unfold known. simpl. destruct (decide (t = t')) as [<-|Hne].
    + rewrite lookup_insert_eq. eauto.
    + by rewrite lookup_insert_ne.
  - done.
  - intros df Hd. exists df. eauto.
Qed.

Lemma extends_trans {I} (s1 s2 s3 : Store I) :
  extends s1 s2 → extends s2 s3 → extends s1 s3.
Proof.
  intros H12 H23 t. destruct (H12 t) as (Hk & Hc & Hd), (H23 t) as (Hk' & Hc' & Hd').
  split_and!; [eauto..|].
  intros df H. destruct (Hd df H) as (df' & H' & Hcols & Hlen).
  destruct (Hd' df' H') as (df'' & H'' & Hcols' & Hlen').
  exists df''. split_and!; [done|eauto|lia].
Qed.

Lemma update_rows_len pk df_columns batch existing :
  (pd.len existing ≤ pd.len (update_rows pk df_columns batch existing))%nat.
Proof.
  revert existing. induction batch as [|[lbl row] batch IH]; intros existing;
    [done|].
  cbn [update_rows]. etrans; [|apply IH].
  destruct (pd.index_where _ existing).
  - rewrite concat_len. lia.
  - unfold pd.len. cbn [pd.loc_set_rows pd.rows]. by rewrite length_fmap.
Qed.

Lemma update_keys_len pks df existing :
  (pd.len existing ≤ pd.len (update_keys pks df existing))%nat.
Proof.
  revert existing. induction pks as [|pk pks IH]; intros existing; [done|].
  cbn [update_keys]. destruct (_ || _); [apply IH|].
  etrans; [|apply IH]. apply update_rows_len.
Qed.

Section Extends.
Context {I : Type}.
Implicit Types (s : Store I).

Lemma create_table_extends dim (new_index : string → I) s t df pks mode cols :
  store_wf s → extends s (create_table dim new_index s t df pks mode cols).1.
Proof.
  intros Hwf. destruct (indexes s !! t) as [i|] eqn:Hi.
  - destruct (proj1 (proj2 (Hwf t)) (proj1 (proj1 (Hwf t)) (mk_is_Some _ _ Hi)))
      as [sch Hsch].
    erewrite create_table_existing by eauto. apply extends_refl.
  - rewrite create_table_fresh by done. cbn [fst].
    destruct (Hwf t) as [[_ Hdi] [_ Hsd]].
    assert (data s !! t = None) as Hd.
    { apply eq_None_not_Some. intros H. destruct (Hdi H) as [? H']. congruence. }
    assert (schemas s !! t = None) as Hsch.
    { apply eq_None_not_Some. intros H. destruct (Hdi (Hsd H)) as [? H']. congruence. }
    intros t'. unfold known, get_data_columns. simpl.
    destruct (decide (t = t')) as [<-|Hne].
    + rewrite !lookup_insert_eq, Hsch, Hd, Hi. split_and!.
      * by intros [? ?].
      * intros c Hc. by apply elem_of_nil in Hc.
      * done.
    + rewrite !lookup_insert_ne by done. split_and!; [done..|].
      intros df0 H0. exists df0. eauto.
Qed.

Lemma update_data_extends s t df pks : extends s (update_data s t df pks).1.
Proof.
  unfold update_data. destruct (data s !! t) as [existing|] eqn:Hd;
    [|apply extends_refl].
  cbn [fst]. eapply set_data_extends; [done| |apply update_keys_len].
  intros c. apply update_keys_columns.
Qed.

Lemma set_inactive_extends s t pk_values :
  extends s (set_inactive s t pk_values).1.
Proof.
  unfold set_inactive. destruct (data s !! t) as [df|] eqn:Hd; [|apply extends_refl].
  destruct pk_values; [apply extends_refl|].
  destruct (pd.columns df) eqn:Hcols; [apply extends_refl|].
  cbn [fst]. eapply set_data_extends; [done| |].
  - intros c Hc. cbn [pd.loc_set_cell pd.columns]. rewrite Hcols in Hc |- *.
    case_bool_decide; [done|]. apply elem_of_app. by left.
  - unfold pd.len. cbn [pd.loc_set_cell pd.rows]. by rewrite length_fmap.
Qed.

Lemma add_column_extends s t c ty : extends s (add_column s t c ty).1.
Proof.
  unfold add_column. destruct (schemas s !! t) as [sch|] eqn:Hsch;
    [|apply extends_refl].
  assert (extends s (set_schema s t
            (mkTableSchema (dict_set c ty (columns sch)) (nullables sch)))) as Hext.
  { intros t'. split_and!; [done| |intros df Hd; exists df; eauto].
    unfold get_data_columns. simpl. destruct (decide (t = t')) as [<-|Hne].
    - rewrite lookup_insert_eq, Hsch. cbn [columns]. intros k Hk.
      apply dict_keys_set. by right.
    - by rewrite lookup_insert_ne. }
  cbn [set_schema data]. destruct (data s !! t) as [df|] eqn:Hd; [|done].
  cbn [fst]. eapply extends_trans; [exact Hext|].
  eapply (set_data_extends (set_schema s t _)); [done| |].
  - intros k Hk. cbn [pd.set_column_none pd.columns].
    case_bool_decide; [done|]. apply elem_of_app. by left.
  - unfold pd.len. cbn [pd.set_column_none pd.rows]. by rewrite length_fmap.
Qed.

End Extends.

Lemma faiss_insert_data_extends (s : FaissVectorStore.Store) t df pks :
  extends s (FaissVectorStore.insert_data s t df pks).1.
Proof.
  unfold FaissVectorStore.insert_data.
  destruct (data s !! t) as [old|] eqn:Hd; [|apply extends_refl].
  destruct (negb _); [apply extends_refl|].
  assert (extends s (set_data s t (pd.concat old df))) as Hext.
  { eapply set_data_extends; [done| |rewrite concat_len; lia].
    intros c Hc. apply concat_columns. by left. }
  case_bool_decide; [|done].
  destruct (np.array _); [|done]. cbn [set_data indexes].
  destruct (indexes s !! t) as [index|]; [|done].
  destruct (faiss.add index _); [|done].
  cbn [fst]. eapply extends_trans; [exact Hext|]. apply set_index_extends.
Qed.

Lemma chroma_insert_data_extends (s : ChromaVectorStore.Store) t df pks :
  extends s (ChromaVectorStore.insert_data s t df pks).1.
Proof.
  unfold ChromaVectorStore.insert_data.
  destruct (indexes s !! t) as [collection|]; [|apply extends_refl].
  destruct (negb _); [apply extends_refl|].
  destruct (data s !! t) as [old|] eqn:Hd; [|apply extends_refl].
  assert (extends s (set_data s t (pd.concat old df))) as Hext.
  { eapply set_data_extends; [done| |rewrite concat_len; lia].
    intros c Hc. apply concat_columns. by left. }
  case_bool_decide; [|done]. destruct (chromadb.add _ _ _ _); [|done].
  cbn [fst]. eapply extends_trans; [exact Hext|]. apply set_index_extends.
Qed.

Lemma chroma_create_table_extends dim client (s : ChromaVectorStore.Store) t df
    pks mode cols :
  store_wf s →
  extends s (ChromaVectorStore.create_table dim client s t df pks mode cols).1.
Proof.
  intros Hwf. destruct (indexes s !! t) as [i|] eqn:Hi.
  - destruct (proj1 (proj2 (Hwf t)) (proj1 (proj1 (Hwf t)) (mk_is_Some _ _ Hi)))
      as [sch Hsch].
    erewrite chroma_create_table_existing by eauto. apply extends_refl.
  - rewrite chroma_create_table_fresh by done.
    destruct (Hwf t) as [[_ Hdi] [_ Hsd]].
    assert (data s !! t = None) as Hd.
    { apply eq_None_not_Some. intros H. destruct (Hdi H) as [? H']. congruence. }
    assert (schemas s !! t = None) as Hsch.
    { apply eq_None_not_Some. intros H. destruct (Hdi (Hsd H)) as [? H']. congruence. }
    assert (extends s (chroma_prepared dim s t df mode cols)) as Hext.
    { intros t'. unfold known, get_data_columns. cbn.
      destruct (decide (t = t')) as [<-|Hne].
      + rewrite !lookup_insert_eq, Hsch, Hd. split_and!; [done| |done].
        intros c Hc. by apply elem_of_nil in Hc.
      + rewrite !lookup_insert_ne by done. split_and!; [done..|].
        intros df0 H0. exists df0. eauto. }
    destruct (chromadb.create_collection _ _); cbn [fst]; [|done].
    eapply extends_trans; [exact Hext|]. apply set_index_extends.
Qed.

(** X2. No call removes anything: whatever the call and whether it returns
    or raises, every table known before is known after, and it keeps at
    least the schema columns, the frame columns and the number of stored
    rows it had. *)
Theorem calls_never_remove (dim : nat) (c : call) :
  (∀ s : FaissVectorStore.Store, store_wf s → extends s (faiss_call dim s c))
  ∧ (∀ client (s : ChromaVectorStore.Store),
       store_wf s → extends s (chroma_call dim client s c)).
Proof.
  split; [intros s Hwf|intros client s Hwf]; destruct c;
    cbn [faiss_call chroma_call].
  - by apply create_table_extends.
  - apply faiss_insert_data_extends.
  - apply update_data_extends.
  - apply set_inactive_extends.
  - apply add_column_extends.
  - by apply chroma_create_table_extends.
  - apply chroma_insert_data_extends.
  - apply update_data_extends.
  - apply set_inactive_extends.
  - apply add_column_extends.
Qed.

(* ===================================================================== *)
(** ** get_data_columns and get_embed_columns_names *)
(* ===================================================================== *)

Lemma str_startswith_spec (sub s : string) :
  str_startswith sub s = true ↔ ∃ b, s = sub +:+ b.
Proof.
  revert s. induction sub as [|a sub IH]; intros s; simpl.
  - split; [intros _; by exists s | done].
  - destruct s as [|a' s].
    + split; [done | intros [b Hb]; discriminate Hb].
    + rewrite andb_true_iff, bool_decide_eq_true, IH. split.
      * intros [-> [b ->]]. by exists b.
      * intros [b Hb]. injection Hb as -> ->. eauto.
Qed.

(** [str_contains] is the substring test. *)
Lemma str_contains_spec (sub s : string) :
  str_contains sub s = true ↔ ∃ a b, s = a +:+ sub +:+ b.
Proof.
  induction s as [|c s IH]; cbn [str_contains].
  - rewrite orb_false_r, str_startswith_spec. split.
    + intros [b Hb]. by exists "", b.
    + intros (a & b & Hab). destruct a; [by exists b|discriminate Hab].
  - rewrite orb_true_iff, str_startswith_spec, IH. split.
    + intros [[b Hb]|(a & b & Hab)].
      * by exists "", b.
      * exists (String c a), b. simpl. by rewrite Hab.
    + intros (a & b & Hab). destruct a as [|c' a].
      * left. by exists b.
      * right. exists a, b. simpl in Hab. by injection Hab.
Qed.

Lemma str_contains_suffix (sub s : string) : str_contains sub (s +:+ sub) = true.
Proof.
  apply str_contains_spec. exists s, "".
  assert (∀ x : string, x +:+ "" = x) as Hnil.
  { intros x. induction x as [|a x IH]; [done|].
    apply (f_equal (String a)) in IH. exact IH. }
  by rewrite Hnil.
Qed.

Lemma get_embed_columns_names_elem {I} (s : Store I) t c :
  c ∈ get_embed_columns_names s t
  ↔ c ∈ get_data_columns s t ∧ (str_contains "_enc" c = true ∨ c = "embeddings").
Proof.
  unfold get_embed_columns_names, get_data_columns.
  destruct (schemas s !! t) as [sch|].
  - rewrite list_elem_of_filter, orb_true_iff, bool_decide_eq_true. tauto.
  - split; [intros H; by apply elem_of_nil in H | intros [H _]; by apply elem_of_nil in H].
Qed.

(** X3. [get_embed_columns_names] lists, in schema order, the schema
    columns whose name contains [_enc] or is [embeddings].  On a table just
    created from input columns none of which contains [_enc] or is named
    [embeddings], this is a duplicate-free list of exactly [embeddings] in
    mode [combined] and of exactly the [<col>_enc] of the embedding-source
    columns in any other mode; the bookkeeping columns
    [embed_columns_names], [embed_columns_value] and [is_active] are never
    listed, on any table. *)
Theorem get_embed_columns_names_created {I} (dim : nat) (new_index : string → I)
    (s : Store I) (t : string) (df : pd.DataFrame) (pks : list string)
    (mode : string) (cols : list string) :
  indexes s !! t = None →
  (∀ c, c ∈ pd.columns df → str_contains "_enc" c = false ∧ c ≠ "embeddings") →
  let s' := (create_table dim new_index s t df pks mode cols).1 in
  NoDup (get_embed_columns_names s' t)
  ∧ (∀ c, c ∈ get_embed_columns_names s' t
          ↔ if bool_decide (mode = "combined") then c = "embeddings"
            else c ∈ (λ col, col +:+ "_enc") <$> cols)
  ∧ (∀ (s0 : Store I) t0 c,
       c ∈ ["embed_columns_names"; "embed_columns_value"; "is_active"] →
       c ∉ get_embed_columns_names s0 t0).
Proof.
  intros Hi Hinput s'. split_and!.
  - unfold s', get_embed_columns_names. rewrite create_table_fresh by done.
    cbn [fst schemas]. rewrite lookup_insert_eq. cbn [columns].
    apply NoDup_filter, column_types_NoDup.
  - intros c. rewrite get_embed_columns_names_elem.
    unfold s', get_data_columns. rewrite create_table_fresh by done.
    cbn [fst schemas]. rewrite lookup_insert_eq. cbn [columns].
    rewrite column_types_keys. case_bool_decide as Hmode.
    + split.
      * intros [Hkey Hemb].
        destruct Hkey as [Hin | [-> | [-> | [-> | ->] ] ] ]; [|by destruct Hemb..|done].
        destruct (Hinput c Hin) as [Hno Hne]. destruct Hemb; congruence.
      * intros ->. split; [|by right]. auto.
    + split.
      * intros [Hkey Hemb].
        destruct Hkey as [Hin | [-> | [-> | Henc] ] ]; [|by destruct Hemb..|done].
        destruct (Hinput c Hin) as [Hno Hne]. destruct Hemb; congruence.
      * intros Henc. split; [auto|]. left.
        apply list_elem_of_fmap in Henc as (col & -> & _).
        apply str_contains_suffix.
  - intros s0 t0 c Hc Hin. apply get_embed_columns_names_elem in Hin as [_ Hemb].
    repeat (apply elem_of_cons in Hc as [->|Hc]; [by destruct Hemb|]).
    by apply elem_of_nil in Hc.
Qed.

(* ===================================================================== *)
(** ** insert_data and the stored rows *)
(* ===================================================================== *)

Lemma filter_fmap_comm {A B} (f : A → B) (P : B → Prop) `{!∀ x, Decision (P x)}
    (l : list A) :
  filter P (f <$> l) = f <$> filter (λ x, P (f x)) l.
Proof.
  induction l as [|x l IH]; [done|]. rewrite fmap_cons.
  destruct (decide (P (f x))).
  - rewrite !filter_cons_True by done. by rewrite fmap_cons, IH.
  - by rewrite !filter_cons_False.
Qed.

Lemma select_rows_snd (mask : pd.Series → bool) df :
  (pd.rows (pd.select mask df)).*2 = filter (λ r, mask r = true) (pd.rows df).*2.
Proof. cbn [pd.select pd.rows]. by rewrite filter_fmap_comm. Qed.

Lemma concat_rows_snd a b :
  (pd.rows (pd.concat a b)).*2
  = pd.reindex (pd.columns (pd.concat a b)) <$> ((pd.rows a).*2 ++ (pd.rows b).*2).
Proof.
  cbn [pd.concat pd.rows pd.columns]. rewrite range_index_snd.
  rewrite <-fmap_app, <-!list_fmap_compose. by apply list_fmap_ext.
Qed.

Lemma concat_index a b :
  pd.index (pd.concat a b) = Z.of_nat <$> seq 0 (pd.len a + pd.len b).
Proof.
  unfold pd.index, pd.len. cbn [pd.concat pd.rows].
  by rewrite range_index_fst, length_fmap, length_app.
Qed.

(** What [insert_data] leaves in [self.data] once both checks have passed,
    whether or not the call then returns. *)
Lemma faiss_insert_data_data (s : FaissVectorStore.Store) t df pks old :
  data s !! t = Some old → (∀ col, col ∈ pks → col ∈ pd.columns df) →
  data (FaissVectorStore.insert_data s t df pks).1 = <[t := pd.concat old df]> (data s)
  ∧ schemas (FaissVectorStore.insert_data s t df pks).1 = schemas s.
Proof.
  intros Hd Hpk. unfold FaissVectorStore.insert_data.
  rewrite Hd, (forallb_columns_true _ _ Hpk). cbn [negb].
  case_bool_decide; [|done].
  destruct (np.array _); [|done]. cbn [set_data indexes].
  destruct (indexes s !! t) as [index|]; [|done].
  by destruct (faiss.add index _).
Qed.

Lemma chroma_insert_data_data (s : ChromaVectorStore.Store) t df pks old collection :
  data s !! t = Some old → indexes s !! t = Some collection →
  (∀ col, col ∈ pks → col ∈ pd.columns df) →
  data (ChromaVectorStore.insert_data s t df pks).1 = <[t := pd.concat old df]> (data s)
  ∧ schemas (ChromaVectorStore.insert_data s t df pks).1 = schemas s.
Proof.
  intros Hd Hi Hpk. unfold ChromaVectorStore.insert_data.
  rewrite Hi, Hd, (forallb_columns_true _ _ Hpk). cbn [negb].
  case_bool_decide; [|done]. by destruct (chromadb.add _ _ _ _).
Qed.

(** X4. Once the table is known and the declared key columns are columns
    of the batch, [insert_data] replaces the stored frame by the stored rows
    followed by the batch rows, relabelled 0, 1, 2, ...: the columns are the
    stored columns followed by the new columns of the batch, and every
    column reads as its stored cells followed by its batch cells (a cell
    that a row does not have is missing).  No stored row is dropped or
    changed, the schema is not touched, and the other tables keep their
    frames. *)
Theorem insert_data_appends_rows (t : string) (df : pd.DataFrame)
    (pks : list string) (old : pd.DataFrame) :
  (∀ col, col ∈ pks → col ∈ pd.columns df) →
  let new := pd.concat old df in
  (pd.columns new
   = pd.columns old ++ filter (λ c, c ∉ pd.columns old) (pd.columns df)
   ∧ pd.len new = (pd.len old + pd.len df)%nat
   ∧ pd.index new = Z.of_nat <$> seq 0 (pd.len old + pd.len df)
   ∧ ∀ c, c ∈ pd.columns new →
          pd.column new c = pd.column old c ++ pd.column df c)
  ∧ (∀ s : FaissVectorStore.Store,
       data s !! t = Some old →
       data (FaissVectorStore.insert_data s t df pks).1 = <[t := new]> (data s)
       ∧ schemas (FaissVectorStore.insert_data s t df pks).1 = schemas s)
  ∧ (∀ (s : ChromaVectorStore.Store) collection,
       data s !! t = Some old → indexes s !! t = Some collection →
       data (ChromaVectorStore.insert_data s t df pks).1 = <[t := new]> (data s)
       ∧ schemas (ChromaVectorStore.insert_data s t df pks).1 = schemas s).
Proof.
  intros Hpk new. split_and!.
  - done.
  - apply concat_len.
  - apply concat_index.
  - intros c Hc. apply concat_column. by apply concat_columns.
  - intros s Hd. by apply faiss_insert_data_data.
  - intros s collection Hd Hi. by eapply chroma_insert_data_data.
Qed.

(** X5. The faiss adapter writes the rows before it feeds the index.  When
    the batch has an [embeddings] column that is not one vector of the index
    dimension per row of a non-empty batch, [insert_data] raises (a
    [ValueError] from the array conversion or an [AssertionError] from
    [index.add]) after the batch rows have been appended to the stored
    frame: the rows stay stored and the index is unchanged. *)
Theorem faiss_insert_data_raises_after_storing (s : FaissVectorStore.Store)
    (t : string) (df : pd.DataFrame) (pks : list string) (old : pd.DataFrame)
    (index : faiss.IndexFlatL2) :
  data s !! t = Some old → indexes s !! t = Some index →
  (∀ col, col ∈ pks → col ∈ pd.columns df) →
  "embeddings" ∈ pd.columns df →
  ¬ (∃ embs, pd.column df "embeddings" = VVec <$> embs ∧ embs ≠ []
             ∧ Forall (λ v, length v = faiss.d index) embs) →
  ∃ e, FaissVectorStore.insert_data s t df pks
       = (set_data s t (pd.concat old df), Raise e)
       ∧ (e = ValueError ∨ e = AssertionError).
Proof.
  intros Hd Hi Hpk Hcol Hbad. unfold FaissVectorStore.insert_data.
  rewrite Hd, (forallb_columns_true _ _ Hpk). cbn [negb].
  rewrite bool_decide_eq_true_2 by done.
  destruct (np.array _) as [x|] eqn:Harr; [|eauto].
  cbn [set_data indexes]. rewrite Hi.
  destruct (faiss.add index x) as [index'|] eqn:Hadd; [|eauto].
  destruct Hbad. apply np_array_Some in Harr as (embs & Hcells & Hne & ->).
  exists embs. split_and!; [done..|].
  unfold faiss.add in Hadd. destruct (forallb _ _) eqn:Hall; [|done].
  apply Forall_forall. intros v Hv. rewrite forallb_forall in Hall.
  rewrite <-(astype_float32_length v).
  eapply bool_decide_eq_true_1, Hall.
  apply list_elem_of_In, list_elem_of_fmap. by exists v.
Qed.

Lemma get_active_data_concat {I} (s s' : Store I) t old df :
  data s !! t = Some old → data s' !! t = Some (pd.concat old df) →
  "is_active" ∈ pd.columns old →
  (pd.rows (get_active_data s' t)).*2
  = pd.reindex (pd.columns (pd.concat old df))
    <$> ((pd.rows (get_active_data s t)).*2
         ++ filter (λ r, active r = true) (pd.rows df).*2).
Proof.
  intros Hd Hd' Hact. unfold get_active_data. rewrite Hd, Hd'.
  assert ("is_active" ∈ pd.columns (pd.concat old df)) as Hact'
    by (apply concat_columns; by left).
  rewrite !bool_decide_eq_true_2 by done.
  rewrite !select_rows_snd, concat_rows_snd, filter_fmap_comm, filter_app.
  f_equal. f_equal; apply list_filter_iff; intros r; unfold active;
    by rewrite ?reindex_cell.
Qed.

(** X6. After an [insert_data] whose checks pass, [get_active_data] lists
    the rows it listed before followed by the batch rows whose [is_active]
    is not [False] (in particular every batch row without an [is_active]
    cell), each completed to the columns of the new frame. *)
Theorem insert_data_then_get_active_data (t : string) (df : pd.DataFrame)
    (pks : list string) (old : pd.DataFrame) :
  "is_active" ∈ pd.columns old →
  (∀ col, col ∈ pks → col ∈ pd.columns df) →
  (∀ s : FaissVectorStore.Store,
     data s !! t = Some old →
     (pd.rows (get_active_data (FaissVectorStore.insert_data s t df pks).1 t)).*2
     = pd.reindex (pd.columns (pd.concat old df))
       <$> ((pd.rows (get_active_data s t)).*2
            ++ filter (λ r, active r = true) (pd.rows df).*2))
  ∧ (∀ (s : ChromaVectorStore.Store) collection,
       data s !! t = Some old → indexes s !! t = Some collection →
       (pd.rows (get_active_data (ChromaVectorStore.insert_data s t df pks).1 t)).*2
       = pd.reindex (pd.columns (pd.concat old df))
         <$> ((pd.rows (get_active_data s t)).*2
              ++ filter (λ r, active r = true) (pd.rows df).*2)).
Proof.
  intros Hact Hpk. split.
  - intros s Hd. apply get_active_data_concat; [done| |done].
    destruct (faiss_insert_data_data s t df pks old Hd Hpk) as [-> _].
    apply lookup_insert_eq.
  - intros s collection Hd Hi. apply get_active_data_concat; [done| |done].
    destruct (chroma_insert_data_data s t df pks old collection Hd Hi Hpk) as [-> _].
    apply lookup_insert_eq.
Qed.

(* ===================================================================== *)
(** ** add_column *)
(* ===================================================================== *)

Lemma dict_keys_set_list {V} k (v : V) (d : dict V) :
  dict_keys (dict_set k v d)
  = if bool_decide (k ∈ dict_keys d) then dict_keys d else dict_keys d ++ [k].
Proof.
  unfold dict_keys. induction d as [|[k0 v0] d IH]; [done|].
  cbn [dict_set]. destruct (decide (k = k0)) as [->|Hne].
  - rewrite bool_decide_eq_true_2; [done|]. rewrite fmap_cons. apply elem_of_cons. by left.
  - rewrite !fmap_cons, IH. cbn [fst]. case_bool_decide as Hin.
    + rewrite bool_decide_eq_true_2; [done|]. apply elem_of_cons. by right.
    + rewrite bool_decide_eq_false_2; [done|].
      intros [?|?]%elem_of_cons; congruence.
Qed.

Lemma dict_set_idemp {V} k (v : V) (d : dict V) :
  dict_set k v (dict_set k v d) = dict_set k v d.
Proof.
  induction d as [|[k0 v0] d IH]; cbn [dict_set].
  - by rewrite decide_True.
  - destruct (decide (k = k0)) as [->|Hne]; cbn [dict_set].
    + by rewrite decide_True.
    + rewrite decide_False by done. by rewrite IH.
Qed.

Lemma set_column_none_idemp c df :
  pd.set_column_none c (pd.set_column_none c df) = pd.set_column_none c df.
Proof.
  unfold pd.set_column_none. cbn [pd.columns pd.rows]. f_equal.
  - destruct (decide (c ∈ pd.columns df)) as [Hin|Hin].
    + rewrite !(bool_decide_eq_true_2 _ Hin). by rewrite ?(bool_decide_eq_true_2 _ Hin).
    + rewrite !(bool_decide_eq_false_2 _ Hin).
      rewrite bool_decide_eq_true_2; [done|].
      apply elem_of_app. right. by apply list_elem_of_singleton.
  - rewrite <-list_fmap_compose. apply list_fmap_ext. intros i [l r] _. simpl.
    by rewrite insert_insert_eq.
Qed.

Lemma set_column_none_column c df :
  pd.column (pd.set_column_none c df) c = replicate (pd.len df) VNaN.
Proof.
  unfold pd.column, pd.len. cbn [pd.set_column_none pd.rows].
  rewrite <-list_fmap_compose.
  induction (pd.rows df) as [|lr rows IH]; [done|].
  rewrite fmap_cons. cbn [length replicate]. rewrite IH. f_equal.
  unfold pd.cell. simpl. by rewrite lookup_insert_eq.
Qed.

Lemma set_column_none_other c k df :
  k ≠ c → pd.column (pd.set_column_none c df) k = pd.column df k.
Proof.
  intros Hne. unfold pd.column. cbn [pd.set_column_none pd.rows].
  rewrite <-list_fmap_compose. apply list_fmap_ext. intros i lr _.
  unfold pd.cell. simpl. by rewrite lookup_insert_ne.
Qed.

(** X7. [add_column] on a known table returns normally; the schema maps
    the column to the given type, keeps the type and the order of the other
    columns, and lists the column last when it is new.  In the stored frame
    the column reads as missing in every row -- also when the column existed
    and held values -- while the labels, the number of rows and every other
    column are unchanged.  Repeating the call changes nothing. *)
Theorem add_column_backfills {I} (s : Store I) (t c ty : string)
    (sch : TableSchema) (df : pd.DataFrame) :
  schemas s !! t = Some sch → data s !! t = Some df →
  ∃ sch' df',
    add_column s t c ty
    = (mkStore (indexes s) (<[t := df']> (data s)) (<[t := sch']> (schemas s)),
       Return ())
    ∧ dict_get c (columns sch') = Some ty
    ∧ (∀ k, k ≠ c → dict_get k (columns sch') = dict_get k (columns sch))
    ∧ dict_keys (columns sch')
      = (if bool_decide (c ∈ dict_keys (columns sch)) then dict_keys (columns sch)
         else dict_keys (columns sch) ++ [c])
    ∧ pd.columns df'
      = (if bool_decide (c ∈ pd.columns df) then pd.columns df
         else pd.columns df ++ [c])
    ∧ pd.index df' = pd.index df
    ∧ pd.column df' c = replicate (pd.len df) VNaN
    ∧ (∀ k, k ≠ c → pd.column df' k = pd.column df k)
    ∧ add_column (add_column s t c ty).1 t c ty = add_column s t c ty.
Proof.
  intros Hsch Hd.
  exists (mkTableSchema (dict_set c ty (columns sch)) (nullables sch)),
         (pd.set_column_none c df).
  assert (add_column s t c ty
          = (mkStore (indexes s) (<[t := pd.set_column_none c df]> (data s))
               (<[t := mkTableSchema (dict_set c ty (columns sch)) (nullables sch)]>
                  (schemas s)), Return ())) as Hrun.
  { unfold add_column. rewrite Hsch. cbn [set_schema data]. by rewrite Hd. }
  split_and!.
  - exact Hrun.
  - cbn [columns]. rewrite dict_get_set. by rewrite decide_True.
  - intros k Hne. cbn [columns]. rewrite dict_get_set. by rewrite decide_False.
  - apply dict_keys_set_list.
  - done.
  - apply set_column_none_index.
  - apply set_column_none_column.
  - intros k Hne. by apply set_column_none_other.
  - rewrite Hrun. cbn [fst]. unfold add_column, set_schema, set_data.
    cbn [schemas data indexes]. rewrite lookup_insert_eq.
    cbn [schemas data indexes columns nullables]. rewrite lookup_insert_eq.
    by rewrite !insert_insert_eq, dict_set_idemp, set_column_none_idemp.
Qed.

(* ===================================================================== *)
(** ** set_inactive and get_active_data *)
(* ===================================================================== *)

(** X8. Soft delete.  After [set_inactive], [get_active_data] lists exactly
    the rows it listed before whose cell in the first column is not among
    the given values, unchanged and in the same order; the stored frame
    keeps all its rows. *)
Theorem set_inactive_then_get_active_data {I} (s : Store I) (t : string)
    (pk_values : list value) (df : pd.DataFrame) :
  data s !! t = Some df → "is_active" ∈ pd.columns df →
  ∃ pk_col cols df',
    pd.columns df = pk_col :: cols
    ∧ data (set_inactive s t pk_values).1 !! t = Some df'
    ∧ pd.len df' = pd.len df
    ∧ pd.rows (get_active_data (set_inactive s t pk_values).1 t)
      = filter (λ lr, pd.isin (pd.cell lr.2 pk_col) pk_values = false)
               (pd.rows (get_active_data s t)).
Proof.
  intros Hd Hact.
  destruct (pd.columns df) as [|pk_col cols] eqn:Hcols;
    [by apply elem_of_nil in Hact|].
  exists pk_col, cols. rewrite <-Hcols in Hact.
  destruct pk_values as [|v vs].
  - exists df. unfold set_inactive. rewrite Hd. cbn [fst]. split_and!; [done..|].
    symmetry. induction (pd.rows _) as [|lr rows IH]; [done|].
    rewrite filter_cons_True by done. by rewrite IH.
  - exists (pd.loc_set_cell (λ r, pd.isin (pd.cell r pk_col) (v :: vs))
              "is_active" (VBool false) df).
    unfold set_inactive. rewrite Hd, Hcols. cbn [fst]. split_and!.
    + done.
    + apply lookup_insert_eq.
    + unfold pd.len. cbn [pd.loc_set_cell pd.rows]. by rewrite length_fmap.
    + unfold get_active_data, set_data. cbn [data].
      rewrite (lookup_insert_eq (data s)), Hd.
      cbn [pd.loc_set_cell pd.columns].
      rewrite !(bool_decide_eq_true_2 _ Hact). rewrite ?(bool_decide_eq_true_2 _ Hact).
      cbn [pd.select pd.rows pd.columns]. unfold pd.loc_set_cell. cbn [pd.rows].
      rewrite ?(bool_decide_eq_true_2 _ Hact).
      induction (pd.rows df) as [|lr rows IH]; [done|].
      rewrite fmap_cons, (filter_cons _ lr rows), !filter_cons, IH. clear IH.
      destruct (pd.isin (pd.cell lr.2 pk_col) (v :: vs)) eqn:Hisin.
      * rewrite decide_False.
        2:{ simpl. unfold pd.cell. by rewrite lookup_insert_eq. }
        destruct (decide (py_ne _ _ = true)); [|done].
        rewrite filter_cons. rewrite decide_False; [done|]. by rewrite Hisin.
      * destruct (decide (py_ne _ _ = true)); [|done].
        rewrite filter_cons. by rewrite decide_True.
Qed.

(* ===================================================================== *)
(** ** update_data with one key column: what is stored afterwards *)
(* ===================================================================== *)

Lemma py_eq_sym (a b : value) : py_eq a b = py_eq b a.
Proof.
  destruct a, b; simpl; try done; apply bool_decide_ext; split; congruence.
Qed.

Lemma py_eq_trans (a b c : value) :
  py_eq a b = true → py_eq b c = true → py_eq a c = true.
Proof.
  destruct a, b, c; simpl; try done;
    rewrite !bool_decide_eq_true; try congruence.
  all: intros H1 H2; subst; try done;
    repeat match goal with x : bool |- _ => destruct x end; simpl in *; congruence.
Qed.

(** The values that equal themselves: booleans, numbers and strings. *)
Lemma py_eq_refl_iff (a : value) :
  py_eq a a = true ↔ (∃ b, a = VBool b) ∨ (∃ z, a = VNum z) ∨ (∃ x, a = VStr x).
Proof.
  destruct a; simpl; rewrite ?bool_decide_eq_true; split; try done; eauto;
    intros [[? [=]]|[[? [=]]|[? [=]]]].
Qed.

Lemma existsb_matches_false pk (row : pd.Series) (rows : list (Z * pd.Series)) r :
  existsb (λ lr', matches pk row lr'.2) rows = false → r ∈ rows.*2 →
  matches pk row r = false.
Proof.
  intros Hex Hin. apply list_elem_of_fmap in Hin as (lr' & -> & Hin).
  apply not_true_is_false. intros Hm.
  assert (existsb (λ lr', matches pk row lr'.2) rows = true); [|congruence].
  apply existsb_exists. exists lr'. split; [by apply list_elem_of_In|done].
Qed.

Lemma blank_reindex cols : blank (pd.reindex cols ∅).
Proof.
  intros c. unfold pd.cell. rewrite reindex_lookup. by case_decide.
Qed.



(** The rows of one turn of the row loop, in its two cases. *)
Lemma blank_or_append_blanks pk df_columns existing lr :
  existsb (λ lr', matches pk lr.2 lr'.2) (pd.rows existing) = true →
  blank_or_append pk df_columns existing lr
  = pd.mk (pd.columns existing)
      ((λ lr', if matches pk lr.2 lr'.2
               then (lr'.1, pd.reindex (pd.columns existing) ∅)
               else lr') <$> pd.rows existing).
Proof. intros Hex. unfold blank_or_append. by rewrite Hex. Qed.

Lemma blank_or_append_appends pk df_columns existing lr :
  existsb (λ lr', matches pk lr.2 lr'.2) (pd.rows existing) = false →
  blank_or_append pk df_columns existing lr
  = pd.concat existing (pd.of_row df_columns lr.1 lr.2).
Proof. intros Hex. unfold blank_or_append. by rewrite Hex. Qed.

Lemma blank_or_append_columns pk df_columns existing lr c :
  c ∈ pd.columns existing →
  c ∈ pd.columns (blank_or_append pk df_columns existing lr).
Proof.
  intros Hc. unfold blank_or_append. destruct (existsb _ _); [done|].
  apply concat_columns. by left.
Qed.


Section SingleKey.
Variable pk : string.
Variable df_columns : list string.





End SingleKey.


Lemma distinct_keys_blank (P : value → bool) (l : list value) :
  distinct_keys l →
  distinct_keys ((λ a, if P a then VNaN else a) <$> l).
Proof.
  intros Hl i j a b Hi Hj Hne.
  rewrite list_lookup_fmap in Hi, Hj.
  destruct (l !! i) as [a0|] eqn:Hi0; [|done].
  destruct (l !! j) as [b0|] eqn:Hj0; [|done].
  simpl in Hi, Hj. injection Hi as <-. injection Hj as <-.
  pose proof (Hl i j a0 b0 Hi0 Hj0 Hne) as Hab.
  destruct (P a0), (P b0); try done. by rewrite py_eq_sym.
Qed.

Lemma distinct_keys_snoc (k : value) (l : list value) :
  distinct_keys l → (∀ a, a ∈ l → py_eq a k = false) →
  distinct_keys (l ++ [k]).
Proof.
  intros Hl Hk i j a b Hi Hj Hne.
  destruct (decide (i < length l)%nat) as [Hil|Hil],
           (decide (j < length l)%nat) as [Hjl|Hjl].
  - rewrite lookup_app_l in Hi, Hj by done. by eapply Hl.
  - rewrite lookup_app_l in Hi by done.
    rewrite lookup_app_r in Hj by lia.
    apply list_lookup_singleton_Some in Hj as [_ <-].
    apply Hk. by eapply list_elem_of_lookup_2.
  - rewrite lookup_app_r in Hi by lia.
    rewrite lookup_app_l in Hj by done.
    apply list_lookup_singleton_Some in Hi as [_ <-].
    rewrite py_eq_sym. apply Hk. by eapply list_elem_of_lookup_2.
  - rewrite lookup_app_r in Hi, Hj by lia.
    apply list_lookup_singleton_Some in Hi as [Hi _].
    apply list_lookup_singleton_Some in Hj as [Hj _]. lia.
Qed.

Lemma blank_or_append_key_unique pk df_columns ex lr :
  pk ∈ pd.columns ex → key_unique pk ex →
  key_unique pk (blank_or_append pk df_columns ex lr).
Proof.
  intros Hpk Huniq. unfold key_unique in *.
  destruct (existsb (λ lr', matches pk lr.2 lr'.2) (pd.rows ex)) eqn:Hex.
  - rewrite blank_or_append_blanks by done.
    unfold pd.column in *. cbn [pd.rows]. rewrite <-list_fmap_compose.
    replace (_ <$> pd.rows ex)
      with ((λ a, if py_eq a (pd.cell lr.2 pk) then VNaN else a)
            <$> ((λ lr', pd.cell lr'.2 pk) <$> pd.rows ex)).
    { by apply distinct_keys_blank. }
    rewrite <-list_fmap_compose. apply list_fmap_ext. intros i r _. cbn.
    unfold matches. destruct (py_eq (pd.cell r.2 pk) (pd.cell lr.2 pk)); [|done].
    cbn. symmetry. apply blank_reindex.
  - rewrite blank_or_append_appends by done.
    rewrite concat_column by (by left).
    apply distinct_keys_snoc; [done|].
    intros a Ha. rewrite column_alt in Ha.
    apply list_elem_of_fmap in Ha as (r & -> & Hr).
    by apply (existsb_matches_false pk lr.2 (pd.rows ex) r).
Qed.

(** X10. With one key column that both frames have, [update_data] keeps
    the keys unique: when no two stored rows have equal keys before the
    call, no two have afterwards -- a batch row is appended only when no
    stored row, and no row appended earlier in the call, has its key. *)
Theorem update_data_single_key_unique {I} (s : Store I) (t : string)
    (df : pd.DataFrame) (pk : string) (existing : pd.DataFrame) :
  data s !! t = Some existing → NoDup (pd.index existing) →
  pk ∈ pd.columns df → pk ∈ pd.columns existing →
  key_unique pk existing →
  ∃ df',
    update_data s t df [pk] = (set_data s t df', Return ())
    ∧ key_unique pk df'.
Proof.
  intros Hd Hnd Hdf Hex Huniq. eexists. split.
  - by apply update_data_single_key.
  - clear Hd Hnd. revert existing Hex Huniq.
    induction (pd.rows df) as [|lr rows IH]; intros existing Hex Huniq; [done|].
    cbn [foldl]. apply IH.
    + by apply blank_or_append_columns.
    + by apply blank_or_append_key_unique.
Qed.

(* ===================================================================== *)
(** ** search reads the index as insert_data left it *)
(* ===================================================================== *)

(** The hits of [index.search], before padding. *)
Lemma faiss_search_take index q k :
  0 < k → length q = faiss.d index →
  faiss.search index q k
  = Some (take (Z.to_nat k) (faiss.sort_hits (faiss.hits index q))
          ++ replicate (Z.to_nat k - length (faiss.hits index q))
               (faiss.FLT_MAX, -1)).
Proof.
  intros Hk Hq. unfold faiss.search. rewrite !bool_decide_eq_true_2 by done.
  cbn [andb]. by rewrite sort_hits_length.
Qed.

Lemma faiss_search_labels index q k hits :
  faiss.search index q k = Some hits →
  Forall (λ h, -1 ≤ h.2 < Z.of_nat (faiss.ntotal index) ∨ h.2 = -1) hits
  ∧ length hits = Z.to_nat k ∧ 0 < k.
Proof.
  unfold faiss.search. destruct (_ && _) eqn:Hok; [|done].
  apply andb_true_iff in Hok as [Hk%bool_decide_eq_true Hq%bool_decide_eq_true].
  intros [= <-].
  destruct (faiss_search_Some index q k Hk Hq) as (hits & Hs & Hlen & _ & Hlab & _).
  rewrite (faiss_search_take index q k Hk Hq) in Hs. injection Hs as Hs.
  rewrite sort_hits_length.
  split_and!; [|rewrite length_app, length_take, length_replicate,
                  sort_hits_length; lia|done].
  apply Forall_app. split.
  - apply Forall_take, Forall_sort_hits, Forall_forall.
    intros h (i & v & Hv & Hh)%elem_of_hits.
    apply hit_Some in Hh as (_ & _ & ->). apply lookup_lt_Some in Hv.
    unfold faiss.ntotal. lia.
  - apply Forall_replicate. by right.
Qed.

(** [search] as a function of the hits of the index and of the stored
    frame, when the frame has at least as many rows as the index vectors. *)
Lemma search_rows (s : FaissVectorStore.Store) t index df q top_k hits :
  indexes s !! t = Some index → data s !! t = Some df →
  (faiss.ntotal index ≤ pd.len df)%nat → (0 < pd.len df)%nat →
  faiss.search index (np.astype_float32 q) top_k = Some hits →
  FaissVectorStore.search s t q top_k = Return (row_of df <$> hits).
Proof.
  intros Hi Hd Hn Hpos Hs.
  destruct (faiss_search_labels index _ top_k hits Hs) as (Hlab & Hlen & Hk).
  unfold FaissVectorStore.search. rewrite Hi. cbn zeta. rewrite Hs, Hd.
  rewrite collect_valid.
  - destruct hits; [|done]. cbn in Hlen. lia.
  - eapply Forall_impl; [exact Hlab|]. simpl. intros h [?|?]; lia.
Qed.


(* ===================================================================== *)
(** ** search returns the nearest rows *)
(* ===================================================================== *)

Lemma StronglySorted_app_le {A} (R : A → A → Prop) l1 l2 x y :
  StronglySorted R (l1 ++ l2) → x ∈ l1 → y ∈ l2 → R x y.
Proof.
  induction l1 as [|a l1 IH]; intros Hs Hx Hy; [by apply elem_of_nil in Hx|].
  simpl in Hs. apply StronglySorted_inv in Hs as [Hs Hall].
  apply elem_of_cons in Hx as [->|Hx]; [|by apply IH].
  rewrite Forall_forall in Hall. apply Hall. apply elem_of_app. by right.
Qed.

Lemma aligned_len index df : aligned index df → pd.len df = faiss.ntotal index.
Proof.
  unfold aligned, pd.len, faiss.ntotal, pd.column. intros (embs & Hc & ->).
  apply (f_equal length) in Hc. by rewrite !length_fmap in *.
Qed.

Lemma column_vectors_row df (embs : list (list Z)) i v :
  pd.column df "embeddings" = VVec <$> embs → embs !! i = Some v →
  ∃ lr, pd.rows df !! i = Some lr ∧ pd.cell lr.2 "embeddings" = VVec v.
Proof.
  unfold pd.column. intros Hc Hv.
  assert (((λ lr : Z * pd.Series, pd.cell lr.2 "embeddings") <$> pd.rows df) !! i
          = Some (VVec v)) as Hi by (by rewrite Hc, list_lookup_fmap, Hv).
  rewrite list_lookup_fmap in Hi.
  destruct (pd.rows df !! i) as [lr|] eqn:Hr; [|done].
  injection Hi as Hi. by exists lr.
Qed.

Lemma column_vectors_row_inv df (embs : list (list Z)) i lr v :
  pd.column df "embeddings" = VVec <$> embs → pd.rows df !! i = Some lr →
  pd.cell lr.2 "embeddings" = VVec v → embs !! i = Some v.
Proof.
  unfold pd.column. intros Hc Hr Hv.
  assert ((VVec <$> embs) !! i = Some (VVec v)) as Hi
    by (by rewrite <-Hc, list_lookup_fmap, Hr; cbn; rewrite Hv).
  rewrite list_lookup_fmap in Hi.
  destruct (embs !! i) as [w|]; [|done]. by injection Hi as ->.
Qed.

(** X12. On a table whose index is aligned with its stored rows, the
    vectors and the query being integers small enough for float32 to be
    exact on them ([4 B^2 d < 2^24] for vectors of [d] components of
    magnitude at most [B]), [search] with [top_k] at most the number of rows
    returns exactly [top_k] rows in order of non-decreasing distance; each
    returned row is a stored row, and its [distance] is the squared
    Euclidean distance between the query and that row's own [embeddings];
    every stored row that is not returned is at least as far from the query
    as every returned row. *)
Theorem search_returns_nearest_rows (s : FaissVectorStore.Store) (t : string)
    (index : faiss.IndexFlatL2) (df : pd.DataFrame) (q : list Z) (top_k B : Z) :
  indexes s !! t = Some index → data s !! t = Some df → aligned index df →
  bounded B q →
  (∀ v, VVec v ∈ pd.column df "embeddings" → bounded B v) →
  4 * B * B * Z.of_nat (length q) < 2 ^ 24 →
  0 < top_k ≤ Z.of_nat (faiss.ntotal index) → length q = faiss.d index →
  ∃ hits,
    FaissVectorStore.search s t q top_k = Return (row_of df <$> hits)
    ∧ length hits = Z.to_nat top_k
    ∧ StronglySorted by_distance hits
    ∧ (∀ h, h ∈ hits →
            ∃ i lr v, h.2 = Z.of_nat i ∧ pd.rows df !! i = Some lr
                      ∧ row_of df h = <["distance" := VNum h.1]> lr.2
                      ∧ pd.cell lr.2 "embeddings" = VVec v
                      ∧ h.1 = squared_distance q v)
    ∧ (∀ i lr v, pd.rows df !! i = Some lr →
                 pd.cell lr.2 "embeddings" = VVec v →
                 (squared_distance q v, Z.of_nat i) ∈ hits
                 ∨ ∀ h, h ∈ hits → h.1 ≤ squared_distance q v).
Proof.
  intros Hi Hd Hal HBq HBv Hsum Hk Hq.
  pose proof (aligned_len _ _ Hal) as Hlen.
  destruct Hal as (embs & Hcol & Hxb).
  assert (∀ i v, embs !! i = Some v → bounded B v) as HBe.
  { intros i v Hv. apply HBv. rewrite Hcol. apply list_elem_of_fmap.
    exists v. split; [done|]. by eapply list_elem_of_lookup_2. }
  set (all := faiss.sort_hits (faiss.hits index (np.astype_float32 q))).
  assert (∀ i x, faiss.xb index !! i = Some x →
            ∃ v, embs !! i = Some v ∧ x = np.astype_float32 v
                 ∧ faiss.hit (np.astype_float32 q) i x
                   = Some (squared_distance q v, Z.of_nat i)) as Hhit.
  { intros i x Hx. rewrite Hxb, list_lookup_fmap in Hx.
    destruct (embs !! i) as [v|] eqn:Hv; [|done]. injection Hx as <-.
    exists v. split_and!; [done..|]. apply (hit_exact B); eauto. }
  assert (length all = faiss.ntotal index) as Hall.
  { unfold all. rewrite sort_hits_length. apply hits_length_all.
    intros i x Hx. destruct (Hhit i x Hx) as (v & _ & _ & ->). eauto. }
  assert (∀ h, h ∈ all ↔ ∃ i v, embs !! i = Some v
                              ∧ h = (squared_distance q v, Z.of_nat i)) as Hmem.
  { intros h. unfold all. rewrite sort_hits_perm, elem_of_hits. split.
    - intros (i & x & Hx & Hh). destruct (Hhit i x Hx) as (v & Hv & _ & Hh').
      rewrite Hh' in Hh. injection Hh as <-. eauto.
    - intros (i & v & Hv & ->). exists i, (np.astype_float32 v). split.
      + by rewrite Hxb, list_lookup_fmap, Hv.
      + apply (hit_exact B); eauto. }
  exists (take (Z.to_nat top_k) all). split_and!.
  - erewrite search_rows; [| done | done | lia | lia |].
    2:{ rewrite faiss_search_take; [|lia|by rewrite astype_float32_length].
        fold all. rewrite <-(sort_hits_length (faiss.hits _ _)). fold all.
        replace (Z.to_nat top_k - length all)%nat with 0%nat by lia.
        by rewrite app_nil_r. }
    done.
  - rewrite length_take. lia.
  - apply StronglySorted_take, sort_hits_sorted.
  - intros h Hh. apply elem_of_take in Hh as (j & Hh & _).
    apply list_elem_of_lookup_2, Hmem in Hh as (i & v & Hv & ->).
    destruct (column_vectors_row df embs i v Hcol Hv) as (lr & Hlr & Hemb).
    exists i, lr, v. cbn [fst snd]. split_and!; [done|done| |done|done].
    unfold row_of, pd.iloc. cbn [fst snd]. cbn zeta.
    pose proof (lookup_lt_Some _ _ _ Hlr) as Hlt. unfold pd.len.
    rewrite bool_decide_eq_true_2 by lia. by rewrite Nat2Z.id, Hlr.
  - intros i lr v Hlr Hemb.
    pose proof (column_vectors_row_inv df embs i lr v Hcol Hlr Hemb) as Hv.
    assert ((squared_distance q v, Z.of_nat i) ∈ all) as Hin
      by (apply Hmem; eauto).
    rewrite <-(take_drop (Z.to_nat top_k) all) in Hin.
    apply elem_of_app in Hin as [Hin|Hin]; [by left|right].
    intros h Hh.
    apply (StronglySorted_app_le by_distance (take (Z.to_nat top_k) all)
             (drop (Z.to_nat top_k) all) h (squared_distance q v, Z.of_nat i));
      [|done..].
    rewrite take_drop. apply sort_hits_sorted.
Qed.

(** X13. [search] on a table without stored rows -- a table that was
    created and not yet loaded -- raises [IndexError], whatever the query
    and [top_k]: every hit of the empty index is a padding entry with label
    -1, which passes the test [idx < len(data)] and is then read at position
    -1 of an empty frame. *)
Theorem search_empty_table_raises (s : FaissVectorStore.Store) (t : string)
    (index : faiss.IndexFlatL2) (df : pd.DataFrame) (q : list Z) (top_k : Z) :
  indexes s !! t = Some index → data s !! t = Some df →
  faiss.ntotal index = 0%nat → pd.len df = 0%nat →
  0 < top_k → length q = faiss.d index →
  FaissVectorStore.search s t q top_k = Raise IndexError.
Proof.
  intros Hi Hd Hn Hlen Hk Hq. unfold FaissVectorStore.search.
  rewrite Hi. cbn zeta.
  rewrite (faiss_search_take index _ top_k Hk)
    by (by rewrite astype_float32_length).
  rewrite Hd.
  assert (faiss.xb index = []) as Hxb.
  { unfold faiss.ntotal in Hn. by destruct (faiss.xb index). }
  unfold faiss.hits. rewrite Hxb.
  cbn [imap omap list_omap length faiss.sort_hits foldr].
  rewrite take_nil, app_nil_l.
  destruct (Z.to_nat top_k - 0)%nat as [|n] eqn:Hrep; [lia|].
  cbn [replicate FaissVectorStore.collect]. rewrite Hlen.
  rewrite bool_decide_eq_true_2 by lia.
  unfold pd.iloc. cbn zeta. rewrite Hlen.
  by rewrite !bool_decide_eq_false_2 by lia.
Qed.

(* ===================================================================== *)
(** ** search on the Chroma adapter *)
(* ===================================================================== *)

(** X14. [ChromaVectorStore.search] raises [DBOperationError] for an
    unknown table; otherwise it returns one record per query embedding, not
    one per hit: with the single query embedding it sends, and a result that
    has one entry per query embedding in each of [ids], [documents] and
    [distances], the output is exactly one record, which holds the whole
    lists of ids, documents and distances, whatever [top_k] is. *)
Theorem chroma_search_one_record
    (query : chromadb.Collection → list (list Z) → Z → ChromaSearch.QueryResult)
    (s : ChromaVectorStore.Store) (t : string) (q : list Z) (top_k : Z) :
  (indexes s !! t = None →
   ChromaSearch.search query s t q top_k = Raise (DBOperationError t))
  ∧ (∀ collection ids docs dists,
       indexes s !! t = Some collection →
       query collection [q] top_k
       = ChromaSearch.mkQueryResult [ids] [docs] [dists] →
       ChromaSearch.search query s t q top_k
       = Return [ChromaSearch.mkHit ids docs dists]).
Proof.
  unfold ChromaSearch.search. split.
  - by intros ->.
  - intros collection ids docs dists -> ->. done.
Qed.

(* ===================================================================== *)
(** ** Calls on a table that was never created *)
(* ===================================================================== *)

(** X15. On a table name that was never created, the methods split in two
    groups.  [search], [add_column] and [update_data] raise
    [DBOperationError] and leave the adapter as it was;
    [get_active_data], [get_data_columns], [get_embed_columns_names] and
    [set_inactive] do not raise: they return an empty frame, an empty list,
    an empty list, and nothing, the adapter being unchanged. *)
Theorem unknown_table_contract {I} (s : Store I) (t : string) :
  store_wf s → ¬ known s t →
  (∀ c ty, add_column s t c ty = (s, Raise (DBOperationError t)))
  ∧ (∀ df pks, update_data s t df pks = (s, Raise (DBOperationError t)))
  ∧ get_active_data s t = pd.empty []
  ∧ get_data_columns s t = []
  ∧ get_embed_columns_names s t = []
  ∧ (∀ pk_values, set_inactive s t pk_values = (s, Return ()))
  ∧ (∀ (sf : FaissVectorStore.Store) q top_k,
       ¬ known sf t →
       FaissVectorStore.search sf t q top_k = Raise (DBOperationError t))
  ∧ (∀ query (sc : ChromaVectorStore.Store) q top_k,
       ¬ known sc t →
       ChromaSearch.search query sc t q top_k = Raise (DBOperationError t)).
Proof.
  intros Hwf Hk. unfold known in Hk.
  destruct (Hwf t) as [[_ Hdi] [_ Hsd]].
  assert (data s !! t = None) as Hd.
  { apply eq_None_not_Some. intros H. by apply Hk, Hdi. }
  assert (schemas s !! t = None) as Hsch.
  { apply eq_None_not_Some. intros H. by apply Hk, Hdi, Hsd. }
  split_and!.
  - intros c ty. unfold add_column. by rewrite Hsch.
  - intros df pks. unfold update_data. by rewrite Hd.
  - unfold get_active_data. by rewrite Hd.
  - unfold get_data_columns. by rewrite Hsch.
  - unfold get_embed_columns_names. by rewrite Hsch.
  - intros pk_values. unfold set_inactive. by rewrite Hd.
  - intros sf q top_k Hkf. unfold FaissVectorStore.search.
    unfold known in Hkf. by rewrite (proj2 (eq_None_not_Some _) Hkf).
  - intros query sc q top_k Hkc. unfold ChromaSearch.search.
    unfold known in Hkc. by rewrite (proj2 (eq_None_not_Some _) Hkc).
Qed.

(* ===================================================================== *)
(** ** How the calls compose *)
(* ===================================================================== *)



(** X17. Loading a new table: after [create_table] for a table name that
    is not known yet and one [insert_data] of a non-empty batch whose declared
    key columns are present and whose [embeddings] column holds one vector
    of the configured dimension per row, the insert has returned normally,
    the stored frame holds exactly the batch rows, the index holds the
    float32 conversions of their vectors in the same order (it is aligned
    with the frame), and
    [get_data_columns] lists the columns of the frame that [create_table]
    made. *)
Theorem create_table_then_insert_data (dim : nat) (s : FaissVectorStore.Store)
    (t : string) (sample batch : pd.DataFrame) (pks : list string)
    (mode : string) (cols : list string) (embs : list (list Z)) :
  store_wf s → ¬ known s t →
  (∀ col, col ∈ pks → col ∈ pd.columns batch) →
  "embeddings" ∈ pd.columns batch →
  pd.column batch "embeddings" = VVec <$> embs → embs ≠ [] →
  Forall (λ v, length v = dim) embs →
  let s1 := (FaissVectorStore.create_table dim s t sample pks mode cols).1 in
  let s2 := (FaissVectorStore.insert_data s1 t batch pks).1 in
  let created := pd.empty (dict_keys (column_types dim sample mode cols)) in
  (FaissVectorStore.insert_data s1 t batch pks).2 = Return ()
  ∧ get_data_columns s1 t = pd.columns created
  ∧ data s2 !! t = Some (pd.concat created batch)
  ∧ indexes s2 !! t = Some (faiss.mk dim (np.astype_float32 <$> embs))
  ∧ pd.len (pd.concat created batch) = length embs
  ∧ aligned (faiss.mk dim (np.astype_float32 <$> embs))
      (pd.concat created batch).
Proof.
  intros Hwf Hk Hpk Hcol Hvec Hne Hdim s1 s2 created.
  assert (indexes s !! t = None) as Hi by (by apply eq_None_not_Some).
  assert (s1 = mkStore (<[t := faiss.mk dim []]> (indexes s))
                 (<[t := created]> (data s))
                 (<[t := mkTableSchema (column_types dim sample mode cols)
                           (dict_comp (λ _, true)
                              (dict_keys (column_types dim sample mode cols)))]>
                    (schemas s))) as Hs1.
  { unfold s1, FaissVectorStore.create_table. by rewrite create_table_fresh. }
  assert (FaissVectorStore.insert_data s1 t batch pks
          = (set_index (set_data s1 t (pd.concat created batch)) t
               (faiss.mk dim (np.astype_float32 <$> embs)), Return ())) as Hrun.
  { unfold FaissVectorStore.insert_data. rewrite Hs1. cbn [data].
    rewrite lookup_insert_eq, (forallb_columns_true _ _ Hpk). cbn [negb].
    rewrite bool_decide_eq_true_2 by done.
    rewrite Hvec, (np_array_vectors _ _ Hne Hdim). cbn [set_data indexes].
    rewrite lookup_insert_eq.
    by rewrite (faiss_add_float32 (faiss.mk dim []) embs) by done. }
  assert (pd.column (pd.concat created batch) "embeddings" = VVec <$> embs) as Hal.
  { rewrite concat_column by (by right). by rewrite Hvec. }
  split_and!.
  - by rewrite Hrun.
  - unfold get_data_columns. rewrite Hs1. cbn [schemas]. by rewrite lookup_insert_eq.
  - unfold s2. rewrite Hrun. cbn [fst set_index set_data data]. apply lookup_insert_eq.
  - unfold s2. rewrite Hrun. cbn [fst set_index indexes]. apply lookup_insert_eq.
  - apply (f_equal length) in Hal. unfold pd.column in Hal.
    rewrite !length_fmap in Hal. exact Hal.
  - by exists embs.
Qed.

(* ===================================================================== *)
(** ** The Chroma adapter: ids and refused names *)
(* ===================================================================== *)

Lemma set_index_id {I} (s : Store I) t i :
  indexes s !! t = Some i → set_index s t i = s.
Proof. intros H. unfold set_index. rewrite insert_id by done. apply store_eta. Qed.

(** X18. The Chroma adapter gives a record the index label of its row in
    the batch as id, and [collection.add] ignores a record whose id the
    collection holds.  So when every label of the batch is an id of the
    collection already -- the batch passing the checks of [add] otherwise --
    [insert_data] returns normally and stores the rows, and leaves the
    collection as it was: the embeddings of the batch are not indexed. *)
Theorem chroma_insert_data_held_ids_not_indexed (s : ChromaVectorStore.Store)
    (t : string) (df : pd.DataFrame) (pks : list string) (old : pd.DataFrame)
    (collection : chromadb.Collection) (embs : list (list Z))
    (docs : list string) (n : nat) :
  data s !! t = Some old → indexes s !! t = Some collection →
  (∀ col, col ∈ pks → col ∈ pd.columns df) →
  "embeddings" ∈ pd.columns df →
  pd.column df "embeddings" = VVec <$> embs → embs ≠ [] →
  n ≠ 0%nat → Forall (λ v, length v = n) embs →
  chromadb.dimension collection = None ∨ chromadb.dimension collection = Some n →
  ChromaVectorStore.documents_of df = VStr <$> docs →
  NoDup (pd.index df) →
  (∀ l, l ∈ pd.index df → pretty l ∈ chromadb.ids collection) →
  ChromaVectorStore.insert_data s t df pks
  = (set_data s t (pd.concat old df), Return ())
  ∧ indexes (ChromaVectorStore.insert_data s t df pks).1 = indexes s.
Proof.
  intros Hd Hi Hpk Hcol Hvec Hne Hn Hdim Hcdim Hdocs Hnd Hheld.
  assert (ChromaVectorStore.insert_data s t df pks
          = (set_data s t (pd.concat old df), Return ())) as Hrun;
    [|by rewrite Hrun].
  unfold ChromaVectorStore.insert_data.
  rewrite Hi, (forallb_columns_true _ _ Hpk), Hd. cbn [negb].
  rewrite bool_decide_eq_true_2 by done.
  assert (length embs = pd.len df) as Hlen.
  { rewrite <-(length_fmap VVec embs), <-Hvec. apply length_fmap. }
  assert (length docs = pd.len df) as Hdlen.
  { rewrite <-(length_fmap VStr docs), <-Hdocs. apply documents_of_length. }
  rewrite Hvec, Hdocs.
  rewrite (chromadb_add_held collection embs docs _ n); try done.
  - by rewrite (set_index_id (set_data s t _)).
  - rewrite length_fmap. unfold pd.index. rewrite length_fmap. by rewrite Hlen.
  - congruence.
  - by apply (NoDup_fmap_2 _).
  - intros i Hin. apply list_elem_of_fmap in Hin as (l & -> & Hl).
    by apply Hheld.
Qed.

(** X19. [create_table] of the Chroma adapter stores the schema and an
    empty frame before it asks the client for the collection.  When the
    client refuses the name, the call raises with both stored: the table
    has a frame and a schema and no collection, the registries disagree,
    and [insert_data] raises [DBOperationError] on the table.  A
    [create_table] for a name without a collection always leaves the empty
    frame, whatever rows the table held: from a state in which the
    registries disagree, a call can remove rows. *)
Theorem chroma_create_table_refused (dim : nat) (client : chromadb.Client)
    (s : ChromaVectorStore.Store) (t : string) (df : pd.DataFrame)
    (pks : list string) (mode : string) (cols : list string) :
  indexes s !! t = None →
  chromadb.create_collection (ChromaVectorStore.self_client client s) t = None →
  let s1 := chroma_prepared dim s t df mode cols in
  ChromaVectorStore.create_table dim client s t df pks mode cols
  = (s1, Raise ChromaError)
  ∧ data s1 !! t = Some (pd.empty (dict_keys (column_types dim df mode cols)))
  ∧ ¬ store_wf s1
  ∧ (∀ batch pks',
       ChromaVectorStore.insert_data s1 t batch pks'
       = (s1, Raise (DBOperationError t)))
  ∧ (∀ s' : ChromaVectorStore.Store,
       indexes s' !! t = None →
       data (ChromaVectorStore.create_table dim client s' t df pks mode cols).1
         !! t
       = Some (pd.empty (dict_keys (column_types dim df mode cols)))
       ∧ ∀ rows, data s' !! t = Some rows → (0 < pd.len rows)%nat →
           ¬ extends s'
               (ChromaVectorStore.create_table dim client s' t df pks mode
                  cols).1).
Proof.
  intros Hi Hc s1. split_and!.
  - by rewrite chroma_create_table_fresh, Hc.
  - apply lookup_insert_eq.
  - intros Hwf. destruct (Hwf t) as [[_ Hdi] _].
    destruct Hdi as [? Hk]; [|cbn in Hk; congruence].
    cbn. rewrite lookup_insert_eq. eauto.
  - intros batch pks'. by apply chroma_insert_unknown_table.
  - intros s' Hi'.
    destruct (chroma_create_table_stores dim client s' t df pks mode cols Hi')
      as (Hd & _ & _).
    assert (data (ChromaVectorStore.create_table dim client s' t df pks mode
                    cols).1 !! t
            = Some (pd.empty (dict_keys (column_types dim df mode cols))))
      as Hempty by (rewrite Hd; apply lookup_insert_eq).
    split; [done|]. intros rows Hrows Hlen Hext.
    destruct (Hext t) as (_ & _ & Hkeep).
    destruct (Hkeep rows Hrows) as (df' & Hdf' & _ & Hle).
    rewrite Hempty in Hdf'. injection Hdf' as <-. cbn in Hle. lia.
Qed.

(* ===================================================================== *)
(** ** The further statements at concrete tables *)
(* ===================================================================== *)

Section MoreInstances.
Import Examples MoreExamples.

Local Ltac evaluate :=
  match goal with |- ?P => apply (bool_decide_unpack P); vm_compute; exact I end.

Lemma id_created_data : data id_created !! "t" = Some (pd.empty id_columns).
Proof. vm_compute. reflexivity. Qed.

Lemma id_created_index : indexes id_created !! "t" = Some (faiss.mk dim []).
Proof. vm_compute. reflexivity. Qed.

Lemma id_created_schema :
  schemas id_created !! "t"
  = Some (mkTableSchema (column_types dim id_rows "combined" [])
            (dict_comp (λ _, true) (dict_keys (column_types dim id_rows "combined" [])))).
Proof. vm_compute. reflexivity. Qed.

Lemma calls_never_remove_witness :
  extends id_created (faiss_call dim id_created (InsertData "t" abc_batch ["id"])).
Proof.
  destruct (calls_never_remove dim (InsertData "t" abc_batch ["id"])) as [HF _].
  apply HF, id_created_wf.
Defined.

Lemma get_embed_columns_names_created_witness :
  NoDup (get_embed_columns_names
           (create_table dim (FaissVectorStore.new_index dim) init "t" id_rows
              ["id"] "separated" ["name"]).1 "t")
  ∧ "name_enc" ∈ get_embed_columns_names
                   (create_table dim (FaissVectorStore.new_index dim) init "t" id_rows
                      ["id"] "separated" ["name"]).1 "t".
Proof.
  destruct (get_embed_columns_names_created dim (FaissVectorStore.new_index dim)
              init "t" id_rows ["id"] "separated" ["name"]) as (Hnd & Hmem & _).
  - reflexivity.
  - intros c Hc. change (pd.columns id_rows) with ["id"; "name"] in Hc.
    apply elem_of_cons in Hc as [-> | Hc]; [by split|].
    apply list_elem_of_singleton in Hc as ->. by split.
  - split; [exact Hnd|]. apply Hmem. apply list_elem_of_here.
Defined.

Lemma insert_data_appends_rows_witness :
  pd.column (pd.concat (pd.empty id_columns) abc_batch) "name"
  = [VStr "a"; VStr "b"; VStr "c"]
  ∧ data (FaissVectorStore.insert_data id_created "t" abc_batch ["id"]).1
    = <["t" := pd.concat (pd.empty id_columns) abc_batch]> (data id_created).
Proof.
  destruct (insert_data_appends_rows "t" abc_batch ["id"] (pd.empty id_columns))
    as ((_ & _ & _ & Hcol) & HF & _).
  { intros col Hin. apply list_elem_of_singleton in Hin as ->. evaluate. }
  split.
  - rewrite Hcol by evaluate. vm_compute. reflexivity.
  - apply HF, id_created_data.
Defined.

Lemma faiss_insert_data_raises_after_storing_witness :
  ∃ e, FaissVectorStore.insert_data id_created "t" wide_batch ["id"]
       = (set_data id_created "t" (pd.concat (pd.empty id_columns) wide_batch),
          Raise e)
       ∧ (e = ValueError ∨ e = AssertionError).
Proof.
  apply (faiss_insert_data_raises_after_storing id_created "t" wide_batch ["id"]
           (pd.empty id_columns) (faiss.mk dim [])).
  - exact id_created_data.
  - exact id_created_index.
  - intros col Hin. apply list_elem_of_singleton in Hin as ->. evaluate.
  - evaluate.
  - intros (embs & Hc & _ & Hall).
    change (pd.column wide_batch "embeddings") with [VVec [1; 2; 3]] in Hc.
    destruct embs as [|v [|w embs]]; try discriminate Hc.
    injection Hc as <-. apply Forall_cons in Hall as [Hlen _].
    discriminate Hlen.
Defined.

Lemma insert_data_then_get_active_data_witness :
  (pd.rows (get_active_data
              (FaissVectorStore.insert_data id_created "t" abc_batch ["id"]).1 "t")).*2
  = pd.reindex (pd.columns (pd.concat (pd.empty id_columns) abc_batch))
    <$> ((pd.rows (get_active_data id_created "t")).*2
         ++ filter (λ r, active r = true) (pd.rows abc_batch).*2).
Proof.
  destruct (insert_data_then_get_active_data "t" abc_batch ["id"]
              (pd.empty id_columns)) as [HF _].
  - evaluate.
  - intros col Hin. apply list_elem_of_singleton in Hin as ->. evaluate.
  - apply HF, id_created_data.
Defined.

Lemma abc_store_schema :
  schemas abc_store !! "t"
  = Some (mkTableSchema (column_types dim id_rows "combined" [])
            (dict_comp (λ _, true) (dict_keys (column_types dim id_rows "combined" [])))).
Proof. vm_compute. reflexivity. Qed.

Lemma add_column_backfills_witness :
  ∃ sch' df',
    add_column abc_store "t" "name" "text"
    = (mkStore (indexes abc_store) (<["t" := df']> (data abc_store))
         (<["t" := sch']> (schemas abc_store)), Return ())
    ∧ pd.column df' "name" = replicate (pd.len abc_frame) VNaN
    ∧ pd.column df' "id" = pd.column abc_frame "id".
Proof.
  destruct (add_column_backfills abc_store "t" "name" "text" _ abc_frame
              abc_store_schema abc_store_data)
    as (sch' & df' & Hrun & _ & _ & _ & _ & _ & Hname & Hother & _).
  exists sch', df'. split_and!; [exact Hrun|exact Hname|].
  apply Hother. discriminate.
Defined.

Lemma set_inactive_then_get_active_data_witness :
  ∃ pk_col cols df',
    pd.columns abc_frame = pk_col :: cols
    ∧ data (set_inactive abc_store "t" [VNum 2]).1 !! "t" = Some df'
    ∧ pd.len df' = pd.len abc_frame
    ∧ pd.rows (get_active_data (set_inactive abc_store "t" [VNum 2]).1 "t")
      = filter (λ lr, pd.isin (pd.cell lr.2 pk_col) [VNum 2] = false)
               (pd.rows (get_active_data abc_store "t")).
Proof.
  apply (set_inactive_then_get_active_data abc_store "t" [VNum 2] abc_frame).
  - exact abc_store_data.
  - evaluate.
Defined.

Lemma abc_frame_key_unique : key_unique "id" abc_frame.
Proof.
  unfold key_unique.
  change (pd.column abc_frame "id") with [VNum 1; VNum 2; VNum 3].
  intros i j a b Hi Hj Hne.
  destruct i as [|[|[|i]]], j as [|[|[|j]]]; simplify_eq/=; done.
Qed.


Lemma update_data_single_key_unique_witness :
  ∃ df',
    update_data abc_store "t" id_batch ["id"] = (set_data abc_store "t" df', Return ())
    ∧ key_unique "id" df'.
Proof.
  apply (update_data_single_key_unique abc_store "t" id_batch "id" abc_frame).
  - exact abc_store_data.
  - apply concat_index_NoDup.
  - evaluate.
  - evaluate.
  - exact abc_frame_key_unique.
Defined.


Lemma abc_aligned : aligned abc_index abc_frame.
Proof. exists [[1; 0]; [0; 1]; [5; 5]]. split; vm_compute; reflexivity. Qed.

Lemma search_returns_nearest_rows_witness :
  ∃ hits,
    FaissVectorStore.search abc_store "t" [0; 0] 2 = Return (row_of abc_frame <$> hits)
    ∧ length hits = Z.to_nat 2
    ∧ StronglySorted by_distance hits
    ∧ ((squared_distance [0; 0] [5; 5], 2) ∈ hits
       ∨ ∀ h, h ∈ hits → h.1 ≤ 50).
Proof.
  destruct (search_returns_nearest_rows abc_store "t" abc_index abc_frame [0; 0]
              2 5)
    as (hits & Hrun & Hlen & Hsort & _ & Hfar).
  - exact abc_store_index.
  - exact abc_store_data.
  - exact abc_aligned.
  - repeat constructor; cbn; lia.
  - change (pd.column abc_frame "embeddings")
      with [VVec [1; 0]; VVec [0; 1]; VVec [5; 5]].
    intros v Hv. repeat (apply elem_of_cons in Hv as [[= ->] | Hv]);
      [repeat constructor; cbn; lia..|by apply elem_of_nil in Hv].
  - reflexivity.
  - split; [reflexivity|]. evaluate.
  - reflexivity.
  - exists hits. split_and!; [done..|].
    apply (Hfar 2%nat (default (0, ∅) (pd.rows abc_frame !! 2%nat)) [5; 5]);
      vm_compute; reflexivity.
Defined.

Lemma search_empty_table_raises_witness :
  FaissVectorStore.search id_created "t" [0; 0] 5 = Raise IndexError.
Proof.
  apply (search_empty_table_raises id_created "t" (faiss.mk dim []) (pd.empty id_columns)).
  - exact id_created_index.
  - exact id_created_data.
  - reflexivity.
  - reflexivity.
  - reflexivity.
  - reflexivity.
Defined.

Lemma abc_chroma_store_index :
  indexes abc_chroma_store !! "items" = Some abc_collection.
Proof. vm_compute. reflexivity. Qed.

Lemma chroma_search_one_record_witness :
  ChromaSearch.search whole_collection init "items" [0; 0] 2
  = Raise (DBOperationError "items")
  ∧ ChromaSearch.search whole_collection abc_chroma_store "items" [0; 0] 2
    = Return [ChromaSearch.mkHit ["0"; "1"; "2"] [VStr ""; VStr ""; VStr ""]
                [0; 0; 0]].
Proof.
  destruct (chroma_search_one_record whole_collection init "items" [0; 0] 2)
    as [Hraise _].
  destruct (chroma_search_one_record whole_collection abc_chroma_store "items"
              [0; 0] 2) as [_ Hret].
  split.
  - apply Hraise. reflexivity.
  - apply (Hret abc_collection).
    + exact abc_chroma_store_index.
    + reflexivity.
Defined.

Lemma unknown_table_contract_witness :
  (∀ c ty, add_column (@init faiss.IndexFlatL2) "t" c ty
           = (init, Raise (DBOperationError "t")))
  ∧ get_active_data (@init faiss.IndexFlatL2) "t" = pd.empty []
  ∧ (∀ pk_values, set_inactive (@init faiss.IndexFlatL2) "t" pk_values
                  = (init, Return ())).
Proof.
  destruct (unknown_table_contract (@init faiss.IndexFlatL2) "t")
    as (Hadd & _ & Hact & _ & _ & Hinact & _).
  - apply init_wf.
  - intros [? Hk]. discriminate Hk.
  - by split_and!.
Defined.

Lemma create_table_then_insert_data_witness :
  (FaissVectorStore.insert_data
     (FaissVectorStore.create_table dim init "t" id_rows ["id"] "combined" []).1
     "t" abc_batch ["id"]).2 = Return ()
  ∧ aligned (faiss.mk dim (np.astype_float32 <$> [[1; 0]; [0; 1]; [5; 5]]))
      (pd.concat (pd.empty (dict_keys (column_types dim id_rows "combined" [])))
         abc_batch).
Proof.
  destruct (create_table_then_insert_data dim init "t" id_rows abc_batch ["id"]
              "combined" [] [[1; 0]; [0; 1]; [5; 5]])
    as (Hret & _ & _ & _ & _ & Hal).
  - apply init_wf.
  - intros [? Hk]. discriminate Hk.
  - intros col Hin. apply list_elem_of_singleton in Hin as ->. evaluate.
  - evaluate.
  - vm_compute. reflexivity.
  - discriminate.
  - repeat constructor.
  - by split.
Defined.

Lemma chroma_insert_data_held_ids_not_indexed_witness :
  ChromaVectorStore.insert_data abc_chroma_store "items" xyz_batch ["id"]
  = (set_data abc_chroma_store "items" (pd.concat abc_frame xyz_batch), Return ())
  ∧ indexes (ChromaVectorStore.insert_data abc_chroma_store "items" xyz_batch
               ["id"]).1 !! "items" = Some abc_collection.
Proof.
  destruct (chroma_insert_data_held_ids_not_indexed abc_chroma_store "items"
              xyz_batch ["id"] abc_frame abc_collection
              [[7; 7]; [8; 8]; [9; 9]] [""; ""; ""] 2%nat) as [Hrun Hidx].
  - vm_compute. reflexivity.
  - exact abc_chroma_store_index.
  - intros col Hin. apply list_elem_of_singleton in Hin as ->. evaluate.
  - evaluate.
  - vm_compute. reflexivity.
  - discriminate.
  - discriminate.
  - repeat constructor.
  - by right.
  - vm_compute. reflexivity.
  - evaluate.
  - change (pd.index xyz_batch) with [0; 1; 2].
    change (chromadb.ids abc_collection) with ["0"; "1"; "2"].
    intros l Hl. repeat (apply elem_of_cons in Hl as [-> | Hl]);
      [evaluate..|by apply elem_of_nil in Hl].
  - split; [exact Hrun|]. rewrite Hidx. exact abc_chroma_store_index.
Defined.

Lemma chroma_create_table_refused_witness :
  ChromaVectorStore.create_table dim client init "t" id_rows ["id"] "combined" []
  = (refused, Raise ChromaError)
  ∧ table_values ["id"; "name"] refused_updated "t"
    = Some [[VNum 1; VStr "b"]]
  ∧ table_values ["id"; "name"]
      (ChromaVectorStore.create_table dim client refused_updated "t" id_rows
         ["id"] "combined" []).1 "t"
    = Some [].
Proof.
  destruct (chroma_create_table_refused dim client init "t" id_rows ["id"]
              "combined" []) as (Hrun & _ & _ & _ & Hagain).
  - reflexivity.
  - vm_compute. reflexivity.
  - split_and!.
    + rewrite Hrun. unfold refused. by rewrite Hrun.
    + vm_compute. reflexivity.
    + destruct (Hagain refused_updated) as [Hempty _];
        [vm_compute; reflexivity|].
      unfold table_values. rewrite Hempty. reflexivity.
Defined.

End MoreInstances.
